(** * llama_ros: the generation session of [llama.cpp] (src/llama_ros/src/llama.cpp)

    A shallow embedding of class [Llama]: the session state is a record, each
    member function is a function on that record, and the inference backend
    (llama.cpp's C API: tokenizer, evaluation, sampling, grammar engine) is an
    abstract capability record.  C++ exceptions and undefined behaviour are
    results of an error monad, loops that the source does not bound take fuel.

    Conventions.
    - [int] fields are [Z].  Signed overflow is undefined in C++, so the model
      follows runs whose counters stay in range, and a property that follows
      the value of a counter states that range; the one place where the
      source converts from [size_t] back to [int] (line 198) is written out
      with its wrap-around.  Container sizes are taken below 2^31, so the
      casts [(int)v.size()] are exact.
    - [fprintf] and the console spinner do not touch the session and are left
      out.
    - Fields whose names start with [ghost_] are not in the source: they
      record the backend calls made and the grammar objects alive, so that
      properties of them can be stated. *)

From Stdlib Require Import ZArith List String Ascii Bool Lia.
Import ListNotations.
Open Scope Z_scope.

(** ** Faults: exceptions, undefined behaviour, exhausted fuel *)

Inductive fault : Type :=
| OutOfRange        (* std::out_of_range thrown by vector::at *)
| LengthError       (* std::vector constructed from a negative int *)
| BackOfEmpty       (* vector::back() on an empty vector: undefined *)
| EraseOfEmpty      (* vector::erase(begin()) on an empty vector: undefined *)
| BadIteratorRange  (* vector::insert from a range outside its vector: undefined *)
| BadIndex          (* operator[] outside the vector: undefined *)
| BadBatchSize      (* n_batch = 0: the chunking loops never advance *)
| Timeout.          (* the fuel given to an unbounded loop ran out *)

Inductive result (A : Type) : Type :=
| Ok (a : A)
| Fault (f : fault).
Arguments Ok {A} a.
Arguments Fault {A} f.

Definition bind {A B : Type} (m : result A) (k : A -> result B) : result B :=
  match m with
  | Ok a => k a
  | Fault f => Fault f
  end.

Notation "x <- m ;; k" := (bind m (fun x => k))
  (at level 61, m at next level, right associativity).
Notation "' p <- m ;; k" := (bind m (fun x => match x with p => k end))
  (at level 61, p pattern, m at next level, right associativity).

(** ** Machine integers and std::vector / std::string primitives *)

Definition llama_token : Type := Z.

(** Conversion to [int] of a value computed in [size_t] (line 198). *)
Definition int_wrap (z : Z) : Z := (z + 2 ^ 31) mod 2 ^ 32 - 2 ^ 31.

(** Arithmetic in [size_t]. *)
Definition size_t_wrap (z : Z) : Z := z mod 2 ^ 64.

Definition size {A : Type} (v : list A) : Z := Z.of_nat (List.length v).

Definition str_size (s : string) : Z := Z.of_nat (String.length s).

(** [v.at(0)] *)
Definition vector_at0 {A : Type} (v : list A) : result A :=
  match v with
  | [] => Fault OutOfRange
  | a :: _ => Ok a
  end.

(** [v[i]] with an [int] index *)
Definition vector_index {A : Type} (v : list A) (i : Z) : result A :=
  if i <? 0 then Fault BadIndex
  else match nth_error v (Z.to_nat i) with
       | Some a => Ok a
       | None => Fault BadIndex
       end.

(** [v.back()] *)
Definition vector_back {A : Type} (v : list A) : result A :=
  match rev v with
  | [] => Fault BackOfEmpty
  | a :: _ => Ok a
  end.

(** [v.erase(v.begin()); v.push_back(t);] the sliding window's push *)
Definition window_push (w : list llama_token) (t : llama_token)
  : result (list llama_token) :=
  match w with
  | [] => Fault EraseOfEmpty
  | _ :: w' => Ok (w' ++ [t])
  end.

(** [std::vector<llama_token>(n)] followed by [std::fill(.., 0)] *)
Definition zero_window (n : Z) : result (list llama_token) :=
  if n <? 0 then Fault LengthError else Ok (repeat 0 (Z.to_nat n)).

(** The iterator range [v.begin() + first, v.begin() + last). *)
Definition vector_range {A : Type} (v : list A) (first last : Z)
  : result (list A) :=
  if (0 <=? first) && (first <=? last) && (last <=? size v)
  then Ok (firstn (Z.to_nat (last - first)) (skipn (Z.to_nat first) v))
  else Fault BadIteratorRange.

(** [hay.find(needle.c_str(), pos, needle.length()) != npos] for a [pos]
    computed in [size_t]. *)
Definition string_find (hay needle : string) (pos : Z) : option nat :=
  if pos >? str_size hay then None
  else index (Z.to_nat pos) needle hay.

(** The test of lines 237-241: the stop phrase is not empty and is found in
    the detokenized window from offset [length - phrase length] on. *)
Definition antiprompt_found (last_output phrase : string) : bool :=
  (0 <? str_size phrase) &&
  match string_find last_output phrase
          (size_t_wrap (str_size last_output - str_size phrase)) with
  | Some _ => true
  | None => false
  end.

(** ** The inference backend (llama.h, common.h, grammar-parser.h) *)

Record Backend : Type := {
  llama_context : Type;      (* llama_context*, with the logits it holds *)
  llama_prob : Type;         (* float: a candidate's probability *)
  llama_float : Type;        (* float: an embedding coordinate *)
  llama_grammar : Type;      (* llama_grammar* that is not NULL *)
  parse_state : Type;        (* grammar_parser::parse_state *)
  llama_tokenize : string -> bool -> list llama_token;
  llama_detokenize_bpe : list llama_token -> string;
  llama_token_bos : llama_token;
  llama_token_eos : llama_token;
  (* llama_eval(ctx, tokens, n_tokens, n_past, n_threads): the new context
     and whether the call failed (returned non-zero); the list holds the
     tokens of the range [tokens, tokens + n_tokens), none when the count
     is not positive *)
  llama_eval : llama_context -> list llama_token -> Z -> llama_context * bool;
  (* sample(): the logit bias of lines 387-390 and llama_sample_token, which
     reads the grammar and the window and fills the candidates *)
  llama_sample_token :
    llama_context -> option llama_grammar -> list llama_token ->
    llama_context * llama_token * list (llama_token * llama_prob);
  llama_get_embeddings : llama_context -> list llama_float;
  grammar_parse : string -> parse_state;
  rules_empty : parse_state -> bool;
  has_root : parse_state -> bool;   (* symbol_ids.at("root") does not throw *)
  llama_grammar_init : parse_state -> llama_grammar
}.

(** ** Configuration: the fields of [gpt_params] the session reads.

    The float-valued sampling parameters (temperature, penalties, the logit
    bias table) are consumed by the backend's sampling only and live behind
    [llama_sample_token].  [n_ctx] and [embedding] are what [get_n_ctx()]
    and [is_embedding()] read. *)

Record gpt_params : Type := {
  n_ctx : Z;
  n_batch : Z;
  n_predict : Z;
  n_keep : Z;
  n_probs : Z;
  input_prefix : string;
  input_suffix : string;
  antiprompt : list string;
  params_grammar : string;   (* params.grammar *)
  embedding : bool
}.

Definition set_n_keep (k : Z) (p : gpt_params) : gpt_params :=
  {| n_ctx := n_ctx p; n_batch := n_batch p; n_predict := n_predict p;
     n_keep := k; n_probs := n_probs p; input_prefix := input_prefix p;
     input_suffix := input_suffix p; antiprompt := antiprompt p;
     params_grammar := params_grammar p; embedding := embedding p |}.

Section Session.

Context {B : Backend}.

(** [struct completion_output] *)
Record completion_output : Type := {
  token : llama_token;
  probs : list (llama_token * llama_prob B)
}.

(** ** The session: the data members of [class Llama] *)

Record Llama : Type := {
  params : gpt_params;
  ctx : llama_context B;
  inp_pfx : list llama_token;
  inp_sfx : list llama_token;
  inp_stop : list llama_token;
  prompt_tokens : list llama_token;
  batch_tokens : list llama_token;
  last_n_tokens : list llama_token;
  is_antiprompt : bool;
  canceled : bool;
  n_past : Z;
  n_remain : Z;
  n_consumed : Z;
  grammar : option (llama_grammar B);
  parsed_grammar : option (parse_state B);    (* [None]: as default-constructed *)
  ghost_evals : list (list llama_token * Z);  (* llama_eval calls: chunk, n_past *)
  ghost_live_grammars : nat                   (* grammars created and not freed *)
}.

Definition set_ctx (v : llama_context B) (s : Llama) : Llama :=
  {| params := params s; ctx := v; inp_pfx := inp_pfx s; inp_sfx := inp_sfx s;
     inp_stop := inp_stop s; prompt_tokens := prompt_tokens s;
     batch_tokens := batch_tokens s; last_n_tokens := last_n_tokens s;
     is_antiprompt := is_antiprompt s; canceled := canceled s;
     n_past := n_past s; n_remain := n_remain s; n_consumed := n_consumed s;
     grammar := grammar s; parsed_grammar := parsed_grammar s;
     ghost_evals := ghost_evals s;
     ghost_live_grammars := ghost_live_grammars s |}.

Definition set_prompt_tokens (v : list llama_token) (s : Llama) : Llama :=
  {| params := params s; ctx := ctx s; inp_pfx := inp_pfx s; inp_sfx := inp_sfx s;
     inp_stop := inp_stop s; prompt_tokens := v;
     batch_tokens := batch_tokens s; last_n_tokens := last_n_tokens s;
     is_antiprompt := is_antiprompt s; canceled := canceled s;
     n_past := n_past s; n_remain := n_remain s; n_consumed := n_consumed s;
     grammar := grammar s; parsed_grammar := parsed_grammar s;
     ghost_evals := ghost_evals s;
     ghost_live_grammars := ghost_live_grammars s |}.

Definition set_batch_tokens (v : list llama_token) (s : Llama) : Llama :=
  {| params := params s; ctx := ctx s; inp_pfx := inp_pfx s; inp_sfx := inp_sfx s;
     inp_stop := inp_stop s; prompt_tokens := prompt_tokens s;
     batch_tokens := v; last_n_tokens := last_n_tokens s;
     is_antiprompt := is_antiprompt s; canceled := canceled s;
     n_past := n_past s; n_remain := n_remain s; n_consumed := n_consumed s;
     grammar := grammar s; parsed_grammar := parsed_grammar s;
     ghost_evals := ghost_evals s;
     ghost_live_grammars := ghost_live_grammars s |}.

Definition set_last_n_tokens (v : list llama_token) (s : Llama) : Llama :=
  {| params := params s; ctx := ctx s; inp_pfx := inp_pfx s; inp_sfx := inp_sfx s;
     inp_stop := inp_stop s; prompt_tokens := prompt_tokens s;
     batch_tokens := batch_tokens s; last_n_tokens := v;
     is_antiprompt := is_antiprompt s; canceled := canceled s;
     n_past := n_past s; n_remain := n_remain s; n_consumed := n_consumed s;
     grammar := grammar s; parsed_grammar := parsed_grammar s;
     ghost_evals := ghost_evals s;
     ghost_live_grammars := ghost_live_grammars s |}.

Definition set_is_antiprompt (v : bool) (s : Llama) : Llama :=
  {| params := params s; ctx := ctx s; inp_pfx := inp_pfx s; inp_sfx := inp_sfx s;
     inp_stop := inp_stop s; prompt_tokens := prompt_tokens s;
     batch_tokens := batch_tokens s; last_n_tokens := last_n_tokens s;
     is_antiprompt := v; canceled := canceled s;
     n_past := n_past s; n_remain := n_remain s; n_consumed := n_consumed s;
     grammar := grammar s; parsed_grammar := parsed_grammar s;
     ghost_evals := ghost_evals s;
     ghost_live_grammars := ghost_live_grammars s |}.

Definition set_canceled (v : bool) (s : Llama) : Llama :=
  {| params := params s; ctx := ctx s; inp_pfx := inp_pfx s; inp_sfx := inp_sfx s;
     inp_stop := inp_stop s; prompt_tokens := prompt_tokens s;
     batch_tokens := batch_tokens s; last_n_tokens := last_n_tokens s;
     is_antiprompt := is_antiprompt s; canceled := v;
     n_past := n_past s; n_remain := n_remain s; n_consumed := n_consumed s;
     grammar := grammar s; parsed_grammar := parsed_grammar s;
     ghost_evals := ghost_evals s;
     ghost_live_grammars := ghost_live_grammars s |}.

Definition set_n_past (v : Z) (s : Llama) : Llama :=
  {| params := params s; ctx := ctx s; inp_pfx := inp_pfx s; inp_sfx := inp_sfx s;
     inp_stop := inp_stop s; prompt_tokens := prompt_tokens s;
     batch_tokens := batch_tokens s; last_n_tokens := last_n_tokens s;
     is_antiprompt := is_antiprompt s; canceled := canceled s;
     n_past := v; n_remain := n_remain s; n_consumed := n_consumed s;
     grammar := grammar s; parsed_grammar := parsed_grammar s;
     ghost_evals := ghost_evals s;
     ghost_live_grammars := ghost_live_grammars s |}.

Definition set_n_remain (v : Z) (s : Llama) : Llama :=
  {| params := params s; ctx := ctx s; inp_pfx := inp_pfx s; inp_sfx := inp_sfx s;
     inp_stop := inp_stop s; prompt_tokens := prompt_tokens s;
     batch_tokens := batch_tokens s; last_n_tokens := last_n_tokens s;
     is_antiprompt := is_antiprompt s; canceled := canceled s;
     n_past := n_past s; n_remain := v; n_consumed := n_consumed s;
     grammar := grammar s; parsed_grammar := parsed_grammar s;
     ghost_evals := ghost_evals s;
     ghost_live_grammars := ghost_live_grammars s |}.

Definition set_n_consumed (v : Z) (s : Llama) : Llama :=
  {| params := params s; ctx := ctx s; inp_pfx := inp_pfx s; inp_sfx := inp_sfx s;
     inp_stop := inp_stop s; prompt_tokens := prompt_tokens s;
     batch_tokens := batch_tokens s; last_n_tokens := last_n_tokens s;
     is_antiprompt := is_antiprompt s; canceled := canceled s;
     n_past := n_past s; n_remain := n_remain s; n_consumed := v;
     grammar := grammar s; parsed_grammar := parsed_grammar s;
     ghost_evals := ghost_evals s;
     ghost_live_grammars := ghost_live_grammars s |}.

Definition set_grammar (v : option (llama_grammar B)) (s : Llama) : Llama :=
  {| params := params s; ctx := ctx s; inp_pfx := inp_pfx s; inp_sfx := inp_sfx s;
     inp_stop := inp_stop s; prompt_tokens := prompt_tokens s;
     batch_tokens := batch_tokens s; last_n_tokens := last_n_tokens s;
     is_antiprompt := is_antiprompt s; canceled := canceled s;
     n_past := n_past s; n_remain := n_remain s; n_consumed := n_consumed s;
     grammar := v; parsed_grammar := parsed_grammar s;
     ghost_evals := ghost_evals s;
     ghost_live_grammars := ghost_live_grammars s |}.

Definition set_parsed_grammar (v : option (parse_state B)) (s : Llama) : Llama :=
  {| params := params s; ctx := ctx s; inp_pfx := inp_pfx s; inp_sfx := inp_sfx s;
     inp_stop := inp_stop s; prompt_tokens := prompt_tokens s;
     batch_tokens := batch_tokens s; last_n_tokens := last_n_tokens s;
     is_antiprompt := is_antiprompt s; canceled := canceled s;
     n_past := n_past s; n_remain := n_remain s; n_consumed := n_consumed s;
     grammar := grammar s; parsed_grammar := v;
     ghost_evals := ghost_evals s;
     ghost_live_grammars := ghost_live_grammars s |}.

Definition set_ghost_live_grammars (v : nat) (s : Llama) : Llama :=
  {| params := params s; ctx := ctx s; inp_pfx := inp_pfx s; inp_sfx := inp_sfx s;
     inp_stop := inp_stop s; prompt_tokens := prompt_tokens s;
     batch_tokens := batch_tokens s; last_n_tokens := last_n_tokens s;
     is_antiprompt := is_antiprompt s; canceled := canceled s;
     n_past := n_past s; n_remain := n_remain s; n_consumed := n_consumed s;
     grammar := grammar s; parsed_grammar := parsed_grammar s;
     ghost_evals := ghost_evals s;
     ghost_live_grammars := v |}.

Definition set_ghost_evals (v : list (list llama_token * Z)) (s : Llama) : Llama :=
  {| params := params s; ctx := ctx s; inp_pfx := inp_pfx s; inp_sfx := inp_sfx s;
     inp_stop := inp_stop s; prompt_tokens := prompt_tokens s;
     batch_tokens := batch_tokens s; last_n_tokens := last_n_tokens s;
     is_antiprompt := is_antiprompt s; canceled := canceled s;
     n_past := n_past s; n_remain := n_remain s; n_consumed := n_consumed s;
     grammar := grammar s; parsed_grammar := parsed_grammar s;
     ghost_evals := v;
     ghost_live_grammars := ghost_live_grammars s |}.

(** Modelled from the spec: [get_n_ctx()] is declared in the header, which
    is not among the sources.  It is the context capacity, the number of
    tokens the backend can hold in its evaluation window, fixed when the
    session is configured. *)
Definition get_n_ctx (s : Llama) : Z := n_ctx (params s).

(** Modelled from the spec: [is_embedding()] is declared in the header too.
    It tells whether the session was configured for embedding mode. *)
Definition is_embedding (s : Llama) : bool := embedding (params s).

Definition tokenize (text : string) (add_bos : bool) : list llama_token :=
  llama_tokenize B text add_bos.

Definition detokenize (tokens : list llama_token) : string :=
  llama_detokenize_bpe B tokens.


(** ** Construction, reset, cancel *)

(** [Llama::Llama] (lines 32-78).  [c0] is the context that
    [llama_init_from_gpt_params] returns.  The constructor does not assign
    [grammar]; it is null here, as it is after every call.  The member
    [parsed_grammar] is default-constructed. *)
Definition Llama_new (p : gpt_params) (c0 : llama_context B) : result Llama :=
  let pfx := tokenize (input_prefix p) true in
  let sfx := tokenize (input_suffix p) false in
  phrase <- vector_at0 (antiprompt p) ;;
  let stop := tokenize phrase false in
  (* prompt_tokens is still empty when n_keep is defaulted *)
  let p := if n_keep p =? -1 then set_n_keep 0 p else p in
  w <- zero_window (n_ctx p) ;;
  let '(c1, _) := llama_eval B c0 [llama_token_bos B] 0 in
  Ok {| params := p; ctx := c1; inp_pfx := pfx; inp_sfx := sfx; inp_stop := stop;
        prompt_tokens := []; batch_tokens := []; last_n_tokens := w;
        is_antiprompt := false; canceled := false;
        n_past := 0; n_remain := n_predict p; n_consumed := 0;
        grammar := None; parsed_grammar := None;
        ghost_evals := [([llama_token_bos B], 0)];
        ghost_live_grammars := O |}.

(** [Llama::reset] (lines 95-107) *)
Definition reset (s : Llama) : result Llama :=
  w <- zero_window (get_n_ctx s) ;;
  Ok (set_batch_tokens []
     (set_prompt_tokens []
     (set_n_consumed 0
     (set_n_remain (n_predict (params s))
     (set_n_past 0
     (set_canceled false
     (set_is_antiprompt false
     (set_last_n_tokens w s)))))))).

(** [Llama::cancel] (line 109) *)
Definition cancel (s : Llama) : Llama := set_canceled true s.

(** ** [Llama::eval] (lines 321-378) *)

(** Lines 323-330: move prompt tokens into the batch and the window. *)
Fixpoint drain (fuel : nat) (s : Llama) : result Llama :=
  if (size (prompt_tokens s) >? n_consumed s)
     && (size (batch_tokens s) <? n_batch (params s))
  then
    match fuel with
    | O => Fault Timeout
    | S fuel' =>
        t <- vector_index (prompt_tokens s) (n_consumed s) ;;
        w <- window_push (last_n_tokens s) t ;;
        drain fuel'
          (set_n_consumed (n_consumed s + 1)
          (set_last_n_tokens w
          (set_batch_tokens (batch_tokens s ++ [t]) s)))
    end
  else Ok s.

(** Lines 340-352: context swapping. *)
Definition context_swap (s : Llama) : result Llama :=
  if n_past s + size (batch_tokens s) >? get_n_ctx s then
    let n_left := n_past s - n_keep (params s) in
    let s := set_n_past (n_keep (params s)) s in
    reprimed <- vector_range (last_n_tokens s)
                  (get_n_ctx s - Z.quot n_left 2 - size (batch_tokens s))
                  (size (last_n_tokens s) - size (batch_tokens s)) ;;
    Ok (set_batch_tokens (reprimed ++ batch_tokens s) s)
  else Ok s.

(** Lines 357-374: [rest] is [batch_tokens] from index [i] on.  With a
    negative [n_batch] the count [n_eval] is [n_batch] and [i += n_batch]
    ends the loop after one call; with [n_batch = 0] the loop never
    advances. *)
Fixpoint evaluate_batches (fuel : nat) (rest : list llama_token) (s : Llama)
  : result Llama :=
  match rest with
  | [] => Ok s
  | _ :: _ =>
      match fuel with
      | O => Fault Timeout
      | S fuel' =>
          if n_batch (params s) =? 0 then Fault BadBatchSize
          else
            let n_eval := Z.min (size rest) (n_batch (params s)) in
            let chunk := firstn (Z.to_nat n_eval) rest in
            let '(c, _) := llama_eval B (ctx s) chunk (n_past s) in
            let s := set_n_past (n_past s + n_eval)
                       (set_ghost_evals (ghost_evals s ++ [(chunk, n_past s)])
                       (set_ctx c s)) in
            (* i += n_batch: a negative capacity wraps i past the end *)
            if n_batch (params s) <? 0 then Ok s
            else evaluate_batches fuel' (skipn (Z.to_nat n_eval) rest) s
      end
  end.

Definition eval (s : Llama) : result Llama :=
  s <- drain (List.length (prompt_tokens s)) s ;;
  if 0 <? size (batch_tokens s) then
    s <- context_swap s ;;
    s <- evaluate_batches (List.length (batch_tokens s)) (batch_tokens s) s ;;
    Ok (set_batch_tokens [] s)
  else Ok s.

(** ** [Llama::sample] (lines 380-411) *)

Definition sample (s : Llama) : Llama * completion_output :=
  let '(c, id, candidates) :=
    llama_sample_token B (ctx s) (grammar s) (last_n_tokens s) in
  (* std::min(candidates.size(), (size_t)params.n_probs) *)
  let n := if n_probs (params s) <? 0 then List.length candidates
           else Z.to_nat (n_probs (params s)) in
  (set_ctx c s, {| token := id; probs := firstn n candidates |}).

(** ** [Llama::load_grammar] (lines 413-437) *)

Definition load_grammar (s : Llama) (grammar_text : string)
  : result (Llama * option (llama_grammar B)) :=
  if negb (str_size grammar_text =? 0) then
    let parsed := grammar_parse B grammar_text in
    let s := set_parsed_grammar (Some parsed) s in
    if rules_empty B parsed then Ok (s, None)
    else if has_root B parsed then
      Ok (set_ghost_live_grammars (S (ghost_live_grammars s)) s,
          Some (llama_grammar_init B parsed))
    else Fault OutOfRange
  else Ok (s, None).

(** ** [Llama::generate_embeddings] (lines 111-146) *)

Fixpoint embed_batches (fuel : nat) (rest : list llama_token) (n_past' : Z)
    (s : Llama) : result Llama :=
  match rest with
  | [] => Ok s
  | _ :: _ =>
      match fuel with
      | O => Fault Timeout
      | S fuel' =>
          if n_batch (params s) =? 0 then Fault BadBatchSize
          else
            let n_eval := Z.min (size rest) (n_batch (params s)) in
            let chunk := firstn (Z.to_nat n_eval) rest in
            let '(c, _) := llama_eval B (ctx s) chunk n_past' in
            let s := set_ghost_evals (ghost_evals s ++ [(chunk, n_past')])
                       (set_ctx c s) in
            if n_batch (params s) <? 0 then Ok s
            else embed_batches fuel' (skipn (Z.to_nat n_eval) rest)
                   (n_past' + n_eval) s
      end
  end.

Definition generate_embeddings (s : Llama) (input_prompt : string)
  : result (list (llama_float B) * Llama) :=
  if negb (is_embedding s) then Ok ([], s)
  else
    let tokens := tokenize input_prompt true in
    s <- embed_batches (List.length tokens) tokens 0 s ;;
    Ok (llama_get_embeddings B (ctx s), s).

(** ** [Llama::generate_response] (lines 148-319) *)

(** The local variables of the call.  [ghost_callback] lists what was handed
    to the streaming callback. *)
Record locals : Type := {
  input_noecho : bool;
  stopping : bool;
  response : list completion_output;
  completion_result_list : list completion_output;
  ghost_callback : list completion_output
}.

Definition new_locals : locals :=
  {| input_noecho := true; stopping := false; response := [];
     completion_result_list := []; ghost_callback := [] |}.

(** Which way the generation loop was left. *)
Inductive exit_reason : Type :=
| LoopConditionFalse   (* line 225: n_remain == 0 *)
| AntipromptFound      (* line 243 *)
| EndOfSequence        (* line 262 *)
| Canceled             (* line 267 *)
| StopSequence         (* line 284 *)
| BudgetExhausted.     (* line 307 *)

Inductive control : Type :=
| Continue
| Break (why : exit_reason).

(** Lines 167-171: the tokenized input; the beginning-of-sequence token is
    asked for on an empty prompt history without framing. *)
Definition line_inp (s : Llama) (prompt : string) (add_pfx_sfx : bool)
  : list llama_token :=
  if (size (prompt_tokens s) =? 0) && negb add_pfx_sfx
  then tokenize prompt true
  else tokenize prompt false.

(** Lines 184-198: frame the input, append it, charge the budget.
    ([prompt_size] of lines 173-181 is only printed.) *)
Definition insert_prompt (s : Llama) (prompt : string) (add_pfx_sfx : bool)
  : Llama :=
  let line := line_inp s prompt add_pfx_sfx in
  (* insert prefix *)
  let s :=
    if add_pfx_sfx && negb (str_size (input_prefix (params s)) =? 0)
       && negb (is_antiprompt s)
    then set_prompt_tokens (prompt_tokens s ++ inp_pfx s) s
    else s in
  let s := set_prompt_tokens (prompt_tokens s ++ line) s in
  (* insert suffix *)
  let s :=
    if add_pfx_sfx && negb (str_size (input_suffix (params s)) =? 0)
    then set_prompt_tokens (prompt_tokens s ++ inp_sfx s) s
    else s in
  set_n_remain (int_wrap (n_remain s - size line)) s.

(** Lines 167-211: the above, then load the grammar. *)
Definition prime (s : Llama) (prompt : string) (add_pfx_sfx : bool)
  : result Llama :=
  let s := insert_prompt s prompt add_pfx_sfx in
  ' (s, g) <- load_grammar s (params_grammar (params s)) ;;
  Ok (set_grammar g s).

(** Lines 276-281: the buffered outputs against the stop tokens, both read
    with [at(i)]. *)
Fixpoint stop_match (buffered : list completion_output)
    (stop : list llama_token) : result bool :=
  match buffered with
  | [] => Ok true
  | c :: buffered' =>
      match stop with
      | [] => Fault OutOfRange
      | t :: stop' =>
          if negb (token c =? t) then Ok false
          else stop_match buffered' stop'
      end
  end.

(** Lines 229-259: once the prompt is consumed, look for the stop phrase at
    the tail of the window, else sample one token.  The decrement of line
    258 is written in the integers: it is the decrement of the [int] as
    long as [n_remain] is above [INT_MIN], and the properties that follow
    the value of the counter state that range. *)
Definition sampling_branch (s : Llama) (l : locals)
  : result (control * Llama * locals) :=
  if size (prompt_tokens s) <=? n_consumed s then
    let last_output := detokenize (last_n_tokens s) in
    let s := set_is_antiprompt false s in
    phrase <- vector_at0 (antiprompt (params s)) ;;
    if antiprompt_found last_output phrase then
      Ok (Break AntipromptFound, set_is_antiprompt true s, l)
    else
      let '(s, completion_result) := sample s in
      let l := {| input_noecho := false; stopping := stopping l;
                  response := response l;
                  completion_result_list :=
                    completion_result_list l ++ [completion_result];
                  ghost_callback := ghost_callback l |} in
      let s := set_batch_tokens
                 (batch_tokens s ++ [token completion_result]) s in
      w <- window_push (last_n_tokens s) (token completion_result) ;;
      let s := set_last_n_tokens w s in
      Ok (Continue, set_n_remain (n_remain s - 1) s, l)
  else Ok (Continue, s, l).

(** Lines 270-289: the new value of [stopping], and whether line 284 breaks. *)
Definition stop_check (s : Llama) (l : locals) : result (bool * bool) :=
  if size (completion_result_list l) <=? size (inp_stop s) then
    phrase <- vector_at0 (antiprompt (params s)) ;;
    if 0 <? str_size phrase then
      m <- stop_match (completion_result_list l) (inp_stop s) ;;
      Ok (m, m && (size (completion_result_list l) =? size (inp_stop s)))
    else Ok (false, false)
  else Ok (false, false).

Definition set_stopping (v : bool) (l : locals) : locals :=
  {| input_noecho := input_noecho l; stopping := v; response := response l;
     completion_result_list := completion_result_list l;
     ghost_callback := ghost_callback l |}.

(** Lines 291-302: send text. *)
Definition send_text (callback : bool) (l : locals) : locals :=
  if negb (input_noecho l) then
    if negb (stopping l) then
      {| input_noecho := input_noecho l; stopping := stopping l;
         response := response l ++ completion_result_list l;
         completion_result_list := [];
         ghost_callback :=
           if callback then ghost_callback l ++ completion_result_list l
           else ghost_callback l |}
    else l
  else l.

(** Lines 229-308: what an iteration does once [eval()] has returned. *)
Definition after_eval (callback : bool) (s : Llama) (l : locals)
  : result (control * Llama * locals) :=
  ' (c, s, l) <- sampling_branch s l ;;
  match c with
  | Break why => Ok (Break why, s, l)
  | Continue =>
      last <- vector_back (batch_tokens s) ;;
      if last =? llama_token_eos B then Ok (Break EndOfSequence, s, l)
      else if canceled s then Ok (Break Canceled, s, l)
      else
        ' (stop, brk) <- stop_check s l ;;
        let l := set_stopping stop l in
        if brk then Ok (Break StopSequence, s, l)
        else
          let l := send_text callback l in
          (* respect the maximum number of tokens *)
          if (n_remain s <=? 0) && negb (n_predict (params s) =? -1)
          then Ok (Break BudgetExhausted,
                   set_n_remain (n_predict (params s)) s, l)
          else Ok (Continue, s, l)
  end.

(** One iteration of the loop of lines 225-309. *)
Definition loop_body (callback : bool) (s : Llama) (l : locals)
  : result (control * Llama * locals) :=
  s <- eval s ;;
  after_eval callback s l.

(** The loop; [None] when the fuel ran out before the loop was left. *)
Fixpoint generation_loop (fuel : nat) (callback : bool) (s : Llama)
    (l : locals) : result (option exit_reason * Llama * locals) :=
  if n_remain s =? 0 then Ok (Some LoopConditionFalse, s, l)
  else
    match fuel with
    | O => Ok (None, s, l)
    | S fuel' =>
        ' (c, s, l) <- loop_body callback s l ;;
        match c with
        | Break why => Ok (Some why, s, l)
        | Continue => generation_loop fuel' callback s l
        end
    end.

(** Lines 313-316 *)
Definition release_grammar (s : Llama) : Llama :=
  match grammar s with
  | Some _ =>
      set_grammar None
        (set_ghost_live_grammars (Nat.pred (ghost_live_grammars s)) s)
  | None => s
  end.

(** The call up to and including the loop, for a non-empty input. *)
Definition generate_response_run (fuel : nat) (s : Llama)
    (input_prompt : string) (add_pfx_sfx callback : bool)
  : result (option exit_reason * Llama * locals) :=
  s <- prime (set_canceled false s) input_prompt add_pfx_sfx ;;
  generation_loop fuel callback s new_locals.

(** [callback] tells whether the callback pointer is non-null. *)
Definition generate_response (fuel : nat) (s : Llama) (input_prompt : string)
    (add_pfx_sfx callback : bool) : result (list completion_output * Llama) :=
  if str_size input_prompt <=? 0 then Ok ([], set_canceled false s)
  else
    ' (e, s, l) <- generate_response_run fuel s input_prompt add_pfx_sfx
                     callback ;;
    match e with
    | None => Fault Timeout
    | Some _ => Ok (response l, release_grammar s)
    end.

(** ** [cancel()] while a call runs

    [cancel()] (line 109) is for somebody else to call while
    [generate_response] runs, another thread or the callback: the call
    clears the flag when it starts (line 152) and reads it at line 265 only,
    once in every iteration that samples.  The reads and writes of the flag
    are taken as they come, one after the other.  A [cancel()] that arrives
    after one reading of the flag and before the next is seen at the next:
    [interrupt] tells, for the iterations of the loop one after the other,
    whether [cancel()] arrived before line 265 of that iteration.  Its
    length is the fuel. *)
Fixpoint generation_loop_interrupted (interrupt : list bool) (callback : bool)
    (s : Llama) (l : locals) : result (option exit_reason * Llama * locals) :=
  if n_remain s =? 0 then Ok (Some LoopConditionFalse, s, l)
  else
    match interrupt with
    | [] => Ok (None, s, l)
    | arrived :: interrupt' =>
        ' (c, s, l) <- loop_body callback (if arrived then cancel s else s) l ;;
        match c with
        | Break why => Ok (Some why, s, l)
        | Continue => generation_loop_interrupted interrupt' callback s l
        end
    end.

Definition generate_response_run_interrupted (interrupt : list bool)
    (s : Llama) (input_prompt : string) (add_pfx_sfx callback : bool)
  : result (option exit_reason * Llama * locals) :=
  s <- prime (set_canceled false s) input_prompt add_pfx_sfx ;;
  generation_loop_interrupted interrupt callback s new_locals.

Definition generate_response_interrupted (interrupt : list bool) (s : Llama)
    (input_prompt : string) (add_pfx_sfx callback : bool)
  : result (list completion_output * Llama) :=
  if str_size input_prompt <=? 0 then Ok ([], set_canceled false s)
  else
    ' (e, s, l) <- generate_response_run_interrupted interrupt s input_prompt
                     add_pfx_sfx callback ;;
    match e with
    | None => Fault Timeout
    | Some _ => Ok (response l, release_grammar s)
    end.

End Session.

(** ** A scripted backend

    The sampler replays a given sequence of tokens (the context is what is
    left of it) and reports end of sequence once it is used up; evaluation
    always succeeds.  Text and tokens are converted by the functions given. *)

Definition scripted (tok : string -> bool -> list llama_token)
    (detok : list llama_token -> string) (bos eos : llama_token) : Backend :=
  {| llama_context := list llama_token;
     llama_prob := unit;
     llama_float := Z;
     llama_grammar := string;
     parse_state := string;
     llama_tokenize := tok;
     llama_detokenize_bpe := detok;
     llama_token_bos := bos;
     llama_token_eos := eos;
     llama_eval := fun c _ _ => (c, false);
     llama_sample_token := fun c _ _ =>
       match c with
       | [] => ([], eos, [])
       | t :: c' => (c', t, [(t, tt)])
       end;
     llama_get_embeddings := fun _ => [];
     grammar_parse := fun text => text;
     rules_empty := fun text => (String.length text <=? 1)%nat;
     has_root := fun _ => true;
     llama_grammar_init := fun text => text |}.

Arguments scripted : simpl never.

(** A byte-level vocabulary: a character is the token of its code. *)
Fixpoint byte_tokens (text : string) : list llama_token :=
  match text with
  | EmptyString => []
  | String a text' => Z.of_nat (nat_of_ascii a) :: byte_tokens text'
  end.

Definition byte_tokenize (text : string) (add_bos : bool) : list llama_token :=
  if add_bos then 1 :: byte_tokens text else byte_tokens text.

Fixpoint byte_detokenize (tokens : list llama_token) : string :=
  match tokens with
  | [] => EmptyString
  | t :: tokens' => String (ascii_of_nat (Z.to_nat t)) (byte_detokenize tokens')
  end.

(** Bytes as the backend of the examples: bos is 1, eos is 2. *)
Definition byte_backend : Backend := scripted byte_tokenize byte_detokenize 1 2.

Definition demo_params (batch predict : Z) (pfx sfx gram stop : string)
  : gpt_params :=
  {| n_ctx := 16; n_batch := batch; n_predict := predict; n_keep := 0;
     n_probs := 0; input_prefix := pfx; input_suffix := sfx;
     antiprompt := [stop]; params_grammar := gram; embedding := false |}.

(** The stop phrase whose tokens are [5; 9]. *)
Definition stop_5_9 : string :=
  String (ascii_of_nat 5) (String (ascii_of_nat 9) EmptyString).


(** ** Sessions of the examples *)

(** A session of the byte backend as the constructor leaves it, with the
    script [script] for the sampler to replay. *)
Definition demo_session (p : gpt_params) (script : list llama_token)
    (window : list llama_token) : @Llama byte_backend :=
  {| params := p; ctx := (script : @llama_context byte_backend);
     inp_pfx := byte_tokenize (input_prefix p) true;
     inp_sfx := byte_tokenize (input_suffix p) false;
     inp_stop := byte_tokenize (hd EmptyString (antiprompt p)) false;
     prompt_tokens := []; batch_tokens := []; last_n_tokens := window;
     is_antiprompt := false; canceled := false;
     n_past := 0; n_remain := n_predict p; n_consumed := 0;
     grammar := None; parsed_grammar := None;
     ghost_evals := [([1], 0)];
     ghost_live_grammars := O |}.

(** Stop phrase with the tokens [5; 9], context of 16 tokens, no framing and
    no grammar. *)
Definition fresh (batch predict : Z) (script : list llama_token)
  : @Llama byte_backend :=
  demo_session (demo_params batch predict "" "" "" stop_5_9) script
    (repeat 0 16%nat).

(** The same with the framing ["<"] ... [">"] configured. *)
Definition framed (batch predict : Z) (script : list llama_token)
  : @Llama byte_backend :=
  demo_session (demo_params batch predict "<" ">" "" stop_5_9) script
    (repeat 0 16%nat).

(** The same with a grammar that parses to a non-empty rule set. *)
Definition with_grammar (batch predict : Z) (script : list llama_token)
  : @Llama byte_backend :=
  demo_session (demo_params batch predict "" "" "root ::= [0-9]+" stop_5_9)
    script (repeat 0 16%nat).

(** A session that keeps the first three tokens of the context on a swap:
    stop phrase with the tokens [5; 9], no framing and no grammar. *)
Definition keeping (script : list llama_token) : @Llama byte_backend :=
  demo_session
    {| n_ctx := 16; n_batch := 8; n_predict := -1; n_keep := 3;
       n_probs := 0; input_prefix := ""; input_suffix := "";
       antiprompt := [stop_5_9]; params_grammar := ""; embedding := false |}
    script (repeat 0 16%nat).

(** The tokens of a sequence of outputs. *)
Definition tokens_of {B : Backend} (r : list (@completion_output B))
  : list llama_token := map token r.

(** The tokens a call returns, or the fault it ends in. *)
Definition returned_tokens {B : Backend}
    (r : result (list (@completion_output B) * @Llama B))
  : result (list llama_token) :=
  ' (out, _) <- r ;; Ok (tokens_of out).

(** The value of a computation, or a place-holder when it faults. *)
Definition result_of {A : Type} (placeholder : A) (r : result A) : A :=
  match r with
  | Ok a => a
  | Fault _ => placeholder
  end.

(** The session as the generation loop is entered. *)
Definition entering (s : @Llama byte_backend) (prompt : string) (add : bool)
  : @Llama byte_backend :=
  result_of s (prime (set_canceled false s) prompt add).

(** * The vocabulary of the properties *)

Section Vocabulary.

Context {B : Backend}.
Implicit Types s : @Llama B.
Implicit Types l : @locals B.

(** What no step of the generation loop changes. *)
Definition loop_frame s s' : Prop :=
  params s' = params s /\
  inp_pfx s' = inp_pfx s /\
  inp_sfx s' = inp_sfx s /\
  inp_stop s' = inp_stop s /\
  prompt_tokens s' = prompt_tokens s /\
  canceled s' = canceled s /\
  grammar s' = grammar s /\
  ghost_live_grammars s' = ghost_live_grammars s /\
  List.length (last_n_tokens s') = List.length (last_n_tokens s).

(** The outputs sampled so far in the call: delivered or still buffered. *)
Definition produced l : Z :=
  size (response l) + size (completion_result_list l).

(** How many more outputs a finite budget lets the loop sample: none when
    the counter is zero, else at least the one of the iteration under way. *)
Definition allowance (remaining : Z) : Z :=
  if remaining =? 0 then 0 else Z.max 1 remaining.

(** The prefix goes in on a framed call outside an antiprompt turn. *)
Definition prefix_inserted s (add_pfx_sfx : bool) : bool :=
  add_pfx_sfx && negb (str_size (input_prefix (params s)) =? 0)
  && negb (is_antiprompt s).

(** The suffix goes in on every framed call. *)
Definition suffix_inserted s (add_pfx_sfx : bool) : bool :=
  add_pfx_sfx && negb (str_size (input_suffix (params s)) =? 0).

(** The framing as C9 states it: both sides or none. *)
Definition framing_by_the_spec s (prompt : string)
    (add_pfx_sfx : bool) : list llama_token :=
  if add_pfx_sfx
     && negb (str_size (input_prefix (params s)) =? 0)
     && negb (str_size (input_suffix (params s)) =? 0)
     && negb (is_antiprompt s)
  then prompt_tokens s ++ inp_pfx s ++ line_inp s prompt add_pfx_sfx ++ inp_sfx s
  else prompt_tokens s ++ line_inp s prompt add_pfx_sfx.

(** The operations of a session: the public member functions, and the two
    places that push a token on the window, [eval] and the sampling branch
    of the generation loop. *)
Inductive operation : Type :=
| OpEval
| OpSample
| OpGenerate (fuel : nat) (input_prompt : string) (add_pfx_sfx callback : bool)
| OpEmbeddings (input_prompt : string)
| OpReset
| OpCancel.

(** One operation on a session; a public call forgets what it returns. *)
Definition perform (o : operation) s : result (@Llama B) :=
  match o with
  | OpEval => eval s
  | OpSample => ' (_, s', _) <- sampling_branch s new_locals ;; Ok s'
  | OpGenerate fuel input_prompt add_pfx_sfx callback =>
      ' (_, s') <- generate_response fuel s input_prompt add_pfx_sfx callback ;;
      Ok s'
  | OpEmbeddings input_prompt =>
      ' (_, s') <- generate_embeddings s input_prompt ;; Ok s'
  | OpReset => reset s
  | OpCancel => Ok (cancel s)
  end.

(** A sequence of operations, from left to right. *)
Fixpoint perform_all (ops : list operation) s : result (@Llama B) :=
  match ops with
  | [] => Ok s
  | o :: ops' => s' <- perform o s ;; perform_all ops' s'
  end.

(** The window is as long as the context, and the capacity is [c]. *)
Definition window_full (c : Z) s : Prop :=
  size (last_n_tokens s) = c /\ get_n_ctx s = c.

(** The tokens the context swap puts before the pending batch: the
    [n_left / 2] tokens of the window that end where its last
    [batch_tokens.size()] tokens begin. *)
Definition reprimed_tokens s : list llama_token :=
  let q := Z.quot (n_past s - n_keep (params s)) 2 in
  firstn (Z.to_nat q)
    (skipn (Z.to_nat (get_n_ctx s - q - size (batch_tokens s)))
       (last_n_tokens s)).

(** The prompt tokens not yet moved into the batch. *)
Definition pending_prompt s : list llama_token :=
  skipn (Z.to_nat (n_consumed s)) (prompt_tokens s).

(** The window after the tokens [ts] were pushed on it. *)
Definition slide (w ts : list llama_token) : list llama_token :=
  skipn (List.length ts) (w ++ ts).

(** The window as the next [eval] leaves it. *)
Definition window_after_eval s : list llama_token :=
  slide (last_n_tokens s) (pending_prompt s).

(** A session on which [eval] is defined and consumes the whole prompt: a
    positive batch capacity that takes what is pending, a full window, a
    keep-count below the capacity and not above the position, and room in
    the context for the pending tokens once it has been swapped. *)
Definition steady s : Prop :=
  let waiting := size (batch_tokens s)
                 + (size (prompt_tokens s) - n_consumed s) in
  1 <= n_batch (params s) /\
  size (last_n_tokens s) = get_n_ctx s /\
  0 <= n_keep (params s) < get_n_ctx s /\
  n_keep (params s) <= n_past s <= get_n_ctx s /\
  0 <= n_consumed s <= size (prompt_tokens s) /\
  waiting <= n_batch (params s) /\
  n_keep (params s) + Z.quot (n_past s - n_keep (params s)) 2 + waiting
    <= get_n_ctx s.

(** A backend whose evaluation leaves the context value as it was. *)
Definition eval_keeps_context : Prop :=
  forall c t n, fst (llama_eval B c t n) = c.

(** The locals once [out] was sampled. *)
Definition sampled l (out : @completion_output B) : @locals B :=
  {| input_noecho := false; stopping := stopping l; response := response l;
     completion_result_list := completion_result_list l ++ [out];
     ghost_callback := ghost_callback l |}.

(** The budget check of lines 305-308, after one more token. *)
Definition budget_stops s : bool :=
  (n_remain s - 1 <=? 0) && negb (n_predict (params s) =? -1).

(** Room in the budget for [n] more tokens: that many are left, or the
    budget is unbounded and its counter, below zero, can be decremented
    that many times within the range of an [int]. *)
Definition budget_for (n : Z) s : Prop :=
  n <= n_remain s \/
  (- 2 ^ 31 + n <= n_remain s < 0 /\ n_predict (params s) = -1).

End Vocabulary.

Arguments eval_keeps_context B : clear implicits.

(** The matcher of lines 270-302 run over the sampled tokens [ts], none of
    them held back yet by anything but the matcher: [todo] is what is left
    to match of the stop tokens [stop], the tokens matched so far being
    buffered.  A token that continues the match is buffered; any other
    token flushes the buffer and itself, and the next token starts again
    from the whole sequence.  The result is what is left to match after
    [ts], or [None] when the sequence was completed on the way. *)
Fixpoint stop_matcher (stop todo ts : list llama_token)
  : option (list llama_token) :=
  match ts with
  | [] => Some todo
  | t :: ts' =>
      match todo with
      | [] => None
      | h :: todo' =>
          if t =? h then
            match todo' with
            | [] => None
            | _ :: _ => stop_matcher stop todo' ts'
            end
          else stop_matcher stop stop ts'
      end
  end.

Section ScriptedVocabulary.

Variables (tok : string -> bool -> list llama_token)
          (detok : list llama_token -> string)
          (bos eos : llama_token).

(** What [sample] returns for the token [t] of the script. *)
Definition scripted_output (p : gpt_params) (t : llama_token)
  : @completion_output (scripted tok detok bos eos) :=
  @Build_completion_output (scripted tok detok bos eos) t
    (firstn (if n_probs p <? 0 then 1%nat else Z.to_nat (n_probs p))
       [(t, tt)]).

(** The stop phrase is not at the tail of the window before any of the
    tokens [ts] is sampled. *)
Fixpoint quiet_tail (phrase : string) (w ts : list llama_token) : bool :=
  match ts with
  | [] => true
  | t :: ts' =>
      negb (antiprompt_found (detok w) phrase)
      && quiet_tail phrase (slide w [t]) ts'
  end.

End ScriptedVocabulary.

Arguments scripted_output {tok detok bos eos} p t.

(** ** Runs of the examples *)

(** A framed session after a first call that ended on the stop phrase. *)
Definition in_antiprompt_turn : @Llama byte_backend :=
  snd (result_of ([], framed 8 (-1) [])
         (generate_response 100 (framed 8 (-1) [5; 5; 9]) "a" true true)).

(** A call that loads a grammar and stops on the stop sequence. *)
Definition grammar_run :=
  result_of (None, with_grammar 8 (-1) [], new_locals)
    (generate_response_run 100 (with_grammar 8 (-1) [1; 5; 9; 3]) "a" false true).

(** How a call leaves the loop, the grammar handle it holds at that point,
    and the handle it returns with. *)
Definition exit_and_grammar (s : @Llama byte_backend) (prompt : string)
  : option exit_reason * option string * option string :=
  let o := result_of (None, s, new_locals)
             (generate_response_run 100 s prompt false true) in
  (fst (fst o), grammar (snd (fst o)),
   grammar (snd (result_of ([], s) (generate_response 100 s prompt false true)))).

(** A call with a budget of 6, two of them taken by the prompt tokens. *)
Definition budget_run :=
  result_of (None, fresh 8 6 [], new_locals)
    (generate_response_run 100 (fresh 8 6 [5; 7; 3; 4; 4; 4; 4; 4]) "a" false true).

(** A session that generates, evaluates, samples, is canceled, generates,
    is reset, asked for embeddings, and generates again. *)
Definition busy_session : @Llama byte_backend :=
  result_of (fresh 8 (-1) [])
    (perform_all
       [OpGenerate 100 "ab" false true; OpEval; OpSample; OpCancel;
        OpGenerate 100 "c" false true; OpReset; OpEmbeddings "x";
        OpGenerate 100 "d" false false]
       (fresh 8 (-1) [4; 5; 4; 4; 4; 4; 4; 4; 4; 4; 4; 4; 4; 4; 4; 4; 4; 4; 2; 6; 6; 6])).

(** A session whose context is full: fifteen iterations into a call, the
    position is 16 and one sampled token is pending. *)
Definition full_context : @Llama byte_backend :=
  snd (fst (result_of (None, fresh 8 (-1) [], new_locals)
     (generate_response_run 15
        (fresh 8 (-1) [4; 5; 4; 4; 4; 4; 4; 4; 4; 4; 4; 4; 4; 4; 4; 4; 4; 4; 4])
        "a" false true))).

(** A session half-way through its context: a first call with the input
    ["a"] has sampled eight tokens, the position is 10 and the last sampled
    token is pending. *)
Definition half_full : @Llama byte_backend :=
  snd (result_of ([], fresh 16 (-1) [])
         (generate_response 100 (fresh 16 (-1) [4; 4; 4; 4; 4; 4; 4; 4])
            "a" false true)).

(** A session after a call that loaded a grammar, and a [cancel()]. *)
Definition after_grammar_call : @Llama byte_backend :=
  result_of (with_grammar 8 (-1) [])
    (perform_all [OpGenerate 100 "a" false true; OpCancel]
       (with_grammar 8 (-1) [1; 5; 9; 3])).

(** A call that holds a grammar and is canceled while its second iteration
    runs. *)
Definition canceled_run :=
  result_of (None, with_grammar 8 (-1) [], new_locals)
    (generate_response_run_interrupted [false; true; false]
       (with_grammar 8 (-1) [7; 7; 7]) "a" false true).

(** [exit_and_grammar] for a call during which [cancel()] arrives as
    [interrupt] tells. *)
Definition exit_and_grammar_interrupted (interrupt : list bool)
    (s : @Llama byte_backend) (prompt : string)
  : option exit_reason * option string * option string :=
  let o := result_of (None, s, new_locals)
             (generate_response_run_interrupted interrupt s prompt false true)
  in
  (fst (fst o), grammar (snd (fst o)),
   grammar (snd (result_of ([], s)
                   (generate_response_interrupted interrupt s prompt
                      false true)))).

(** The first call on a session that keeps three tokens, with a sampler that
    yields 5, 7 and then the stop sequence. *)
Definition clean_prefix_run :=
  result_of (None, keeping [], new_locals)
    (generate_response_run 100 (keeping [5; 7; 5; 9; 3]) "a" false true).

(** The same with a sampler that yields 5, 7, 3. *)
Definition partial_match_run :=
  result_of (None, keeping [], new_locals)
    (generate_response_run 100 (keeping [5; 7; 3]) "a" false true).

(** ** Vocabulary of the further properties *)

Section CallsAndOutputs.
Context {B : Backend}.
Implicit Types s : @Llama B.

(** The calls [calls] hand the backend consecutive chunks from position
    [start] on: each holds between one and [cap] tokens, every chunk but
    the last holds [cap], and each call is at the position where the chunk
    before it ended. *)
Fixpoint chunked (cap start : Z) (calls : list (list llama_token * Z)) : bool :=
  match calls with
  | [] => true
  | (chunk, pos) :: calls' =>
      (pos =? start) && (1 <=? size chunk) && (size chunk <=? cap)
      && match calls' with [] => true | _ :: _ => size chunk =? cap end
      && chunked cap (start + size chunk) calls'
  end.

(** What is fixed when the session is constructed: the parameters and the
    tokens of the prefix, the suffix and the stop phrase. *)
Definition same_configuration s s' : Prop :=
  params s' = params s /\ inp_pfx s' = inp_pfx s /\
  inp_sfx s' = inp_sfx s /\ inp_stop s' = inp_stop s.

(** The session once the backend, left in context [c], returned [out] and
    the token was pushed on the batch and on the window, which gave [w]
    (lines 247-258). *)
Definition after_sampling s (c : llama_context B)
    (out : @completion_output B) (w : list llama_token) : @Llama B :=
  set_n_remain (n_remain s - 1)
    (set_last_n_tokens w
       (set_batch_tokens (batch_tokens s ++ [token out])
          (set_ctx c (set_is_antiprompt false s)))).

End CallsAndOutputs.

(** A session configured for embeddings, with a batch capacity of [batch]. *)
Definition embedder (batch : Z) : @Llama byte_backend :=
  demo_session
    {| n_ctx := 16; n_batch := batch; n_predict := -1; n_keep := 0;
       n_probs := 0; input_prefix := ""; input_suffix := "";
       antiprompt := [stop_5_9]; params_grammar := ""; embedding := true |}
    [] (repeat 0 16%nat).

(** A call with a budget of 10 that ends on the stop sequence. *)
Definition stopped_run :=
  result_of (None, fresh 8 10 [], new_locals)
    (generate_response_run 100 (fresh 8 10 [1; 5; 9; 3]) "a" false true).


(** A prompt of two tokens entering the loop. *)
Definition short_prompt : @Llama byte_backend :=
  entering (fresh 8 (-1) [5; 7; 3]) "a" false.

(** The loop run on it until it is left. *)
Definition short_prompt_loop :=
  result_of (None, short_prompt, new_locals)
    (generation_loop 100 true short_prompt new_locals).

(** The locals with the first stop token sampled and buffered. *)
Definition first_stop_token_buffered : @locals byte_backend :=
  sampled new_locals
    (@scripted_output byte_tokenize byte_detokenize 1 2
       (demo_params 8 (-1) "" "" "" stop_5_9) 5).

(** A backend whose parsed grammars never hold a rule named root; the rest
    is the backend [B]. *)
Definition without_root (B : Backend) : Backend :=
  {| llama_context := llama_context B;
     llama_prob := llama_prob B;
     llama_float := llama_float B;
     llama_grammar := llama_grammar B;
     parse_state := parse_state B;
     llama_tokenize := llama_tokenize B;
     llama_detokenize_bpe := llama_detokenize_bpe B;
     llama_token_bos := llama_token_bos B;
     llama_token_eos := llama_token_eos B;
     llama_eval := llama_eval B;
     llama_sample_token := llama_sample_token B;
     llama_get_embeddings := llama_get_embeddings B;
     grammar_parse := grammar_parse B;
     rules_empty := rules_empty B;
     has_root := fun _ => false;
     llama_grammar_init := llama_grammar_init B |}.

(** A session of that backend as the constructor leaves it, configured with
    a grammar that parses to a rule set. *)
Definition rootless_session : @Llama (without_root byte_backend) :=
  {| params := demo_params 8 (-1) "" "" "expr ::= [0-9]+" stop_5_9;
     ctx := ([5; 7; 3] : @llama_context (without_root byte_backend));
     inp_pfx := [1]; inp_sfx := []; inp_stop := [5; 9];
     prompt_tokens := []; batch_tokens := [];
     last_n_tokens := repeat 0 16%nat;
     is_antiprompt := false; canceled := false;
     n_past := 0; n_remain := -1; n_consumed := 0;
     grammar := None; parsed_grammar := None;
     ghost_evals := [([1], 0)];
     ghost_live_grammars := O |}.

(** * Properties *)

Lemma bind_Ok {A C : Type} (m : result A) (k : A -> result C) (c : C) :
  bind m k = Ok c -> exists a, m = Ok a /\ k a = Ok c.
Proof.
  destruct m as [a|f]; simpl; intros H; [exists a; auto | discriminate].
Qed.

(** Invert one layer of a computation known to have succeeded. *)
Ltac ok_inv H :=
  lazymatch type of H with
  | bind _ _ = Ok _ =>
      let a := fresh "a" in
      let Ha := fresh "Ha" in
      apply bind_Ok in H; destruct H as (a & Ha & H)
  | Ok _ = Ok _ => inversion H; subst; clear H
  | Fault _ = Ok _ => discriminate H
  | (if ?c then _ else _) = Ok _ =>
      let E := fresh "E" in destruct c eqn:E
  | (let '(_, _) := ?x in _) = Ok _ => destruct x eqn:?
  | (match ?x with _ => _ end) = Ok _ => destruct x eqn:?
  end.

Section Frames.

Context {B : Backend}.
Implicit Types s : @Llama B.
Implicit Types l : @locals B.

Lemma loop_frame_refl s : loop_frame s s.
Proof. unfold loop_frame; intuition. Qed.

Lemma loop_frame_trans s1 s2 s3 :
  loop_frame s1 s2 -> loop_frame s2 s3 -> loop_frame s1 s3.
Proof. unfold loop_frame; intuition congruence. Qed.

Lemma window_push_length w t w' :
  window_push w t = Ok w' -> List.length w' = List.length w.
Proof.
  destruct w as [|x w]; simpl; intros H; ok_inv H.
  rewrite length_app; simpl; lia.
Qed.

Lemma drain_frame fuel : forall s s',
  drain fuel s = Ok s' ->
  loop_frame s s' /\ n_remain s' = n_remain s /\
  is_antiprompt s' = is_antiprompt s /\ n_past s' = n_past s /\
  ctx s' = ctx s /\ ghost_evals s' = ghost_evals s.
Proof.
  induction fuel as [|fuel IH]; intros s s' H; simpl in H.
  - ok_inv H; [discriminate | ok_inv H].
    split; [apply loop_frame_refl | intuition].
  - ok_inv H.
    + ok_inv H. ok_inv H. apply IH in H.
      destruct H as (F & H1 & H2 & H3 & H4 & H5). simpl in *.
      apply window_push_length in Ha0.
      split; [|intuition].
      unfold loop_frame in *; simpl in *. intuition congruence.
    + ok_inv H. split; [apply loop_frame_refl | intuition].
Qed.

Lemma context_swap_frame s s' :
  context_swap s = Ok s' ->
  loop_frame s s' /\ n_remain s' = n_remain s /\
  is_antiprompt s' = is_antiprompt s /\ n_consumed s' = n_consumed s /\
  last_n_tokens s' = last_n_tokens s /\
  ctx s' = ctx s /\ ghost_evals s' = ghost_evals s.
Proof.
  unfold context_swap; intros H. ok_inv H.
  - ok_inv H. ok_inv H. unfold loop_frame; simpl; intuition.
  - ok_inv H. split; [apply loop_frame_refl | intuition].
Qed.

Lemma evaluate_batches_frame fuel : forall rest s s',
  evaluate_batches fuel rest s = Ok s' ->
  loop_frame s s' /\ n_remain s' = n_remain s /\
  is_antiprompt s' = is_antiprompt s /\ n_consumed s' = n_consumed s /\
  last_n_tokens s' = last_n_tokens s /\ batch_tokens s' = batch_tokens s.
Proof.
  induction fuel as [|fuel IH]; intros rest s s' H; simpl in H.
  - destruct rest; ok_inv H.
    split; [apply loop_frame_refl | intuition].
  - destruct rest as [|t rest].
    + ok_inv H. split; [apply loop_frame_refl | intuition].
    + ok_inv H; [discriminate|].
      destruct (llama_eval B (ctx s) _ (n_past s)) as [c failed].
      cbv zeta in H. ok_inv H.
      * ok_inv H. unfold loop_frame; simpl. intuition.
      * apply IH in H. simpl in H.
        unfold loop_frame in *; simpl in *. intuition.
Qed.

Lemma eval_frame s s' :
  eval s = Ok s' ->
  loop_frame s s' /\ n_remain s' = n_remain s /\
  is_antiprompt s' = is_antiprompt s.
Proof.
  unfold eval; intros H. ok_inv H.
  apply drain_frame in Ha. destruct Ha as (F1 & R1 & A1 & _).
  ok_inv H.
  - ok_inv H. ok_inv H. ok_inv H.
    apply context_swap_frame in Ha. destruct Ha as (F2 & R2 & A2 & _).
    apply evaluate_batches_frame in Ha0.
    destruct Ha0 as (F3 & R3 & A3 & _).
    simpl. split; [|split; congruence].
    apply (loop_frame_trans _ _ _ F1).
    apply (loop_frame_trans _ _ _ F2).
    unfold loop_frame in *; simpl; intuition.
  - ok_inv H. intuition.
Qed.

(** [eval] always leaves the batch empty. *)
Lemma eval_clears_batch s s' : eval s = Ok s' -> batch_tokens s' = [].
Proof.
  unfold eval; intros H. ok_inv H. ok_inv H.
  - ok_inv H. ok_inv H. ok_inv H. reflexivity.
  - ok_inv H. unfold size in E. apply Z.ltb_ge in E.
    destruct (batch_tokens s'); [reflexivity | cbn [List.length] in E; lia].
Qed.

Lemma sample_state s : exists c, fst (sample s) = set_ctx c s.
Proof.
  unfold sample.
  destruct (llama_sample_token B (ctx s) (grammar s) (last_n_tokens s))
    as [[c id] candidates].
  exists c; reflexivity.
Qed.

Lemma send_text_produced cb l : produced (send_text cb l) = produced l.
Proof.
  unfold send_text, produced, size.
  destruct (input_noecho l), (stopping l); simpl; try reflexivity.
  rewrite length_app; lia.
Qed.

Lemma send_text_response cb l :
  exists more,
    response (send_text cb l) = response l ++ more /\
    ghost_callback (send_text cb l) =
      ghost_callback l ++ (if cb then more else []).
Proof.
  unfold send_text.
  destruct (input_noecho l), (stopping l); simpl;
    try (exists []; destruct cb; rewrite !app_nil_r; split; reflexivity).
  exists (completion_result_list l); destruct cb;
    rewrite ?app_nil_r; split; reflexivity.
Qed.

(** The sampling branch either stops on the stop phrase, or samples one
    token, or (prompt not yet consumed) does nothing. *)
Lemma sampling_branch_cases s l c s' l' :
  sampling_branch s l = Ok (c, s', l') ->
  loop_frame s s' /\
  ((c = Break AntipromptFound /\ l' = l /\ n_remain s' = n_remain s /\
    batch_tokens s' = batch_tokens s) \/
   (c = Continue /\ exists out,
      l' = {| input_noecho := false; stopping := stopping l;
              response := response l;
              completion_result_list := completion_result_list l ++ [out];
              ghost_callback := ghost_callback l |} /\
      n_remain s' = n_remain s - 1 /\
      batch_tokens s' = batch_tokens s ++ [token out]) \/
   (c = Continue /\ l' = l /\ s' = s /\
    (size (prompt_tokens s) <=? n_consumed s) = false)).
Proof.
  unfold sampling_branch; intros H. ok_inv H.
  - ok_inv H. ok_inv H.
    + ok_inv H. split; [unfold loop_frame; simpl; intuition|].
      left; simpl; intuition.
    + destruct (sample (set_is_antiprompt false s)) as [s1 out] eqn:Es.
      destruct (sample_state (set_is_antiprompt false s)) as [c1 Hc].
      rewrite Es in Hc; simpl in Hc; subst s1.
      ok_inv H. ok_inv H. simpl in Ha0.
      apply window_push_length in Ha0.
      split; [unfold loop_frame; simpl; intuition|].
      right; left. split; [reflexivity|]. exists out; simpl; intuition.
  - ok_inv H. split; [apply loop_frame_refl|]. right; right; intuition.
Qed.

Lemma vector_back_nil {A : Type} : @vector_back A [] = Fault BackOfEmpty.
Proof. reflexivity. Qed.

(** One iteration: what it does to the session frame, the budget and the
    outputs. *)
Lemma loop_body_cases cb s l c s' l' :
  loop_body cb s l = Ok (c, s', l') ->
  loop_frame s s' /\
  (exists more,
     response l' = response l ++ more /\
     ghost_callback l' = ghost_callback l ++ (if cb then more else [])) /\
  n_remain s' <= Z.max (n_remain s) (n_predict (params s)) /\
  ((c = Break AntipromptFound /\ l' = l /\ n_remain s' = n_remain s) \/
   (produced l' = produced l + 1 /\
    (c = Continue ->
       n_remain s' = n_remain s - 1 /\
       (n_predict (params s) <> -1 -> 0 < n_remain s')))).
Proof.
  unfold loop_body, after_eval; intros H. ok_inv H.
  pose proof (eval_clears_batch _ _ Ha) as Hb.
  apply eval_frame in Ha. destruct Ha as (F1 & R1 & _).
  ok_inv H. destruct a0 as [[c1 s1] l1].
  apply sampling_branch_cases in Ha. destruct Ha as (F2 & Hc).
  pose proof (loop_frame_trans _ _ _ F1 F2) as F.
  assert (N0 : forall more : list (@completion_output B),
             response l = response l ++ [] /\
             ghost_callback l = ghost_callback l ++ (if cb then [] else [])).
  { intros _; destruct cb; rewrite !app_nil_r; split; reflexivity. }
  destruct Hc as [(-> & -> & R2 & _) | [(-> & out & -> & R2 & Hb2)
                                       | (-> & -> & -> & _)]].
  - ok_inv H. split; [exact F|]. split; [exists []; apply N0; exact []|].
    split; [lia|]. left; intuition congruence.
  - assert (P1 : forall st,
      produced {| input_noecho := false; stopping := st;
                  response := response l;
                  completion_result_list := completion_result_list l ++ [out];
                  ghost_callback := ghost_callback l |} = produced l + 1).
    { intros st; unfold produced, size; simpl. rewrite length_app; simpl; lia. }
    ok_inv H. ok_inv H.
    { ok_inv H. split; [exact F|]. split; [exists []; apply N0; exact []|].
      split; [lia|]. right; split; [apply P1 | discriminate]. }
    ok_inv H.
    { ok_inv H. split; [exact F|]. split; [exists []; apply N0; exact []|].
      split; [lia|]. right; split; [apply P1 | discriminate]. }
    ok_inv H. destruct a1 as [stop brk]. ok_inv H.
    { ok_inv H. split; [exact F|].
      split; [exists []; simpl; apply N0; exact []|].
      split; [lia|]. right; split; [apply P1 | discriminate]. }
    pose proof (send_text_response cb
          (set_stopping stop
             {| input_noecho := false; stopping := stopping l;
                response := response l;
                completion_result_list := completion_result_list l ++ [out];
                ghost_callback := ghost_callback l |})) as ST.
    ok_inv H.
    { ok_inv H. split; [unfold loop_frame in *; simpl; intuition|].
      split; [exact ST|]. simpl. destruct F as (P & _). rewrite P.
      split; [lia|]. right; split; [|discriminate].
      rewrite send_text_produced. apply P1. }
    ok_inv H. split; [exact F|]. split; [exact ST|]. split; [lia|].
    right; split; [rewrite send_text_produced; apply P1|].
    intros _. split; [congruence|]. intros Hp.
    apply andb_false_iff in E2. destruct E2 as [E2|E2].
    + apply Z.leb_gt in E2. exact E2.
    + apply negb_false_iff in E2. apply Z.eqb_eq in E2.
      destruct F as (P & _). rewrite P in E2. contradiction.
  - rewrite Hb in H. rewrite vector_back_nil in H. simpl in H. discriminate.
Qed.

(** The whole loop, for any fuel. *)
Lemma generation_loop_frame cb fuel : forall s l e s' l',
  generation_loop fuel cb s l = Ok (e, s', l') ->
  loop_frame s s' /\
  (exists more,
     response l' = response l ++ more /\
     ghost_callback l' = ghost_callback l ++ (if cb then more else [])) /\
  n_remain s' <= Z.max (n_remain s) (n_predict (params s)).
Proof.
  induction fuel as [|fuel IH]; intros s l e s' l' H; simpl in H.
  - assert (H' : s' = s /\ l' = l).
    { destruct (n_remain s =? 0); ok_inv H; auto. }
    destruct H' as [-> ->]. split; [apply loop_frame_refl|].
    split; [|lia]. exists []; destruct cb; rewrite !app_nil_r; auto.
  - ok_inv H.
    { ok_inv H. split; [apply loop_frame_refl|].
      split; [|lia]. exists []; destruct cb; rewrite !app_nil_r; auto. }
    ok_inv H. destruct a as [[c s1] l1].
    apply loop_body_cases in Ha.
    destruct Ha as (F1 & (m1 & R1 & C1) & N1 & _).
    assert (Hrest : loop_frame s1 s' /\
      (exists more,
         response l' = response l1 ++ more /\
         ghost_callback l' = ghost_callback l1 ++ (if cb then more else [])) /\
      n_remain s' <= Z.max (n_remain s1) (n_predict (params s1))).
    { destruct c as [|why].
      - eapply IH; exact H.
      - ok_inv H. split; [apply loop_frame_refl|].
        split; [|lia]. exists []; destruct cb; rewrite !app_nil_r; auto. }
    destruct Hrest as (F2 & (m2 & R2 & C2) & N2).
    split; [exact (loop_frame_trans _ _ _ F1 F2)|].
    destruct F1 as (P & _). rewrite P in N2.
    split; [|lia].
    exists (m1 ++ m2). rewrite R2, R1, C2, C1.
    destruct cb; rewrite ?app_nil_r, <- ?app_assoc; auto.
Qed.

(** A loop during which no [cancel()] arrives is the loop. *)
Lemma generation_loop_uninterrupted cb fuel : forall s l,
  generation_loop_interrupted (repeat false fuel) cb s l
  = generation_loop fuel cb s l.
Proof.
  induction fuel as [|fuel IH]; intros s l; simpl; [reflexivity|].
  destruct (n_remain s =? 0); [reflexivity|].
  destruct (loop_body cb s l) as [[[c s1] l1]|f]; simpl; [|reflexivity].
  destruct c; [apply IH | reflexivity].
Qed.

(** What the loop keeps whoever cancels: all of the frame but the flag. *)
Lemma generation_loop_interrupted_frame cb interrupt : forall s l e s' l',
  generation_loop_interrupted interrupt cb s l = Ok (e, s', l') ->
  loop_frame (set_canceled (canceled s') s) s'.
Proof.
  induction interrupt as [|arrived interrupt IH]; intros s l e s' l' H;
    simpl in H.
  - assert (H' : s' = s) by (destruct (n_remain s =? 0); ok_inv H; auto).
    subst s'. unfold loop_frame; simpl; intuition.
  - ok_inv H. { ok_inv H. unfold loop_frame; simpl; intuition. }
    ok_inv H. destruct a as [[c s1] l1].
    apply loop_body_cases in Ha. destruct Ha as (F1 & _).
    assert (F1' : loop_frame (set_canceled (canceled s1) s) s1).
    { destruct arrived; unfold loop_frame, cancel in *; simpl in *;
        intuition. }
    destruct c as [|why].
    + apply IH in H. unfold loop_frame in *; simpl in *.
      intuition congruence.
    + ok_inv H. exact F1'.
Qed.

(** With a finite budget, the loop samples at most [max 1 n_remain] more
    outputs, and none when [n_remain] is already zero. *)
Lemma generation_loop_budget cb fuel : forall s l e s' l',
  n_predict (params s) <> -1 ->
  generation_loop fuel cb s l = Ok (e, s', l') ->
  produced l' <= produced l + allowance (n_remain s).
Proof.
  unfold allowance.
  induction fuel as [|fuel IH]; intros s l e s' l' Hp H; simpl in H.
  - destruct (n_remain s =? 0); ok_inv H; lia.
  - destruct (n_remain s =? 0) eqn:E0; [ok_inv H; lia|].
    apply Z.eqb_neq in E0.
    ok_inv H. destruct a as [[c s1] l1].
    apply loop_body_cases in Ha.
    destruct Ha as (F1 & _ & _ & Hc).
    destruct Hc as [(-> & -> & _) | (P1 & Hcont)].
    + ok_inv H. lia.
    + destruct c as [|why].
      * destruct (Hcont eq_refl) as (R1 & Hpos). specialize (Hpos Hp).
        destruct F1 as (P & _).
        apply IH in H; [|rewrite P; exact Hp].
        destruct (n_remain s1 =? 0) eqn:E1; [apply Z.eqb_eq in E1; lia|].
        lia.
      * ok_inv H. lia.
Qed.

End Frames.

Section Priming.

Context {B : Backend}.
Implicit Types s : @Llama B.

Lemma insert_prompt_tokens s prompt add :
  prompt_tokens (insert_prompt s prompt add) =
  prompt_tokens s
    ++ (if prefix_inserted s add then inp_pfx s else [])
    ++ line_inp s prompt add
    ++ (if suffix_inserted s add then inp_sfx s else []).
Proof.
  unfold insert_prompt, prefix_inserted, suffix_inserted.
  destruct (add && negb (str_size (input_prefix (params s)) =? 0)
            && negb (is_antiprompt s)) eqn:E1; simpl;
  destruct (add && negb (str_size (input_suffix (params s)) =? 0)) eqn:E2;
    simpl; rewrite <- ?app_assoc, ?app_nil_r; reflexivity.
Qed.

Lemma insert_prompt_frame s prompt add :
  loop_frame s (set_prompt_tokens (prompt_tokens s) (insert_prompt s prompt add))
  /\ n_remain (insert_prompt s prompt add) =
     int_wrap (n_remain s - size (line_inp s prompt add)).
Proof.
  unfold insert_prompt, loop_frame.
  destruct (add && negb (str_size (input_prefix (params s)) =? 0)
            && negb (is_antiprompt s)); simpl;
  destruct (add && negb (str_size (input_suffix (params s)) =? 0));
    simpl; intuition.
Qed.

Lemma prime_inv s prompt add s' :
  prime s prompt add = Ok s' ->
  loop_frame (set_grammar (grammar s') (set_prompt_tokens (prompt_tokens s') s))
             (set_ghost_live_grammars (ghost_live_grammars s) s') /\
  prompt_tokens s' = prompt_tokens (insert_prompt s prompt add) /\
  n_remain s' = int_wrap (n_remain s - size (line_inp s prompt add)) /\
  ghost_live_grammars s' =
    match grammar s' with
    | Some _ => S (ghost_live_grammars s)
    | None => ghost_live_grammars s
    end.
Proof.
  unfold prime; intros H. ok_inv H. destruct a as [s1 g].
  ok_inv H.
  destruct (insert_prompt_frame s prompt add) as (F & R).
  unfold load_grammar in Ha.
  unfold loop_frame in *; simpl in *.
  ok_inv Ha; [ok_inv Ha; [| ok_inv Ha] |]; ok_inv Ha; simpl;
    intuition congruence.
Qed.

End Priming.

(** The constructor builds exactly these sessions. *)
Example fresh_is_constructed :
  @Llama_new byte_backend (demo_params 8 (-1) "" "" "" stop_5_9) [1; 5; 9; 3]
  = Ok (fresh 8 (-1) [1; 5; 9; 3]).
Proof. vm_compute; reflexivity. Qed.

Example framed_is_constructed :
  @Llama_new byte_backend (demo_params 8 (-1) "<" ">" "" stop_5_9) [5; 5; 9]
  = Ok (framed 8 (-1) [5; 5; 9]).
Proof. vm_compute; reflexivity. Qed.

Example with_grammar_is_constructed :
  @Llama_new byte_backend
    (demo_params 8 4 "" "" "root ::= [0-9]+" stop_5_9) [7; 7; 7]
  = Ok (with_grammar 8 4 [7; 7; 7]).
Proof. vm_compute; reflexivity. Qed.

Section SessionClaims.

Context {B : Backend}.
Implicit Types s : @Llama B.
Implicit Types l : @locals B.

(** C10. On a session that was not configured for embeddings,
    [generate_embeddings] returns the empty vector and leaves the session as
    it was: in particular the log of backend evaluations does not grow. *)
Theorem generate_embeddings_gate s (text : string) :
  is_embedding s = false ->
  generate_embeddings s text = Ok ([], s) /\
  forall out s', generate_embeddings s text = Ok (out, s') ->
    out = [] /\ ghost_evals s' = ghost_evals s /\ ctx s' = ctx s.
Proof.
  intros He. unfold generate_embeddings. rewrite He. simpl.
  split; [reflexivity|]. intros out s' H. ok_inv H. auto.
Qed.

Lemma generate_response_inv fuel s prompt add cb r s' :
  0 < str_size prompt ->
  generate_response fuel s prompt add cb = Ok (r, s') ->
  exists why s1 l,
    generate_response_run fuel s prompt add cb = Ok (Some why, s1, l) /\
    r = response l /\ s' = release_grammar s1.
Proof.
  intros Hp H. unfold generate_response in H.
  destruct (str_size prompt <=? 0) eqn:E; [apply Z.leb_le in E; lia|].
  ok_inv H. destruct a as [[e s1] l]. destruct e as [why|]; ok_inv H.
  exists why, s1, l. auto.
Qed.

Lemma generate_response_run_inv fuel s prompt add cb e s1 l :
  generate_response_run fuel s prompt add cb = Ok (e, s1, l) ->
  exists s0,
    prime (set_canceled false s) prompt add = Ok s0 /\
    generation_loop fuel cb s0 new_locals = Ok (e, s1, l).
Proof.
  unfold generate_response_run; intros H. ok_inv H. exists a; auto.
Qed.

(** C9 (as amended). A call with a non-empty input appends to
    [prompt_tokens] the tokenized input, with the prefix tokens before it
    when framing is requested, a prefix is configured and no antiprompt turn
    is active, and with the suffix tokens after it when framing is requested
    and a suffix is configured; the two sides are decided separately. *)
Theorem framing_is_decided_per_side fuel s prompt add cb r s' :
  0 < str_size prompt ->
  generate_response fuel s prompt add cb = Ok (r, s') ->
  prompt_tokens s' =
    prompt_tokens s
      ++ (if prefix_inserted s add then inp_pfx s else [])
      ++ line_inp s prompt add
      ++ (if suffix_inserted s add then inp_sfx s else []).
Proof.
  intros Hp H.
  destruct (generate_response_inv _ _ _ _ _ _ _ Hp H)
    as (why & s1 & l & Hrun & _ & ->).
  destruct (generate_response_run_inv _ _ _ _ _ _ _ _ Hrun) as (s0 & P & L).
  apply prime_inv in P. destruct P as (_ & P & _).
  apply generation_loop_frame in L. destruct L as ((_ & _ & _ & _ & T & _) & _).
  assert (R : prompt_tokens (release_grammar s1) = prompt_tokens s1).
  { unfold release_grammar; destruct (grammar s1); reflexivity. }
  rewrite R, T, P.
  apply (insert_prompt_tokens (set_canceled false s)).
Qed.

(** A call during which no [cancel()] arrives is the call. *)
Lemma generate_response_uninterrupted fuel s prompt add cb :
  generate_response_run_interrupted (repeat false fuel) s prompt add cb
  = generate_response_run fuel s prompt add cb /\
  generate_response_interrupted (repeat false fuel) s prompt add cb
  = generate_response fuel s prompt add cb.
Proof.
  assert (R : generate_response_run_interrupted (repeat false fuel) s prompt
                add cb
              = generate_response_run fuel s prompt add cb).
  { unfold generate_response_run_interrupted, generate_response_run.
    destruct (prime (set_canceled false s) prompt add); simpl;
      [apply generation_loop_uninterrupted | reflexivity]. }
  split; [exact R|].
  unfold generate_response_interrupted, generate_response. rewrite R.
  reflexivity.
Qed.

Lemma generate_response_run_interrupted_inv interrupt s prompt add cb e s1 l :
  generate_response_run_interrupted interrupt s prompt add cb
  = Ok (e, s1, l) ->
  exists s0,
    prime (set_canceled false s) prompt add = Ok s0 /\
    generation_loop_interrupted interrupt cb s0 new_locals = Ok (e, s1, l).
Proof.
  unfold generate_response_run_interrupted; intros H. ok_inv H.
  exists a; auto.
Qed.

(** C8. Whichever way the loop is left, the cancel check of line 265
    included, a call with a non-empty input returns with a null grammar
    handle, and with as many grammar objects alive as before the call: the
    one it loaded has been freed.  [interrupt] tells when [cancel()] arrives
    during the call; with no arrival at all the call is
    [generate_response] ([generate_response_uninterrupted]). *)
Theorem grammar_released_on_every_exit interrupt s prompt add cb why s1 l :
  0 < str_size prompt ->
  generate_response_run_interrupted interrupt s prompt add cb
  = Ok (Some why, s1, l) ->
  exists s',
    generate_response_interrupted interrupt s prompt add cb
    = Ok (response l, s') /\
    grammar s' = None /\
    ghost_live_grammars s' = ghost_live_grammars s.
Proof.
  intros Hp Hrun. exists (release_grammar s1).
  split.
  { unfold generate_response_interrupted.
    destruct (str_size prompt <=? 0) eqn:E; [apply Z.leb_le in E; lia|].
    rewrite Hrun. reflexivity. }
  destruct (generate_response_run_interrupted_inv _ _ _ _ _ _ _ _ Hrun)
    as (s0 & P & L).
  apply prime_inv in P. destruct P as (_ & _ & _ & G).
  apply generation_loop_interrupted_frame in L.
  destruct L as (_ & _ & _ & _ & _ & _ & G1 & G2 & _).
  cbn [grammar ghost_live_grammars set_canceled] in G1, G2.
  unfold release_grammar.
  rewrite <- G1 in G.
  destruct (grammar s1) eqn:Eg; simpl; rewrite ?Eg; (split; [reflexivity|]);
    rewrite G2, G; reflexivity.
Qed.

(** C3 (as amended). With a finite budget of at least one token, on a
    session whose remaining budget does not exceed it and a prompt that the
    [int] subtraction of line 198 can take, the outputs sampled in a call
    (those in the response and those still withheld) never number more than
    the budget, at whatever point the loop is looked at. *)
Theorem budget_bounds_outputs fuel s prompt add cb e s' l' :
  1 <= n_predict (params s) ->
  n_remain s <= n_predict (params s) ->
  - 2 ^ 31 <= n_remain s - size (line_inp s prompt add) < 2 ^ 31 ->
  generate_response_run fuel s prompt add cb = Ok (e, s', l') ->
  size (response l') + size (completion_result_list l')
    <= n_predict (params s) /\
  n_remain s' <= n_predict (params s').
Proof.
  intros HB Hr Hw Hrun.
  destruct (generate_response_run_inv _ _ _ _ _ _ _ _ Hrun) as (s0 & P & L).
  apply prime_inv in P. destruct P as ((Pp & _) & _ & R & _).
  simpl in Pp, R.
  assert (W : int_wrap (n_remain s - size (line_inp (set_canceled false s) prompt add))
              = n_remain s - size (line_inp s prompt add)).
  { change (line_inp (set_canceled false s) prompt add)
      with (line_inp s prompt add).
    unfold int_wrap. rewrite Z.mod_small; lia. }
  rewrite W in R.
  pose proof (generation_loop_budget cb fuel s0 new_locals e s' l') as Bd.
  pose proof (generation_loop_frame cb fuel s0 new_locals e s' l' L) as (F & _ & N).
  destruct F as (Pf & _).
  rewrite Pp in Bd, N.
  specialize (Bd ltac:(lia) L).
  unfold produced, allowance in Bd. simpl in Bd.
  assert (0 <= size (line_inp s prompt add)) by (unfold size; lia).
  split.
  - destruct (n_remain s0 =? 0); lia.
  - rewrite Pf, Pp. lia.
Qed.

End SessionClaims.

(** ** The history window *)

Section HistoryWindow.

Context {B : Backend}.
Implicit Types s : @Llama B.

Lemma loop_frame_window c s s' :
  loop_frame s s' -> window_full c s -> window_full c s'.
Proof.
  unfold loop_frame, window_full, get_n_ctx, size.
  intros (P & _ & _ & _ & _ & _ & _ & _ & L) (W & C).
  rewrite L, P. auto.
Qed.

Lemma embed_batches_frame fuel : forall rest n s s',
  embed_batches fuel rest n s = Ok s' -> loop_frame s s'.
Proof.
  induction fuel as [|fuel IH]; intros rest n s s' H; simpl in H.
  - destruct rest; ok_inv H. apply loop_frame_refl.
  - destruct rest as [|t rest].
    + ok_inv H. apply loop_frame_refl.
    + ok_inv H; [discriminate|].
      destruct (llama_eval B (ctx s) _ n) as [c failed].
      cbv zeta in H. ok_inv H.
      * ok_inv H. unfold loop_frame; simpl. intuition.
      * apply IH in H. unfold loop_frame in *; simpl in *. intuition.
Qed.

Lemma zero_window_length n w :
  zero_window n = Ok w -> size w = n /\ w = repeat 0 (Z.to_nat n).
Proof.
  unfold zero_window, size; intros H. ok_inv H; [discriminate|].
  ok_inv H. apply Z.ltb_ge in E. rewrite repeat_length. split; [lia|auto].
Qed.

Lemma release_grammar_frame s :
  loop_frame (set_grammar None (set_ghost_live_grammars O s))
             (set_grammar None (set_ghost_live_grammars O (release_grammar s))).
Proof.
  unfold release_grammar, loop_frame.
  destruct (grammar s); simpl; intuition.
Qed.

Lemma perform_window c o s s' :
  perform o s = Ok s' -> window_full c s -> window_full c s'.
Proof.
  destruct o as [| |fuel prompt add cb|prompt| |]; simpl; intros H W.
  - apply eval_frame in H. apply (loop_frame_window c s); tauto.
  - ok_inv H. destruct a as [[k s1] l1]. ok_inv H.
    apply sampling_branch_cases in Ha.
    apply (loop_frame_window c s); tauto.
  - ok_inv H. destruct a as [r s1]. ok_inv H.
    unfold generate_response in Ha. ok_inv Ha.
    { ok_inv Ha. exact W. }
    ok_inv Ha. destruct a as [[e s1] l1].
    destruct e as [why|]; ok_inv Ha.
    apply generate_response_run_inv in Ha0. destruct Ha0 as (s0 & P & L).
    apply prime_inv in P. destruct P as (P & _).
    apply generation_loop_frame in L. destruct L as (L & _).
    pose proof (release_grammar_frame s1) as R.
    unfold window_full, get_n_ctx, size, loop_frame in *; simpl in *.
    destruct P as (P1 & _ & _ & _ & _ & _ & _ & _ & P2).
    destruct L as (L1 & _ & _ & _ & _ & _ & _ & _ & L2).
    destruct R as (R1 & _ & _ & _ & _ & _ & _ & _ & R2).
    rewrite R1, R2, L1, L2, P1, P2. exact W.
  - ok_inv H. destruct a as [r s1]. ok_inv H.
    unfold generate_embeddings in Ha. ok_inv Ha.
    { ok_inv Ha. exact W. }
    ok_inv Ha. ok_inv Ha. apply embed_batches_frame in Ha0.
    apply (loop_frame_window c s); tauto.
  - unfold reset in H. ok_inv H. ok_inv H.
    apply zero_window_length in Ha. destruct W as (_ & C).
    unfold window_full, get_n_ctx in *; simpl. rewrite C in Ha. tauto.
  - ok_inv H. exact W.
Qed.

Lemma perform_all_window c ops : forall s s',
  perform_all ops s = Ok s' -> window_full c s -> window_full c s'.
Proof.
  induction ops as [|o ops IH]; simpl; intros s s' H W.
  - ok_inv H. exact W.
  - ok_inv H. apply (IH a); [exact H|].
    apply (perform_window c o s); assumption.
Qed.

Lemma Llama_new_window p c0 s0 :
  Llama_new p c0 = Ok s0 -> window_full (n_ctx p) s0.
Proof.
  unfold Llama_new; intros H. ok_inv H. ok_inv H.
  destruct (llama_eval B c0 [llama_token_bos B] 0) as [c1 failed].
  ok_inv H. apply zero_window_length in Ha0.
  unfold window_full, get_n_ctx; simpl.
  destruct (n_keep p =? -1); simpl in *; tauto.
Qed.

(** C5. After construction the history window is as long as the context
    capacity, and it still is after any sequence of operations of the
    session (evaluations, sampling steps, whole generation or embedding
    calls, cancel, reset): a push drops exactly the oldest token and appends
    the new one, and [reset] refills the window with as many zeros. *)
Theorem history_window_length_is_constant p c0 s0 ops s :
  Llama_new p c0 = Ok s0 ->
  perform_all ops s0 = Ok s ->
  size (last_n_tokens s0) = n_ctx p /\
  size (last_n_tokens s) = n_ctx p /\
  (forall t w', window_push (last_n_tokens s) t = Ok w' ->
     exists oldest kept,
       last_n_tokens s = oldest :: kept /\ w' = kept ++ [t] /\
       size w' = n_ctx p) /\
  (forall s', reset s = Ok s' ->
     last_n_tokens s' = repeat 0 (Z.to_nat (n_ctx p))).
Proof.
  intros Hn Ho.
  pose proof (Llama_new_window _ _ _ Hn) as W0.
  pose proof (perform_all_window _ _ _ _ Ho W0) as (W & C).
  split; [exact (proj1 W0)|]. split; [exact W|]. split.
  - intros t w' Hp. pose proof (window_push_length _ _ _ Hp) as L.
    destruct (last_n_tokens s) as [|oldest kept] eqn:E; simpl in Hp; ok_inv Hp.
    exists oldest, kept. unfold size in *. rewrite L. auto.
  - intros s' Hr. unfold reset in Hr. ok_inv Hr. ok_inv Hr. simpl.
    apply zero_window_length in Ha. rewrite C in Ha. tauto.
Qed.

End HistoryWindow.

(** ** Context swapping *)

Section ContextSwap.

Context {B : Backend}.
Implicit Types s : @Llama B.

(** The batched evaluation with a positive batch capacity: it ends, every
    token is handed to the backend once and in order, the first chunk at the
    position the loop starts from, and the position advances by the number
    of tokens. *)
Lemma evaluate_batches_log fuel : forall rest s,
  1 <= n_batch (params s) ->
  (List.length rest <= fuel)%nat ->
  exists s' calls,
    evaluate_batches fuel rest s = Ok s' /\
    n_past s' = n_past s + size rest /\
    ghost_evals s' = ghost_evals s ++ calls /\
    List.concat (map fst calls) = rest /\
    (rest <> [] -> option_map snd (hd_error calls) = Some (n_past s)).
Proof.
  induction fuel as [|fuel IH]; intros rest s Hb Hf.
  - destruct rest; [|simpl in Hf; lia]. exists s, []; simpl.
    rewrite app_nil_r. unfold size; simpl. intuition lia.
  - destruct rest as [|t rest].
    { exists s, []; simpl. rewrite app_nil_r. unfold size; simpl.
      intuition lia. }
    cbn [evaluate_batches].
    destruct (n_batch (params s) =? 0) eqn:E; [apply Z.eqb_eq in E; lia|].
    set (n_eval := Z.min (size (t :: rest)) (n_batch (params s))).
    assert (Hn : 1 <= n_eval <= size (t :: rest)).
    { unfold n_eval, size; cbn [List.length]; lia. }
    destruct (llama_eval B (ctx s) (firstn (Z.to_nat n_eval) (t :: rest))
                (n_past s)) as [c failed].
    cbv zeta. cbn [params set_n_past set_ghost_evals set_ctx].
    destruct (n_batch (params s) <? 0) eqn:E0; [apply Z.ltb_lt in E0; lia|].
    set (s1 := set_n_past (n_past s + n_eval)
                 (set_ghost_evals
                    (ghost_evals s
                       ++ [(firstn (Z.to_nat n_eval) (t :: rest), n_past s)])
                    (set_ctx c s))).
    destruct (IH (skipn (Z.to_nat n_eval) (t :: rest)) s1) as
      (s' & calls & He & Hp & Hg & Hc & _).
    { exact Hb. }
    { rewrite length_skipn. unfold size in Hn. cbn [List.length] in *. lia. }
    exists s', ((firstn (Z.to_nat n_eval) (t :: rest), n_past s) :: calls).
    split; [exact He|]. split.
    { rewrite Hp. unfold s1, size; simpl n_past. rewrite length_skipn.
      unfold size in Hn. lia. }
    split.
    { rewrite Hg. unfold s1; simpl ghost_evals. rewrite <- app_assoc.
      reflexivity. }
    split; [|reflexivity].
    cbn [map List.concat fst]. rewrite Hc. apply firstn_skipn.
Qed.

Lemma context_swap_overflow s :
  n_past s + size (batch_tokens s) > get_n_ctx s ->
  size (last_n_tokens s) = get_n_ctx s ->
  0 <= n_past s - n_keep (params s) ->
  Z.quot (n_past s - n_keep (params s)) 2 + size (batch_tokens s)
    <= get_n_ctx s ->
  context_swap s
  = Ok (set_batch_tokens (reprimed_tokens s ++ batch_tokens s)
          (set_n_past (n_keep (params s)) s)) /\
  size (reprimed_tokens s) = Z.quot (n_past s - n_keep (params s)) 2 /\
  0 <= Z.quot (n_past s - n_keep (params s)) 2 /\
  exists older newer,
    last_n_tokens s = older ++ reprimed_tokens s ++ newer /\
    size newer = size (batch_tokens s).
Proof.
  intros Hover Hw Hleft Hroom. unfold reprimed_tokens.
  set (q := Z.quot (n_past s - n_keep (params s)) 2) in *.
  set (first := get_n_ctx s - q - size (batch_tokens s)).
  assert (Hq : 0 <= q) by (apply Z.quot_pos; lia).
  assert (Hlen : size (firstn (Z.to_nat q)
                         (skipn (Z.to_nat first) (last_n_tokens s))) = q).
  { unfold size in *. rewrite length_firstn, length_skipn.
    unfold first. lia. }
  split; [|split; [exact Hlen|split; [exact Hq|]]].
  - unfold context_swap.
    destruct (n_past s + size (batch_tokens s) >? get_n_ctx s) eqn:E;
      [|rewrite Z.gtb_ltb in E; apply Z.ltb_ge in E; lia].
    simpl last_n_tokens. simpl batch_tokens.
    change (get_n_ctx (set_n_past (n_keep (params s)) s)) with (get_n_ctx s).
    fold q. rewrite Hw. fold first.
    unfold vector_range.
    replace (get_n_ctx s - size (batch_tokens s) - first) with q
      by (unfold first; lia).
    assert (Hc : (0 <=? first)
                 && (first <=? get_n_ctx s - size (batch_tokens s))
                 && (get_n_ctx s - size (batch_tokens s)
                     <=? size (last_n_tokens s)) = true).
    { rewrite !andb_true_iff, !Z.leb_le. unfold first.
      unfold size in *. lia. }
    rewrite Hc. reflexivity.
  - exists (firstn (Z.to_nat first) (last_n_tokens s)),
           (skipn (Z.to_nat q) (skipn (Z.to_nat first) (last_n_tokens s))).
    split.
    + rewrite firstn_skipn. rewrite firstn_skipn. reflexivity.
    + unfold size in *. rewrite !length_skipn. unfold first. lia.
Qed.

Lemma context_swap_no_overflow s :
  n_past s + size (batch_tokens s) <= get_n_ctx s ->
  context_swap s = Ok s.
Proof.
  intros H. unfold context_swap.
  destruct (n_past s + size (batch_tokens s) >? get_n_ctx s) eqn:E;
    [rewrite Z.gtb_ltb in E; apply Z.ltb_lt in E; lia | reflexivity].
Qed.

(** X20. In [eval], when the position plus the batch pending after the
    prompt was drained exceeds the context capacity, and the slice to
    re-prime lies inside the history window (the window is as long as the
    context, the position is not below the keep-count, and
    [n_left / 2 + pending] tokens fit in it), with a positive batch
    capacity: the context swap runs before anything is evaluated; it sets
    the position to the keep-count and puts before the pending batch the
    [n_left / 2] tokens of the history window that end where its last
    [pending] tokens begin.  The backend then evaluates exactly that batch,
    [n_left / 2 + pending] tokens, from the keep-count on. *)
Theorem eviction_before_evaluation s s1 :
  drain (List.length (prompt_tokens s)) s = Ok s1 ->
  0 < size (batch_tokens s1) ->
  n_past s1 + size (batch_tokens s1) > get_n_ctx s1 ->
  size (last_n_tokens s1) = get_n_ctx s1 ->
  0 <= n_past s1 - n_keep (params s1) ->
  Z.quot (n_past s1 - n_keep (params s1)) 2 + size (batch_tokens s1)
    <= get_n_ctx s1 ->
  1 <= n_batch (params s1) ->
  let n_left := n_past s - n_keep (params s) in
  let pending := batch_tokens s1 in
  exists reprimed s2 s' calls,
    (* the eviction *)
    context_swap s1 = Ok s2 /\
    n_past s2 = n_keep (params s) /\
    batch_tokens s2 = reprimed ++ pending /\
    size reprimed = Z.quot n_left 2 /\
    (exists older newer,
       last_n_tokens s1 = older ++ reprimed ++ newer /\
       size newer = size pending) /\
    (* the evaluation *)
    eval s = Ok s' /\
    ghost_evals s' = ghost_evals s ++ calls /\
    List.concat (map fst calls) = reprimed ++ pending /\
    size (List.concat (map fst calls)) = Z.quot n_left 2 + size pending /\
    option_map snd (hd_error calls) = Some (n_keep (params s)) /\
    n_past s' = n_keep (params s) + Z.quot n_left 2 + size pending /\
    batch_tokens s' = [].
Proof.
  intros Hd Hpos Hover Hw Hleft Hroom Hb n_left pending.
  pose proof (drain_frame _ _ _ Hd) as ((Pp & _) & _ & _ & Hnp & _ & Hev).
  subst n_left pending.
  destruct (context_swap_overflow s1 Hover Hw Hleft Hroom)
    as (Hswap & Hlen & Hq & Hslice).
  set (reprimed := reprimed_tokens s1) in *.
  set (s2 := set_batch_tokens (reprimed ++ batch_tokens s1)
               (set_n_past (n_keep (params s1)) s1)) in *.
  destruct (evaluate_batches_log
              (List.length (batch_tokens s2)) (batch_tokens s2) s2)
    as (s3 & calls & He & Hp3 & Hg3 & Hc3 & Hh3); [exact Hb | lia |].
  exists reprimed, s2, (set_batch_tokens [] s3), calls.
  rewrite <- Hnp, <- Pp.
  split; [exact Hswap|]. split; [reflexivity|]. split; [reflexivity|].
  split; [exact Hlen|]. split; [exact Hslice|].
  split.
  { unfold eval. rewrite Hd. cbn [bind].
    destruct (0 <? size (batch_tokens s1)) eqn:E;
      [|apply Z.ltb_ge in E; lia].
    rewrite Hswap. cbn [bind]. rewrite He. reflexivity. }
  split; [simpl; rewrite Hg3; simpl; rewrite Hev; reflexivity|].
  split; [exact Hc3|].
  split.
  { rewrite Hc3. unfold s2; simpl. unfold size in *.
    rewrite length_app. lia. }
  split.
  { apply Hh3. unfold s2; simpl.
    destruct (batch_tokens s1); [unfold size in Hpos; simpl in Hpos; lia|].
    destruct reprimed; discriminate. }
  split; [|reflexivity].
  simpl. rewrite Hp3. unfold s2; simpl. unfold size in *.
  rewrite length_app. lia.
Qed.

End ContextSwap.

(** ** The end-of-sequence check and cancellation *)

Section LoopChecks.

Context {B : Backend}.
Implicit Types s : @Llama B.
Implicit Types l : @locals B.

(** While prompt tokens are left after [eval], nothing is sampled, the batch
    is empty, and line 261 reads [back()] of an empty vector. *)
Lemma unconsumed_prompt_reads_empty_batch cb s l s1 :
  eval s = Ok s1 ->
  (size (prompt_tokens s1) <=? n_consumed s1) = false ->
  batch_tokens s1 = [] /\ loop_body cb s l = Fault BackOfEmpty.
Proof.
  intros He Hc. pose proof (eval_clears_batch _ _ He) as Hb.
  split; [exact Hb|].
  unfold loop_body, after_eval. rewrite He. cbn [bind].
  unfold sampling_branch. rewrite Hc. cbn [bind]. rewrite Hb. reflexivity.
Qed.

(** C7 (as amended). [generate_response] clears the [canceled] flag before
    anything else, so a call made after [cancel()] is the call that would
    have been made without it.  A flag that is set when an iteration runs
    (raised while the call is under way) ends the loop in that iteration,
    and nothing is delivered in it. *)
Theorem cancel_before_call_is_cleared fuel s prompt add cb :
  generate_response fuel (cancel s) prompt add cb
    = generate_response fuel s prompt add cb /\
  forall l c s' l',
    canceled s = true ->
    loop_body cb s l = Ok (c, s', l') ->
    (exists why, c = Break why) /\
    response l' = response l /\ ghost_callback l' = ghost_callback l.
Proof.
  split; [reflexivity|].
  intros l c s' l' Hc H. unfold loop_body, after_eval in H. ok_inv H.
  pose proof (eval_clears_batch _ _ Ha) as Hb.
  apply eval_frame in Ha. destruct Ha as (F1 & _).
  ok_inv H. destruct a0 as [[c1 s1] l1].
  apply sampling_branch_cases in Ha. destruct Ha as (F2 & Hk).
  pose proof (loop_frame_trans _ _ _ F1 F2) as (_ & _ & _ & _ & _ & Hcan & _).
  rewrite Hc in Hcan.
  destruct Hk as [(-> & -> & _) | [(-> & out & -> & _)
                                  | (-> & -> & -> & _)]].
  - ok_inv H. split; [eexists; reflexivity | auto].
  - ok_inv H. ok_inv H.
    { ok_inv H. split; [eexists; reflexivity | auto]. }
    rewrite Hcan in H. ok_inv H. split; [eexists; reflexivity | auto].
  - rewrite Hb in H. rewrite vector_back_nil in H. simpl in H. discriminate.
Qed.

End LoopChecks.

(** ** Sessions in which evaluation is defined *)

Section Steady.

Context {B : Backend}.
Implicit Types s : @Llama B.

Lemma slide_nil w : slide w [] = w.
Proof. unfold slide; simpl. apply app_nil_r. Qed.

Lemma slide_cons x w t ts : slide (x :: w) (t :: ts) = slide (w ++ [t]) ts.
Proof. unfold slide; simpl. rewrite <- app_assoc. reflexivity. Qed.

Lemma slide_length w ts : List.length (slide w ts) = List.length w.
Proof. unfold slide. rewrite length_skipn, length_app. lia. Qed.

Lemma slide_slide w a b :
  slide (slide w a) b = slide w (a ++ b).
Proof.
  unfold slide. rewrite length_app.
  rewrite (Nat.add_comm (List.length a)), <- skipn_skipn. f_equal.
  rewrite app_assoc. rewrite (skipn_app (List.length a) (w ++ a) b).
  replace (List.length a - List.length (w ++ a))%nat with O
    by (rewrite length_app; lia).
  reflexivity.
Qed.

Lemma pending_prompt_length s :
  0 <= n_consumed s <= size (prompt_tokens s) ->
  size (pending_prompt s) = size (prompt_tokens s) - n_consumed s.
Proof.
  unfold pending_prompt, size. rewrite length_skipn. lia.
Qed.

(** Draining a prompt that fits in the batch moves all of it. *)
Lemma drain_all fuel : forall s,
  0 <= n_consumed s <= size (prompt_tokens s) ->
  size (batch_tokens s) + (size (prompt_tokens s) - n_consumed s)
    <= n_batch (params s) ->
  (last_n_tokens s <> [] \/ pending_prompt s = []) ->
  (List.length (pending_prompt s) <= fuel)%nat ->
  exists s',
    drain fuel s = Ok s' /\
    batch_tokens s' = batch_tokens s ++ pending_prompt s /\
    last_n_tokens s' = window_after_eval s /\
    n_consumed s' = size (prompt_tokens s).
Proof.
  induction fuel as [|fuel IH]; intros s Hc Hb Hw Hf.
  - assert (Hp : pending_prompt s = [])
      by (destruct (pending_prompt s); [reflexivity | simpl in Hf; lia]).
    pose proof (pending_prompt_length s Hc) as Hl. rewrite Hp in Hl.
    unfold size in Hl; simpl in Hl.
    exists s. simpl.
    destruct (size (prompt_tokens s) >? n_consumed s) eqn:E;
      [rewrite Z.gtb_ltb in E; apply Z.ltb_lt in E; unfold size in *; lia|].
    simpl. unfold window_after_eval. rewrite Hp, slide_nil, app_nil_r.
    unfold size in *. intuition lia.
  - cbn [drain].
    destruct (size (prompt_tokens s) >? n_consumed s) eqn:E.
    + rewrite Z.gtb_ltb in E; apply Z.ltb_lt in E.
      destruct (size (batch_tokens s) <? n_batch (params s)) eqn:E2;
        [|apply Z.ltb_ge in E2; lia].
      cbn [andb].
      assert (Hnth : exists t, nth_error (prompt_tokens s)
                                 (Z.to_nat (n_consumed s)) = Some t).
      { destruct (nth_error (prompt_tokens s) (Z.to_nat (n_consumed s)))
          as [t|] eqn:En; [exists t; reflexivity|].
        apply nth_error_None in En. unfold size in *. lia. }
      destruct Hnth as (t & Hnth).
      assert (Hpp : pending_prompt s
                    = t :: skipn (S (Z.to_nat (n_consumed s))) (prompt_tokens s)).
      { unfold pending_prompt.
        revert Hnth. generalize (Z.to_nat (n_consumed s)) as n.
        generalize (prompt_tokens s) as v.
        induction v as [|x v IHv]; intros [|n] Hn; simpl in *;
          try discriminate.
        - inversion Hn; reflexivity.
        - apply IHv; exact Hn. }
      unfold vector_index.
      destruct (n_consumed s <? 0) eqn:E3; [apply Z.ltb_lt in E3; lia|].
      rewrite Hnth. cbn [bind].
      destruct (last_n_tokens s) as [|x w] eqn:Ew.
      { destruct Hw as [Hw|Hw]; [congruence | rewrite Hpp in Hw; discriminate]. }
      cbn [window_push bind].
      set (s1 := set_n_consumed (n_consumed s + 1)
                   (set_last_n_tokens (w ++ [t])
                      (set_batch_tokens (batch_tokens s ++ [t]) s))).
      assert (Hp1 : pending_prompt s1
                    = skipn (S (Z.to_nat (n_consumed s))) (prompt_tokens s)).
      { unfold pending_prompt, s1; simpl.
        replace (Z.to_nat (n_consumed s + 1)) with (S (Z.to_nat (n_consumed s)))
          by lia. reflexivity. }
      destruct (IH s1) as (s' & Hd & Hb' & Hw' & Hc').
      { unfold s1; simpl. unfold size in *. lia. }
      { unfold s1; simpl. unfold size in *. rewrite length_app; simpl. lia. }
      { left. unfold s1; simpl. destruct w; discriminate. }
      { rewrite Hp1. rewrite Hpp in Hf. cbn [List.length] in Hf. lia. }
      exists s'. split; [exact Hd|].
      rewrite Hb', Hw', Hc'. unfold window_after_eval.
      rewrite Hp1, Hpp. unfold s1; simpl. rewrite Ew, slide_cons.
      rewrite <- app_assoc. simpl. auto.
    + rewrite Z.gtb_ltb in E; apply Z.ltb_ge in E.
      assert (Hp : pending_prompt s = []).
      { pose proof (pending_prompt_length s Hc) as Hl.
        destruct (pending_prompt s); [reflexivity|].
        unfold size in *; simpl in Hl; lia. }
      exists s. simpl. unfold window_after_eval.
      rewrite Hp, slide_nil, app_nil_r. unfold size in *. intuition lia.
Qed.

Lemma evaluate_batches_ctx fuel : forall rest s s',
  eval_keeps_context B ->
  evaluate_batches fuel rest s = Ok s' -> ctx s' = ctx s.
Proof.
  induction fuel as [|fuel IH]; intros rest s s' K H; simpl in H.
  - destruct rest; ok_inv H. reflexivity.
  - destruct rest as [|t rest]; [ok_inv H; reflexivity|].
    ok_inv H; [discriminate|].
    pose proof (K (ctx s)
      (firstn (Z.to_nat (Z.min (size (t :: rest)) (n_batch (params s))))
         (t :: rest)) (n_past s)) as Kc.
    destruct (llama_eval B (ctx s) _ (n_past s)) as [c failed].
    cbv zeta in H. ok_inv H.
    + ok_inv H. simpl in *. congruence.
    + apply (IH _ _ _ K) in H. simpl in H, Kc. congruence.
Qed.

(** On a steady session [eval] is defined: it consumes the prompt, empties
    the batch and leaves the position between keep-count and capacity. *)
Lemma eval_steady s :
  steady s ->
  exists s',
    eval s = Ok s' /\
    batch_tokens s' = [] /\
    last_n_tokens s' = window_after_eval s /\
    n_consumed s' = size (prompt_tokens s) /\
    n_keep (params s) <= n_past s' <= get_n_ctx s /\
    (eval_keeps_context B -> ctx s' = ctx s).
Proof.
  intros (Hb & Hw & Hk & Hp & Hc & Hfit & Hroom).
  destruct (drain_all (List.length (prompt_tokens s)) s Hc Hfit)
    as (s1 & Hd & Hb1 & Hw1 & Hc1).
  { left. intros E. rewrite E in Hw. unfold size in Hw; simpl in Hw. lia. }
  { unfold pending_prompt. rewrite length_skipn. lia. }
  pose proof (drain_frame _ _ _ Hd) as ((Pp & _) & _ & _ & Hnp & Hctx & _).
  pose proof (pending_prompt_length s Hc) as Hpl.
  assert (Hsz : size (batch_tokens s1)
                = size (batch_tokens s)
                  + (size (prompt_tokens s) - n_consumed s)).
  { rewrite Hb1. unfold size in *. rewrite length_app. lia. }
  assert (Hw1' : size (last_n_tokens s1) = get_n_ctx s1).
  { rewrite Hw1. unfold window_after_eval, size, get_n_ctx.
    rewrite slide_length, Pp. exact Hw. }
  assert (G : get_n_ctx s1 = get_n_ctx s) by (unfold get_n_ctx; congruence).
  unfold eval. rewrite Hd. cbn [bind].
  destruct (0 <? size (batch_tokens s1)) eqn:E0.
  - apply Z.ltb_lt in E0.
    destruct (Z_gt_le_dec (n_past s1 + size (batch_tokens s1)) (get_n_ctx s1))
      as [Hover|Hno].
    + destruct (context_swap_overflow s1 Hover Hw1') as (Hs & Hq & Hq0 & _).
      { rewrite Pp, Hnp. lia. }
      { rewrite Pp, Hnp, Hsz, G. lia. }
      rewrite Hs. cbn [bind].
      match goal with
      | |- context [evaluate_batches ?f ?r ?s2] =>
          destruct (evaluate_batches_log f r s2) as
            (s3 & calls & He & Hp3 & _);
            [simpl; rewrite Pp; exact Hb | simpl; lia |]
      end.
      rewrite He. cbn [bind]. eexists. split; [reflexivity|].
      simpl. split; [reflexivity|].
      pose proof (evaluate_batches_frame _ _ _ _ He)
        as (_ & _ & _ & Hc3 & Hw3 & _).
      simpl in Hc3, Hw3, Hp3. rewrite Hw3, Hc3.
      split; [exact Hw1|]. split; [exact Hc1|].
      split.
      * rewrite Hp3. unfold size in *. rewrite length_app.
        rewrite Pp, Hnp in *. lia.
      * intros K. rewrite (evaluate_batches_ctx _ _ _ _ K He). simpl.
        exact Hctx.
    + rewrite (context_swap_no_overflow s1) by lia. cbn [bind].
      destruct (evaluate_batches_log (List.length (batch_tokens s1))
                  (batch_tokens s1) s1) as (s3 & calls & He & Hp3 & _);
        [rewrite Pp; exact Hb | lia |].
      rewrite He. cbn [bind]. eexists. split; [reflexivity|].
      simpl. split; [reflexivity|].
      pose proof (evaluate_batches_frame _ _ _ _ He)
        as (_ & _ & _ & Hc3 & Hw3 & _).
      rewrite Hw3, Hc3.
      split; [exact Hw1|]. split; [exact Hc1|].
      split.
      * rewrite Hp3. unfold size in *. lia.
      * intros K. rewrite (evaluate_batches_ctx _ _ _ _ K He). exact Hctx.
  - apply Z.ltb_ge in E0. exists s1. split; [reflexivity|].
    split.
    { destruct (batch_tokens s1); [reflexivity|].
      unfold size in E0; cbn [List.length] in E0; lia. }
    split; [exact Hw1|]. split; [exact Hc1|].
    split; [lia | intros _; exact Hctx].
Qed.

Lemma stop_match_total (buffered : list (@completion_output B)) :
  forall stop, (List.length buffered <= List.length stop)%nat ->
  exists m, stop_match buffered stop = Ok m.
Proof.
  induction buffered as [|c buffered IH]; intros stop Hl; simpl.
  - exists true; reflexivity.
  - destruct stop as [|t stop]; [simpl in Hl; lia|].
    destruct (negb (token c =? t)); [exists false; reflexivity|].
    apply IH. simpl in Hl. lia.
Qed.

Lemma stop_check_total s (l : @locals B) :
  antiprompt (params s) <> [] ->
  exists m brk, stop_check s l = Ok (m, brk).
Proof.
  intros Ha. unfold stop_check.
  destruct (size (completion_result_list l) <=? size (inp_stop s)) eqn:E;
    [|exists false, false; reflexivity].
  destruct (antiprompt (params s)) as [|phrase more]; [contradiction|].
  cbn [vector_at0 bind].
  destruct (0 <? str_size phrase); [|exists false, false; reflexivity].
  apply Z.leb_le in E. unfold size in E.
  destruct (stop_match_total (completion_result_list l) (inp_stop s))
    as (m & Hm); [lia|].
  rewrite Hm. cbn [bind]. eexists; eexists; reflexivity.
Qed.

(** [eval] keeps the context of a backend whose evaluation does. *)
Lemma eval_ctx s s' :
  eval_keeps_context B -> eval s = Ok s' -> ctx s' = ctx s.
Proof.
  intros K H. unfold eval in H. ok_inv H.
  apply drain_frame in Ha. destruct Ha as (_ & _ & _ & _ & Hc & _).
  ok_inv H.
  - ok_inv H. ok_inv H. ok_inv H.
    apply context_swap_frame in Ha.
    destruct Ha as (_ & _ & _ & _ & _ & Hc2 & _).
    apply (evaluate_batches_ctx _ _ _ _ K) in Ha0.
    simpl. congruence.
  - ok_inv H. exact Hc.
Qed.

End Steady.

(** ** Iterations of the generation loop *)

Section Iterations.
Context {B : Backend}.
Implicit Types s : @Llama B.
Implicit Types l : @locals B.

(** The three ways through lines 229-259. *)
Lemma sampling_branch_inv s l c s' l' :
  sampling_branch s l = Ok (c, s', l') ->
  (c = Break AntipromptFound /\ l' = l /\
   s' = set_is_antiprompt true (set_is_antiprompt false s)) \/
  (c = Continue /\
   exists c1 out w,
     sample (set_is_antiprompt false s)
     = (set_ctx c1 (set_is_antiprompt false s), out) /\
     window_push (last_n_tokens s) (token out) = Ok w /\
     s' = after_sampling s c1 out w /\ l' = sampled l out) \/
  (c = Continue /\ l' = l /\ s' = s /\
   (size (prompt_tokens s) <=? n_consumed s) = false).
Proof.
  unfold sampling_branch; intros H. ok_inv H.
  - ok_inv H. ok_inv H.
    + ok_inv H. left. auto.
    + destruct (sample (set_is_antiprompt false s)) as [s1 out] eqn:Es.
      destruct (sample_state (set_is_antiprompt false s)) as [c1 Hc].
      rewrite Es in Hc; simpl in Hc; subst s1.
      ok_inv H. ok_inv H. simpl in Ha0.
      right; left. split; [reflexivity|].
      exists c1, out, a0. auto.
  - ok_inv H. right; right. auto.
Qed.

(** One iteration of the loop of lines 225-309 that completes: the session
    and the locals it leaves, for each way through it. *)
Lemma loop_body_inv cb s l c s' l' :
  loop_body cb s l = Ok (c, s', l') ->
  exists sE,
    eval s = Ok sE /\
    ((c = Break AntipromptFound /\ l' = l /\
      s' = set_is_antiprompt true (set_is_antiprompt false sE)) \/
     exists c1 out w m,
       sample (set_is_antiprompt false sE)
       = (set_ctx c1 (set_is_antiprompt false sE), out) /\
       window_push (last_n_tokens sE) (token out) = Ok w /\
       batch_tokens sE = [] /\
       let sS := after_sampling sE c1 out w in
       let lS := sampled l out in
       (c = Break EndOfSequence /\ token out = llama_token_eos B /\
        s' = sS /\ l' = lS) \/
       (token out <> llama_token_eos B /\
        ((c = Break Canceled /\ canceled sE = true /\ s' = sS /\ l' = lS) \/
         (canceled sE = false /\
          ((c = Break StopSequence /\ stop_check sS lS = Ok (m, true) /\
            s' = sS /\ l' = set_stopping m lS) \/
           (stop_check sS lS = Ok (m, false) /\
            l' = send_text cb (set_stopping m lS) /\
            ((c = Break BudgetExhausted /\
              (n_remain sS <=? 0) && negb (n_predict (params sS) =? -1) = true /\
              s' = set_n_remain (n_predict (params sS)) sS) \/
             (c = Continue /\
              (n_remain sS <=? 0) && negb (n_predict (params sS) =? -1) = false /\
              s' = sS)))))))).
Proof.
  unfold loop_body, after_eval; intros H. ok_inv H.
  pose proof (eval_clears_batch _ _ Ha) as Hb.
  exists a. split; [exact Ha|].
  ok_inv H. destruct a0 as [[k s1] l1].
  apply sampling_branch_inv in Ha0.
  destruct Ha0 as [(-> & -> & ->) | [(-> & c1 & out & w & Hs & Hw & -> & ->)
                                    | (-> & -> & -> & _)]].
  - ok_inv H. left. auto.
  - right.
    assert (Hback : vector_back (batch_tokens (after_sampling a c1 out w))
                    = Ok (token out)).
    { unfold after_sampling; simpl. rewrite Hb. reflexivity. }
    rewrite Hback in H. cbn [bind] in H.
    destruct (token out =? llama_token_eos B) eqn:Et.
    { ok_inv H. apply Z.eqb_eq in Et.
      exists c1, out, w, false. cbv zeta.
      split; [exact Hs|]. split; [exact Hw|]. split; [exact Hb|].
      left. auto. }
    apply Z.eqb_neq in Et.
    change (canceled (after_sampling a c1 out w)) with (canceled a) in H.
    destruct (canceled a) eqn:Ec.
    { ok_inv H. exists c1, out, w, false. cbv zeta.
      split; [exact Hs|]. split; [exact Hw|]. split; [exact Hb|].
      right. split; [exact Et|]. left. auto. }
    ok_inv H. destruct a0 as [m brk]. destruct brk.
    { ok_inv H. exists c1, out, w, m. cbv zeta.
      split; [exact Hs|]. split; [exact Hw|]. split; [exact Hb|].
      right. split; [exact Et|]. right. split; [reflexivity|]. left. auto. }
    exists c1, out, w, m. cbv zeta.
    split; [exact Hs|]. split; [exact Hw|]. split; [exact Hb|].
    right. split; [exact Et|]. right. split; [reflexivity|]. right.
    split; [exact Ha0|].
    ok_inv H; ok_inv H; (split; [reflexivity|]); [left | right]; auto.
  - rewrite Hb in H. rewrite vector_back_nil in H. simpl in H. discriminate.
Qed.

End Iterations.

(** ** Iterations that complete *)

Section Completed.

Context {B : Backend}.
Implicit Types s : @Llama B.
Implicit Types l : @locals B.

Lemma pending_prompt_consumed s :
  size (prompt_tokens s) <= n_consumed s -> pending_prompt s = [].
Proof.
  intros H. unfold pending_prompt. apply skipn_all2. unfold size in H. lia.
Qed.

Lemma pending_prompt_next s t :
  vector_index (prompt_tokens s) (n_consumed s) = Ok t ->
  pending_prompt s
  = t :: pending_prompt (set_n_consumed (n_consumed s + 1) s).
Proof.
  unfold vector_index, pending_prompt. intros H.
  destruct (n_consumed s <? 0) eqn:E; [discriminate|]. apply Z.ltb_ge in E.
  cbn [n_consumed prompt_tokens set_n_consumed].
  replace (Z.to_nat (n_consumed s + 1)) with (S (Z.to_nat (n_consumed s)))
    by lia.
  revert H. generalize (Z.to_nat (n_consumed s)) as n.
  generalize (prompt_tokens s) as v.
  induction v as [|x v IHv]; intros [|n] Hn; simpl in *; try discriminate.
  - inversion Hn; reflexivity.
  - apply IHv; exact Hn.
Qed.

(** A drain that leaves no prompt token behind has pushed all that was
    pending on the window. *)
Lemma drain_consumes fuel : forall s s',
  drain fuel s = Ok s' ->
  size (prompt_tokens s') <= n_consumed s' ->
  last_n_tokens s' = window_after_eval s.
Proof.
  induction fuel as [|fuel IH]; intros s s' H Hc; simpl in H.
  - ok_inv H; [discriminate | ok_inv H].
    unfold window_after_eval. rewrite pending_prompt_consumed by exact Hc.
    symmetry; apply slide_nil.
  - ok_inv H.
    + ok_inv H. ok_inv H.
      pose proof (pending_prompt_next _ _ Ha) as Hp.
      apply IH in H; [|exact Hc]. rewrite H.
      unfold window_after_eval. rewrite Hp.
      unfold pending_prompt.
      cbn [last_n_tokens prompt_tokens n_consumed set_n_consumed
           set_last_n_tokens set_batch_tokens].
      destruct (last_n_tokens s) as [|x w]; simpl in Ha0; ok_inv Ha0.
      rewrite slide_cons. reflexivity.
    + ok_inv H.
      unfold window_after_eval. rewrite pending_prompt_consumed by exact Hc.
      symmetry; apply slide_nil.
Qed.

Lemma eval_consumes s s' :
  eval s = Ok s' ->
  size (prompt_tokens s') <= n_consumed s' ->
  last_n_tokens s' = window_after_eval s.
Proof.
  unfold eval; intros H Hc. ok_inv H. ok_inv H.
  - ok_inv H. ok_inv H. ok_inv H.
    apply context_swap_frame in Ha0.
    destruct Ha0 as ((_ & _ & _ & _ & T2 & _) & _ & _ & C2 & W2 & _).
    apply evaluate_batches_frame in Ha1.
    destruct Ha1 as ((_ & _ & _ & _ & T3 & _) & _ & _ & C3 & W3 & _).
    cbn [prompt_tokens n_consumed last_n_tokens set_batch_tokens] in *.
    rewrite W3, W2. apply (drain_consumes _ _ _ Ha). congruence.
  - ok_inv H. apply (drain_consumes _ _ _ Ha). exact Hc.
Qed.

(** An iteration that completes has consumed the prompt, and it leaves
    through line 243 exactly when the stop phrase is at the tail of the
    window. *)
Lemma loop_body_entry cb s l c s' l' :
  loop_body cb s l = Ok (c, s', l') ->
  exists sE phrase,
    eval s = Ok sE /\
    size (prompt_tokens sE) <= n_consumed sE /\
    vector_at0 (antiprompt (params sE)) = Ok phrase /\
    antiprompt_found (@detokenize B (last_n_tokens sE)) phrase
    = match c with Break AntipromptFound => true | _ => false end.
Proof.
  unfold loop_body, after_eval; intros H. ok_inv H.
  pose proof (eval_clears_batch _ _ Ha) as Hb.
  exists a. ok_inv H. destruct a0 as [[k s1] l1].
  unfold sampling_branch in Ha0. ok_inv Ha0.
  - apply Z.leb_le in E. ok_inv Ha0. cbn [params set_is_antiprompt] in Ha1.
    exists a0. split; [exact Ha|]. split; [exact E|]. split; [exact Ha1|].
    ok_inv Ha0.
    + ok_inv Ha0. ok_inv H. reflexivity.
    + destruct (sample (set_is_antiprompt false a)) as [s2 out].
      ok_inv Ha0. ok_inv Ha0.
      ok_inv H. ok_inv H; [ok_inv H; reflexivity|].
      ok_inv H; [ok_inv H; reflexivity|].
      ok_inv H. destruct a3 as [m brk].
      ok_inv H; [ok_inv H; reflexivity|].
      ok_inv H; ok_inv H; reflexivity.
  - ok_inv Ha0. rewrite Hb, vector_back_nil in H. simpl in H. discriminate.
Qed.

Lemma generation_loop_enters cb fuel s l r :
  n_remain s <> 0 ->
  generation_loop (S fuel) cb s l = Ok r ->
  exists c s1 l1,
    loop_body cb s l = Ok (c, s1, l1) /\
    match c with
    | Break why => r = (Some why, s1, l1)
    | Continue => generation_loop fuel cb s1 l1 = Ok r
    end.
Proof.
  intros Hn H. cbn [generation_loop] in H.
  destruct (n_remain s =? 0) eqn:E; [apply Z.eqb_eq in E; contradiction|].
  ok_inv H. destruct a as [[c s1] l1]. exists c, s1, l1.
  split; [exact Ha|]. destruct c; [exact H | ok_inv H; reflexivity].
Qed.

End Completed.

(** ** Generation against a scripted sampler *)

Section Scripted.

Variables (tok : string -> bool -> list llama_token)
          (detok : list llama_token -> string)
          (bos eos : llama_token).

Local Abbreviation SB := (scripted tok detok bos eos).
Local Abbreviation output_of := (@scripted_output tok detok bos eos).

Implicit Types s : @Llama SB.
Implicit Types l : @locals SB.

Lemma scripted_keeps_context : eval_keeps_context SB.
Proof. intros c t n; reflexivity. Qed.

Lemma sample_scripted s t rest :
  ctx s = t :: rest ->
  sample s = (@set_ctx SB rest s, output_of (params s) t).
Proof.
  intros H. unfold sample.
  change (llama_sample_token SB (ctx s) (grammar s) (last_n_tokens s))
    with (match ctx s with
          | [] => ([], eos, [])
          | t' :: c' => (c', t', [(t', tt)])
          end : list llama_token * llama_token * list (llama_token * unit)).
  rewrite H. reflexivity.
Qed.

Lemma steady_settled s s' :
  steady s ->
  params s' = params s ->
  prompt_tokens s' = prompt_tokens s ->
  n_consumed s' = size (prompt_tokens s) ->
  size (batch_tokens s') <= 1 ->
  List.length (last_n_tokens s') = List.length (last_n_tokens s) ->
  n_keep (params s) <= n_past s' <= get_n_ctx s ->
  steady s'.
Proof.
  intros (Hb & Hw & Hk & Hp & Hc & Hfit & Hroom) P T C Bt W N.
  unfold steady, get_n_ctx, size in *. rewrite P, T, C, W.
  assert (0 <= Z.of_nat (List.length (batch_tokens s'))) by lia.
  repeat split; try lia.
  Z.to_euclidean_division_equations. lia.
Qed.

Lemma stop_check_frame s s' l :
  inp_stop s' = inp_stop s -> params s' = params s ->
  stop_check s' l = stop_check s l.
Proof. intros I P. unfold stop_check. rewrite I, P. reflexivity. Qed.

Lemma sample_scripted_any s :
  exists out,
    sample s = (@set_ctx SB (tl (ctx s)) s, out) /\
    token out = hd eos (ctx s).
Proof.
  unfold sample.
  change (llama_sample_token SB (ctx s) (grammar s) (last_n_tokens s))
    with (match ctx s with
          | [] => ([], eos, [])
          | t' :: c' => (c', t', [(t', tt)])
          end : list llama_token * llama_token * list (llama_token * unit)).
  destruct (ctx s) as [|t rest]; eexists; split; reflexivity.
Qed.

(** On a steady session an iteration is defined, leaves the session steady,
    and uses up a token of the script when the loop goes on. *)
Lemma loop_body_total cb s l :
  steady s ->
  antiprompt (params s) <> [] ->
  exists c s' l',
    loop_body cb s l = Ok (c, s', l') /\
    steady s' /\
    (c = Continue -> (List.length (ctx s') < List.length (ctx s))%nat).
Proof.
  intros St Ha.
  destruct (eval_steady s St) as (sE & He & Hb & Hw & Hn & Hp & Hk).
  specialize (Hk scripted_keeps_context).
  pose proof (eval_frame _ _ He) as (F & Hr & _).
  pose proof F as (Pp & _ & _ & Pi & Pt & Pc & _ & _ & Pl).
  assert (Hne : exists x w, last_n_tokens sE = x :: w).
  { destruct (last_n_tokens sE) as [|x w] eqn:E; [|eauto].
    destruct St as (_ & Hw0 & Hk0 & _). unfold size in Hw0.
    simpl in Pl. lia. }
  destruct Hne as (x & w & Ew).
  assert (Settle : forall s', params s' = params sE ->
            prompt_tokens s' = prompt_tokens sE ->
            n_consumed s' = n_consumed sE ->
            n_past s' = n_past sE ->
            size (batch_tokens s') <= 1 ->
            List.length (last_n_tokens s') = List.length (last_n_tokens sE) ->
            steady s').
  { intros s' H1 H2 H3 H4 H5 H6.
    apply (steady_settled s _ St); try congruence. }
  unfold loop_body. rewrite He. cbn [bind].
  unfold after_eval, sampling_branch.
  assert (E1 : (size (prompt_tokens sE) <=? n_consumed sE) = true)
    by (apply Z.leb_le; rewrite Pt, Hn; lia).
  rewrite E1.
  change (params (set_is_antiprompt false sE)) with (params sE).
  rewrite Pp.
  destruct (antiprompt (params s)) as [|phrase more] eqn:Ea; [contradiction|].
  cbn [vector_at0 bind].
  destruct (antiprompt_found (detokenize (last_n_tokens sE)) phrase).
  { do 3 eexists. split; [reflexivity|]. split; [|discriminate].
    apply Settle; try reflexivity. simpl. rewrite Hb. unfold size; simpl; lia. }
  destruct (sample_scripted_any (set_is_antiprompt false sE))
    as (out & Es & Eo).
  rewrite Es. cbn [ctx set_is_antiprompt] in Eo.
  cbn [ctx set_ctx set_is_antiprompt batch_tokens last_n_tokens
       set_batch_tokens].
  rewrite Hb, Ew. cbn [app window_push bind].
  cbn [batch_tokens set_n_remain set_last_n_tokens set_batch_tokens
       vector_back rev app bind].
  change (llama_token_eos SB) with eos.
  assert (W1 : Datatypes.length (w ++ [token out])
               = Datatypes.length (last_n_tokens sE)).
  { rewrite Ew, length_app. simpl. lia. }
  assert (B1 : size [token out] <= 1) by (unfold size; simpl; lia).
  destruct (token out =? eos) eqn:Et.
  { do 3 eexists. split; [reflexivity|]. split; [|discriminate].
    apply Settle; try reflexivity; assumption. }
  cbn [canceled set_n_remain set_last_n_tokens set_batch_tokens set_ctx
       set_is_antiprompt].
  destruct (canceled sE).
  { do 3 eexists. split; [reflexivity|]. split; [|discriminate].
    apply Settle; try reflexivity; assumption. }
  match goal with
  | |- context [stop_check ?s1 ?l1] =>
      destruct (stop_check_total s1 l1) as (m & brk & Hsc)
  end.
  { cbn [params set_n_remain set_last_n_tokens set_batch_tokens set_ctx
         set_is_antiprompt]. rewrite Pp, Ea. discriminate. }
  rewrite Hsc. cbn [bind].
  destruct brk.
  { do 3 eexists. split; [reflexivity|]. split; [|discriminate].
    apply Settle; try reflexivity; assumption. }
  match goal with
  | |- context [if ?c then _ else _] => destruct c
  end.
  { do 3 eexists. split; [reflexivity|]. split; [|discriminate].
    apply Settle; try reflexivity; assumption. }
  do 3 eexists. split; [reflexivity|]. split.
  { apply Settle; try reflexivity; assumption. }
  intros _. cbn [ctx set_n_remain set_last_n_tokens set_batch_tokens set_ctx
                 set_is_antiprompt].
  rewrite Hk. rewrite Hk in Eo.
  destruct (ctx s) as [|t rest]; simpl in *; [|lia].
  rewrite Eo in Et. rewrite Z.eqb_refl in Et. discriminate.
Qed.

(** The loop is defined for every fuel, and it is left before the fuel
    runs out once there is more fuel than script. *)
Lemma generation_loop_total cb fuel : forall s l,
  steady s ->
  antiprompt (params s) <> [] ->
  exists e s' l',
    generation_loop fuel cb s l = Ok (e, s', l') /\
    ((List.length (ctx s) < fuel)%nat -> e <> None).
Proof.
  induction fuel as [|fuel IH]; intros s l St Ha; simpl.
  - destruct (n_remain s =? 0); do 3 eexists;
      (split; [reflexivity|]); intros H; [discriminate | lia].
  - destruct (n_remain s =? 0).
    { do 3 eexists. split; [reflexivity | discriminate]. }
    destruct (loop_body_total cb s l St Ha) as (c & s1 & l1 & Hb & St1 & Hm).
    rewrite Hb. cbn [bind].
    destruct c as [|why].
    + pose proof (loop_body_cases _ _ _ _ _ _ Hb) as ((Pp & _) & _).
      destruct (IH s1 l1 St1) as (e & s' & l' & Hl & He).
      { rewrite Pp. exact Ha. }
      exists e, s', l'. split; [exact Hl|].
      intros Hf. apply He. specialize (Hm eq_refl). lia.
    + do 3 eexists. split; [reflexivity | discriminate].
Qed.

Lemma budget_for_enters n s : 1 <= n -> budget_for n s -> n_remain s <> 0.
Proof. unfold budget_for; lia. Qed.

Lemma budget_for_goes_on n s :
  2 <= n -> budget_for n s -> budget_stops s = false.
Proof.
  unfold budget_for, budget_stops; intros Hn [H|[H1 H2]].
  - destruct (n_remain s - 1 <=? 0) eqn:E; [apply Z.leb_le in E; lia|].
    reflexivity.
  - rewrite H2. apply andb_false_r.
Qed.

Lemma budget_for_next n s s' :
  budget_for n s -> params s' = params s -> n_remain s' = n_remain s - 1 ->
  budget_for (n - 1) s'.
Proof. unfold budget_for; intros [H|[H1 H2]] P R; rewrite P, R; lia. Qed.

Lemma budget_for_less n m s : m <= n -> budget_for n s -> budget_for m s.
Proof. unfold budget_for; lia. Qed.

Lemma budget_for_after n k s s' :
  budget_for n s -> 0 <= k -> params s' = params s ->
  n_remain s' = n_remain s - k -> budget_for (n - k) s'.
Proof. unfold budget_for; intros [H|[H1 H2]] K P R; rewrite P, R; lia. Qed.

Lemma quiet_tail_app phrase ts1 : forall w ts2,
  quiet_tail detok phrase w (ts1 ++ ts2)
  = quiet_tail detok phrase w ts1 && quiet_tail detok phrase (slide w ts1) ts2.
Proof.
  induction ts1 as [|t ts1 IH]; intros w ts2; simpl.
  - rewrite slide_nil. reflexivity.
  - rewrite IH, slide_slide. simpl. rewrite andb_assoc. reflexivity.
Qed.

Lemma tokens_of_scripted p ts :
  tokens_of (map (output_of p) ts) = ts.
Proof.
  unfold tokens_of. rewrite map_map. simpl. apply map_id.
Qed.

(** The buffered outputs of a prefix of the stop tokens match. *)
Lemma stop_match_prefix p (done : list llama_token) : forall todo,
  stop_match (map (output_of p) done) (done ++ todo) = Ok true.
Proof.
  induction done as [|t done IH]; intros todo; simpl; [reflexivity|].
  rewrite Z.eqb_refl. simpl. apply IH.
Qed.

Lemma stop_check_match s l done t todo phrase more :
  completion_result_list l = map (output_of (params s)) done ->
  inp_stop s = done ++ t :: todo ->
  antiprompt (params s) = phrase :: more ->
  0 < str_size phrase ->
  stop_check s (sampled l (output_of (params s) t))
  = Ok (true, match todo with [] => true | _ :: _ => false end).
Proof.
  intros Hc Hs Ha Hp. unfold stop_check, sampled.
  cbn [completion_result_list]. rewrite Hc, Hs, Ha. cbn [vector_at0 bind].
  replace (map (output_of (params s)) done
           ++ [output_of (params s) t])
    with (map (output_of (params s)) (done ++ [t]))
    by (rewrite map_app; reflexivity).
  replace (done ++ t :: todo) with ((done ++ [t]) ++ todo)
    by (rewrite <- app_assoc; reflexivity).
  assert (E : (size (map (output_of (params s)) (done ++ [t]))
               <=? size ((done ++ [t]) ++ todo)) = true).
  { apply Z.leb_le. unfold size. rewrite length_map, !length_app. lia. }
  rewrite E.
  destruct (0 <? str_size phrase) eqn:E0; [|apply Z.ltb_ge in E0; lia].
  rewrite stop_match_prefix. cbn [bind andb].
  f_equal. f_equal.
  unfold size. rewrite length_map, !length_app.
  destruct todo; cbn [List.length].
  - apply Z.eqb_eq. lia.
  - apply Z.eqb_neq. lia.
Qed.

Lemma prime_canceled s prompt add sP :
  prime s prompt add = Ok sP -> canceled sP = canceled s.
Proof.
  intros H. apply prime_inv in H.
  destruct H as ((_ & _ & _ & _ & _ & C & _) & _). exact C.
Qed.

(** What the callback saw is what the response holds. *)
Lemma callback_mirrors_response cb fuel s e s' l' :
  generation_loop fuel cb s new_locals = Ok (e, s', l') ->
  ghost_callback l' = (if cb then response l' else []).
Proof.
  intros H. apply generation_loop_frame in H.
  destruct H as (_ & (more & R & C) & _). simpl in R, C.
  rewrite C, R. destruct cb; reflexivity.
Qed.

Lemma generate_response_of_run fuel s prompt add cb why s' l' :
  0 < str_size prompt ->
  generate_response_run fuel s prompt add cb = Ok (Some why, s', l') ->
  generate_response fuel s prompt add cb = Ok (response l', release_grammar s').
Proof.
  intros Hp H. unfold generate_response.
  destruct (str_size prompt <=? 0) eqn:E; [apply Z.leb_le in E; lia|].
  rewrite H. reflexivity.
Qed.

(** One completed iteration that samples the script's next token [t], when
    the stop phrase is not at the tail of the window, [t] is not the end of
    sequence and nobody canceled. *)
Lemma loop_body_sampled cb s l c s' l' t rest phrase more m brk :
  loop_body cb s l = Ok (c, s', l') ->
  antiprompt (params s) = phrase :: more ->
  antiprompt_found (detok (window_after_eval s)) phrase = false ->
  ctx s = t :: rest ->
  t <> eos ->
  canceled s = false ->
  stop_check s (sampled l (output_of (params s) t)) = Ok (m, brk) ->
  c = (if brk then Break StopSequence
       else if budget_stops s then Break BudgetExhausted else Continue) /\
  l' = (if brk then set_stopping m (sampled l (output_of (params s) t))
        else send_text cb
               (set_stopping m (sampled l (output_of (params s) t)))) /\
  loop_frame s s' /\
  ctx s' = rest /\
  window_after_eval s' = slide (window_after_eval s) [t] /\
  n_remain s' = (if negb brk && budget_stops s then n_predict (params s)
                 else n_remain s - 1).
Proof.
  intros H Ha Hq Hc Ht Hcan Hsc.
  pose proof (loop_body_cases _ _ _ _ _ _ H) as (F & _).
  destruct (loop_body_entry _ _ _ _ _ _ H)
    as (sE & ph & He & Hcons & Hph & Hfound).
  pose proof (eval_consumes _ _ He Hcons) as Hw.
  pose proof (eval_ctx _ _ scripted_keeps_context He) as Hctx.
  pose proof (eval_frame _ _ He) as (FE & Hr & _).
  pose proof FE as (Pp & _ & _ & Pi & Pt & Pc & _ & _ & Pl).
  rewrite Pp, Ha in Hph. cbn [vector_at0] in Hph.
  assert (ph = phrase) by congruence. subst ph. clear Hph.
  change (@detokenize SB (last_n_tokens sE)) with (detok (last_n_tokens sE))
    in Hfound.
  rewrite Hw, Hq in Hfound.
  apply loop_body_inv in H. destruct H as (sE' & He' & H).
  assert (sE' = sE) by congruence. subst sE'. clear He'.
  destruct H as [(-> & _) | (c1 & out & w & m0 & Hs & Hpush & Hb & H)];
    [discriminate|].
  cbv zeta in H.
  rewrite (sample_scripted (set_is_antiprompt false sE) t rest) in Hs
    by (cbn [ctx set_is_antiprompt]; congruence).
  cbn [params set_is_antiprompt] in Hs. rewrite Pp in Hs.
  assert (Hout : out = output_of (params s) t) by congruence.
  assert (Hc1 : c1 = rest).
  { apply (f_equal fst) in Hs. apply (f_equal ctx) in Hs.
    cbn [fst ctx set_ctx] in Hs. congruence. }
  subst out c1. clear Hs.
  change (token (output_of (params s) t)) with t in *.
  rewrite Hw in Hpush.
  destruct (window_after_eval s) as [|x w0] eqn:Ew; [discriminate|].
  cbn [window_push] in Hpush.
  assert (w = slide (x :: w0) [t]) by (unfold slide; simpl; congruence).
  subst w. clear Hpush.
  set (sS := after_sampling sE rest (output_of (params s) t)
               (slide (x :: w0) [t])) in *.
  assert (PS : params sS = params s) by exact Pp.
  assert (IS : inp_stop sS = inp_stop s) by exact Pi.
  assert (RS : n_remain sS = n_remain s - 1)
    by (unfold sS, after_sampling; cbn [n_remain set_n_remain]; congruence).
  assert (CS : ctx sS = rest) by reflexivity.
  assert (WS : window_after_eval sS = slide (x :: w0) [t]).
  { unfold window_after_eval. rewrite pending_prompt_consumed by exact Hcons.
    rewrite slide_nil. reflexivity. }
  assert (FS : loop_frame s sS).
  { apply (loop_frame_trans _ _ _ FE).
    unfold loop_frame, sS, after_sampling; simpl.
    rewrite slide_length, Hw; simpl. intuition. }
  rewrite (stop_check_frame s sS _ IS PS), Hsc in H.
  unfold budget_stops. rewrite RS, PS in H.
  destruct H as [(_ & E & _) | (_ & [(_ & E & _) | (_ & H)])];
    [destruct (Ht E) | congruence |].
  destruct H as [(-> & E & -> & ->) | (E & -> & H)].
  { assert (m0 = m /\ brk = true) as (-> & ->) by (split; congruence).
    cbn [negb andb]. auto 10. }
  assert (m0 = m /\ brk = false) as (-> & ->) by (split; congruence).
  cbn [negb andb].
  destruct H as [(-> & Eb & ->) | (-> & Eb & ->)]; rewrite Eb.
  - split; [reflexivity|]. split; [reflexivity|].
    split; [exact FS|]. split; [exact CS|]. split; [exact WS|].
    reflexivity.
  - auto 10.
Qed.

Lemma generation_loop_rests cb s l r :
  n_remain s <> 0 -> generation_loop O cb s l = Ok r -> r = (None, s, l).
Proof.
  intros Hn H. cbn [generation_loop] in H.
  destruct (n_remain s =? 0) eqn:E; [apply Z.eqb_eq in E; contradiction|].
  congruence.
Qed.

(** Buffered stop tokens followed by another token do not match. *)
Lemma stop_match_mismatch p (done : list llama_token) t h todo :
  t <> h ->
  stop_match (map (output_of p) done ++ [output_of p t]) (done ++ h :: todo)
  = Ok false.
Proof.
  intros Ht. induction done as [|d done IH]; simpl.
  - destruct (t =? h) eqn:E; [apply Z.eqb_eq in E; contradiction|].
    reflexivity.
  - rewrite Z.eqb_refl. simpl. exact IH.
Qed.

Lemma stop_check_mismatch s l done t h todo phrase more :
  completion_result_list l = map (output_of (params s)) done ->
  inp_stop s = done ++ h :: todo ->
  antiprompt (params s) = phrase :: more ->
  t <> h ->
  stop_check s (sampled l (output_of (params s) t)) = Ok (false, false).
Proof.
  intros Hc Hs Ha Ht. unfold stop_check, sampled.
  cbn [completion_result_list]. rewrite Hc, Hs, Ha. cbn [vector_at0 bind].
  destruct (size _ <=? size _); [|reflexivity].
  destruct (0 <? str_size phrase); [|reflexivity].
  rewrite stop_match_mismatch by exact Ht. reflexivity.
Qed.

(** The tokens [ts] leave the loop running, and the buffer as the matcher
    tells: what was sampled is delivered but for the stop tokens [done']
    matched at the end. *)
Lemma matcher_run cb phrase more stop rest f r todo' :
  forall ts done todo s l,
  generation_loop (List.length ts + f) cb s l = Ok r ->
  antiprompt (params s) = phrase :: more ->
  0 < str_size phrase ->
  inp_stop s = stop ->
  stop = done ++ todo ->
  canceled s = false ->
  ctx s = ts ++ rest ->
  ~ In eos ts ->
  quiet_tail detok phrase (window_after_eval s) ts = true ->
  budget_for (size ts + 1) s ->
  completion_result_list l = map (output_of (params s)) done ->
  stop_matcher stop todo ts = Some todo' ->
  exists s1 l1 done' delivered,
    generation_loop f cb s1 l1 = Ok r /\
    loop_frame s s1 /\
    ctx s1 = rest /\
    window_after_eval s1 = slide (window_after_eval s) ts /\
    n_remain s1 = n_remain s - size ts /\
    stop = done' ++ todo' /\
    done ++ ts = delivered ++ done' /\
    completion_result_list l1 = map (output_of (params s)) done' /\
    response l1 = response l ++ map (output_of (params s)) delivered /\
    ghost_callback l1
    = ghost_callback l
      ++ (if cb then map (output_of (params s)) delivered else []).
Proof.
  induction ts as [|t ts IH];
    intros done todo s l Hrun Ha Hph Hs Hsplit Hcan Hc He Hq Hb Hl Hm.
  - cbn [stop_matcher] in Hm. injection Hm as <-.
    exists s, l, done, []. cbn [List.length Nat.add] in Hrun.
    rewrite slide_nil, !app_nil_r. unfold size; simpl. rewrite Z.sub_0_r.
    split; [exact Hrun|]. split; [apply loop_frame_refl|].
    destruct cb; rewrite ?app_nil_r; auto 10.
  - simpl in Hq. apply andb_true_iff in Hq. destruct Hq as (Hq1 & Hq2).
    apply negb_true_iff in Hq1.
    assert (Hsz : size (t :: ts) = size ts + 1)
      by (unfold size; cbn [List.length]; lia).
    assert (Hp0 : 0 <= size ts) by (unfold size; lia).
    assert (Hent : n_remain s <> 0)
      by (apply (budget_for_enters (size (t :: ts) + 1)); [lia | exact Hb]).
    cbn [List.length Nat.add] in Hrun.
    destruct (generation_loop_enters _ _ _ _ _ Hent Hrun)
      as (c & s1 & l1 & Hbody & Hnext).
    assert (Hgo : budget_stops s = false)
      by (apply (budget_for_goes_on (size (t :: ts) + 1)); [lia | exact Hb]).
    assert (Hteos : t <> eos) by (intros E; apply He; left; auto).
    assert (Heos : ~ In eos ts) by (intros E; apply He; right; exact E).
    cbn [stop_matcher] in Hm.
    destruct todo as [|h todo1]; [discriminate|].
    destruct (t =? h) eqn:Eh.
    + apply Z.eqb_eq in Eh. subst h.
      destruct todo1 as [|h2 todo2]; [discriminate|].
      pose proof (stop_check_match s l done t (h2 :: todo2) phrase more Hl
                    (eq_trans Hs Hsplit) Ha Hph) as Hsc.
      destruct (loop_body_sampled _ _ _ _ _ _ _ _ _ _ _ _ Hbody Ha Hq1 Hc
                  Hteos Hcan Hsc) as (-> & -> & F1 & C1 & W1 & R1).
      rewrite Hgo in Hnext, R1. cbn [negb andb] in R1.
      pose proof F1 as (Pp & _ & _ & Pi & _ & Pc & _).
      destruct (IH (done ++ [t]) (h2 :: todo2) s1 _ Hnext)
        as (s2 & l2 & done' & delivered & Hrun2 & F2 & C2 & W2 & R2 & Hsp2
            & Hd2 & Hl2 & Hr2 & Hg2); try assumption.
      { rewrite Pp; exact Ha. }
      { rewrite Pi; exact Hs. }
      { rewrite Hsplit, <- app_assoc. reflexivity. }
      { rewrite Pc; exact Hcan. }
      { rewrite W1. exact Hq2. }
      { apply (budget_for_next (size (t :: ts) + 1) s) in R1;
          try assumption.
        replace (size ts + 1) with (size (t :: ts) + 1 - 1) by lia.
        exact R1. }
      { rewrite Pp. unfold send_text, set_stopping, sampled.
        cbn [input_noecho stopping completion_result_list negb].
        rewrite Hl, map_app. reflexivity. }
      exists s2, l2, done', delivered. rewrite Pp in *.
      split; [exact Hrun2|].
      split; [exact (loop_frame_trans _ _ _ F1 F2)|].
      split; [exact C2|].
      split; [rewrite W2, W1, slide_slide; reflexivity|].
      split; [rewrite R2, R1; lia|].
      split; [exact Hsp2|].
      split; [rewrite <- Hd2, <- app_assoc; reflexivity|].
      split; [exact Hl2|].
      split; [exact Hr2 | exact Hg2].
    + apply Z.eqb_neq in Eh.
      pose proof (stop_check_mismatch s l done t h todo1 phrase more Hl
                    (eq_trans Hs Hsplit) Ha Eh) as Hsc.
      destruct (loop_body_sampled _ _ _ _ _ _ _ _ _ _ _ _ Hbody Ha Hq1 Hc
                  Hteos Hcan Hsc) as (-> & -> & F1 & C1 & W1 & R1).
      rewrite Hgo in Hnext, R1. cbn [negb andb] in R1.
      pose proof F1 as (Pp & _ & _ & Pi & _ & Pc & _).
      destruct (IH [] stop s1 _ Hnext)
        as (s2 & l2 & done' & delivered & Hrun2 & F2 & C2 & W2 & R2 & Hsp2
            & Hd2 & Hl2 & Hr2 & Hg2); try assumption.
      { rewrite Pp; exact Ha. }
      { rewrite Pi; exact Hs. }
      { reflexivity. }
      { rewrite Pc; exact Hcan. }
      { rewrite W1. exact Hq2. }
      { apply (budget_for_next (size (t :: ts) + 1) s) in R1;
          try assumption.
        replace (size ts + 1) with (size (t :: ts) + 1 - 1) by lia.
        exact R1. }
      { reflexivity. }
      exists s2, l2, done', ((done ++ [t]) ++ delivered). rewrite Pp in *.
      split; [exact Hrun2|].
      split; [exact (loop_frame_trans _ _ _ F1 F2)|].
      split; [exact C2|].
      split; [rewrite W2, W1, slide_slide; reflexivity|].
      split; [rewrite R2, R1; lia|].
      split; [exact Hsp2|].
      split.
      { cbn [app] in Hd2. rewrite Hd2, <- !app_assoc. reflexivity. }
      split; [exact Hl2|].
      rewrite Hr2, Hg2. unfold send_text, set_stopping, sampled.
      cbn [input_noecho stopping response completion_result_list
           ghost_callback negb].
      rewrite Hl, !map_app. cbn [map].
      split; [rewrite <- !app_assoc; reflexivity|].
      destruct cb; rewrite <- ?app_assoc, ?app_nil_r; reflexivity.
Qed.

(** The stop tokens are buffered as they come, and the last one ends the
    loop. *)
Lemma withhold_stop cb phrase more rest f r : forall todo done s l,
  generation_loop (List.length todo + f) cb s l = Ok r ->
  antiprompt (params s) = phrase :: more ->
  0 < str_size phrase ->
  inp_stop s = done ++ todo ->
  todo <> [] ->
  canceled s = false ->
  ctx s = todo ++ rest ->
  ~ In eos todo ->
  quiet_tail detok phrase (window_after_eval s) todo = true ->
  budget_for (size todo) s ->
  completion_result_list l = map (output_of (params s)) done ->
  exists s' l',
    r = (Some StopSequence, s', l') /\
    loop_frame s s' /\
    ctx s' = rest /\
    response l' = response l /\
    ghost_callback l' = ghost_callback l /\
    completion_result_list l' = map (output_of (params s)) (done ++ todo).
Proof.
  induction todo as [|t todo IH];
    intros done s l Hrun Ha Hph Hs Hne Hcan Hc He Hq Hb Hl; [contradiction|].
  simpl in Hq. apply andb_true_iff in Hq. destruct Hq as (Hq1 & Hq2).
  apply negb_true_iff in Hq1.
  assert (Hsz : size (t :: todo) = size todo + 1)
    by (unfold size; cbn [List.length]; lia).
  assert (Hp0 : 0 <= size todo) by (unfold size; lia).
  assert (Hent : n_remain s <> 0)
    by (apply (budget_for_enters (size (t :: todo))); [lia | exact Hb]).
  assert (Hteos : t <> eos) by (intros E; apply He; left; auto).
  cbn [List.length Nat.add] in Hrun.
  destruct (generation_loop_enters _ _ _ _ _ Hent Hrun)
    as (c & s1 & l1 & Hbody & Hnext).
  pose proof (stop_check_match s l done t todo phrase more Hl Hs Ha Hph) as Hsc.
  destruct todo as [|t2 todo].
  - destruct (loop_body_sampled _ _ _ _ _ _ _ _ _ _ _ _ Hbody Ha Hq1 Hc
                Hteos Hcan Hsc) as (-> & -> & F1 & C1 & _).
    exists s1, (set_stopping true (sampled l (output_of (params s) t))).
    split; [exact Hnext|]. split; [exact F1|]. split; [exact C1|].
    unfold set_stopping, sampled; cbn [response ghost_callback
                                       completion_result_list].
    split; [reflexivity|]. split; [reflexivity|].
    rewrite Hl, map_app. reflexivity.
  - destruct (loop_body_sampled _ _ _ _ _ _ _ _ _ _ _ _ Hbody Ha Hq1 Hc
                Hteos Hcan Hsc) as (-> & -> & F1 & C1 & W1 & R1).
    assert (Hsz2 : size (t2 :: todo) = size todo + 1)
      by (unfold size; cbn [List.length]; lia).
    assert (Hp2 : 0 <= size todo) by (unfold size; lia).
    rewrite (budget_for_goes_on (size (t :: t2 :: todo)) s) in Hnext, R1
      by (assumption || lia).
    cbn [negb andb] in R1.
    pose proof F1 as (Pp & _ & _ & Pi & _ & Pc & _).
    destruct (IH (done ++ [t]) s1 _ Hnext)
      as (s' & l' & Hr & F' & C' & Rs' & G' & Cl'); try assumption.
    { rewrite Pp; exact Ha. }
    { rewrite Pi, Hs, <- app_assoc. reflexivity. }
    { discriminate. }
    { rewrite Pc; exact Hcan. }
    { intros E. apply He. right; exact E. }
    { rewrite W1. exact Hq2. }
    { apply (budget_for_next (size (t :: t2 :: todo)) s) in R1;
        try assumption.
      replace (size (t2 :: todo)) with (size (t :: t2 :: todo) - 1) by lia.
      exact R1. }
    { rewrite Pp. unfold send_text, set_stopping, sampled.
      cbn [input_noecho stopping completion_result_list negb].
      rewrite Hl, map_app. reflexivity. }
    exists s', l'.
    split; [exact Hr|].
    split; [exact (loop_frame_trans _ _ _ F1 F')|].
    split; [exact C'|].
    rewrite Rs', G', Cl', Pp, <- app_assoc.
    split; [reflexivity|]. split; reflexivity.
Qed.

Lemma app_tail_nil {A : Type} (a b : list A) : b = a ++ b -> a = [].
Proof.
  intros H. apply (f_equal (@List.length A)) in H. rewrite length_app in H.
  destruct a; [reflexivity | simpl in H; lia].
Qed.

(** C1 (as amended). Let the sampler yield the tokens [p], then the stop
    sequence, then anything, where the matcher of lines 270-302 holds
    nothing back after [p] ([stop_matcher stop stop p = Some stop]: the
    buffer is empty when the stop sequence starts).  With room in the budget
    for these tokens, none of them the end of sequence, and with no stop
    phrase at the tail of the window before they are sampled, every call
    that completes (none of its steps is undefined) leaves the loop on the
    stop sequence, returns exactly [p], has delivered exactly [p] to the
    callback, holds the stop tokens back, and samples nothing after them.
    On a steady session the call completes. *)
Theorem stop_sequence_withheld_after_clean_prefix
    fuel s sP prompt add cb p stop rest phrase more :
  0 < str_size prompt ->
  prime (set_canceled false s) prompt add = Ok sP ->
  inp_stop sP = stop -> stop <> [] ->
  antiprompt (params sP) = phrase :: more -> 0 < str_size phrase ->
  ctx sP = p ++ stop ++ rest ->
  stop_matcher stop stop p = Some stop ->
  ~ In eos (p ++ stop) ->
  quiet_tail detok phrase (window_after_eval sP) (p ++ stop) = true ->
  budget_for (size (p ++ stop)) sP ->
  (List.length (p ++ stop) <= fuel)%nat ->
  (forall e s' l',
     generate_response_run fuel s prompt add cb = Ok (e, s', l') ->
     e = Some StopSequence /\
     generate_response fuel s prompt add cb
     = Ok (response l', release_grammar s') /\
     tokens_of (response l') = p /\
     ghost_callback l' = (if cb then response l' else []) /\
     tokens_of (completion_result_list l') = stop /\
     ctx s' = rest) /\
  (steady sP ->
   exists s' l',
     generate_response_run fuel s prompt add cb
     = Ok (Some StopSequence, s', l')).
Proof.
  intros Hpr Hprime Hs Hne Ha Hph Hc Hm He Hq Hb Hf.
  assert (Main : forall e s' l',
     generate_response_run fuel s prompt add cb = Ok (e, s', l') ->
     e = Some StopSequence /\
     generate_response fuel s prompt add cb
     = Ok (response l', release_grammar s') /\
     tokens_of (response l') = p /\
     ghost_callback l' = (if cb then response l' else []) /\
     tokens_of (completion_result_list l') = stop /\
     ctx s' = rest).
  { intros e s' l' Hrun. pose proof Hrun as Hloop.
    unfold generate_response_run in Hloop. rewrite Hprime in Hloop.
    cbn [bind] in Hloop.
    pose proof (prime_canceled _ _ _ _ Hprime) as Hcan. simpl in Hcan.
    rewrite quiet_tail_app in Hq. apply andb_true_iff in Hq.
    destruct Hq as (Hq1 & Hq2).
    assert (Hsz : size (p ++ stop) = size p + size stop)
      by (unfold size; rewrite length_app; lia).
    assert (Hp0 : 0 <= size p) by (unfold size; lia).
    assert (Hs1 : 1 <= size stop).
    { destruct stop; [contradiction | unfold size; cbn [List.length]; lia]. }
    rewrite length_app in Hf.
    set (f := (fuel - (List.length p + List.length stop))%nat).
    assert (Hfuel : fuel = (List.length p + (List.length stop + f))%nat)
      by (unfold f; lia).
    rewrite Hfuel in Hloop.
    destruct (matcher_run cb phrase more stop (stop ++ rest) _ _ stop
                p [] stop sP new_locals Hloop)
      as (s1 & l1 & done' & delivered & Hloop1 & F1 & C1 & W1 & R1 & Hsp
          & Hd & Hl1 & Rs1 & G1); try assumption.
    { reflexivity. }
    { intros E. apply He. apply in_or_app. left; exact E. }
    { apply (budget_for_less (size (p ++ stop))); [lia | exact Hb]. }
    { reflexivity. }
    apply app_tail_nil in Hsp. subst done'.
    cbn [app] in Hd. rewrite app_nil_r in Hd. subst delivered.
    pose proof F1 as (Pp & _ & _ & Pi & _ & Pc & _).
    destruct (withhold_stop cb phrase more rest f _ stop [] s1 l1 Hloop1)
      as (s2 & l2 & Hr & F2 & C2 & Rs2 & G2 & Cl2); try assumption.
    { rewrite Pp; exact Ha. }
    { rewrite Pi; exact Hs. }
    { rewrite Pc; exact Hcan. }
    { intros E. apply He. apply in_or_app. right; exact E. }
    { rewrite W1. exact Hq2. }
    { replace (size stop) with (size (p ++ stop) - size p) by lia.
      apply (budget_for_after _ _ sP); assumption. }
    injection Hr as -> -> ->.
    split; [reflexivity|].
    split; [apply (generate_response_of_run _ _ _ _ _ _ _ _ Hpr Hrun)|].
    split.
    { rewrite Rs2, Rs1. cbn [response new_locals app].
      apply tokens_of_scripted. }
    split; [exact (callback_mirrors_response _ _ _ _ _ _ Hloop)|].
    split; [|exact C2].
    rewrite Cl2. cbn [app]. apply tokens_of_scripted. }
  split; [exact Main|].
  intros St.
  destruct (generation_loop_total cb fuel sP new_locals St)
    as (e & s' & l' & Hl & _).
  { rewrite Ha. discriminate. }
  assert (Hrun : generate_response_run fuel s prompt add cb = Ok (e, s', l')).
  { unfold generate_response_run. rewrite Hprime. exact Hl. }
  destruct (Main _ _ _ Hrun) as (-> & _).
  exists s', l'. exact Hrun.
Qed.

(** C4. With the stop tokens [5; 9] and a sampler that yields 5, 7, 3, with
    room in the budget for three tokens, none of them the end of sequence,
    and no stop phrase at the tail of the window before they are sampled,
    every call that completes (none of its steps is undefined) goes like
    this: after the first iteration 5 is buffered and nothing is delivered;
    the second delivers 5 and 7 together, in this order; the third delivers
    3; and the response of a call of three iterations or more starts with
    5, 7, 3, which is also what the callback received.  On a steady session
    the call completes, and it returns once it is given more fuel than
    there is script. *)
Theorem partial_match_is_flushed
    fuel s sP prompt add cb rest phrase more :
  0 < str_size prompt ->
  prime (set_canceled false s) prompt add = Ok sP ->
  inp_stop sP = [5; 9] ->
  antiprompt (params sP) = phrase :: more -> 0 < str_size phrase ->
  ctx sP = 5 :: 7 :: 3 :: rest ->
  ~ In eos [5; 7; 3] ->
  quiet_tail detok phrase (window_after_eval sP) [5; 7; 3] = true ->
  budget_for 3 sP ->
  (forall e s1 l1,
     generation_loop 1 cb sP new_locals = Ok (e, s1, l1) ->
     e = None /\ response l1 = [] /\ ghost_callback l1 = [] /\
     tokens_of (completion_result_list l1) = [5]) /\
  (forall e s2 l2,
     generation_loop 2 cb sP new_locals = Ok (e, s2, l2) ->
     e = None /\ tokens_of (response l2) = [5; 7] /\
     completion_result_list l2 = [] /\
     ghost_callback l2 = (if cb then response l2 else [])) /\
  (forall e s3 l3,
     generation_loop 3 cb sP new_locals = Ok (e, s3, l3) ->
     tokens_of (response l3) = [5; 7; 3] /\
     completion_result_list l3 = [] /\
     ghost_callback l3 = (if cb then response l3 else [])) /\
  (forall e s' l',
     (3 <= fuel)%nat ->
     generate_response_run fuel s prompt add cb = Ok (e, s', l') ->
     (exists more_out, tokens_of (response l') = 5 :: 7 :: 3 :: more_out) /\
     ghost_callback l' = (if cb then response l' else []) /\
     (e <> None ->
      generate_response fuel s prompt add cb
      = Ok (response l', release_grammar s'))) /\
  (steady sP ->
   (exists s1 l1, generation_loop 1 cb sP new_locals = Ok (None, s1, l1)) /\
   (exists s2 l2, generation_loop 2 cb sP new_locals = Ok (None, s2, l2)) /\
   ((List.length (ctx sP) < fuel)%nat ->
    exists why s' l',
      generate_response_run fuel s prompt add cb = Ok (Some why, s', l') /\
      generate_response fuel s prompt add cb
      = Ok (response l', release_grammar s'))).
Proof.
  intros Hpr Hprime Hs Ha Hph Hc He Hq Hb.
  pose proof (prime_canceled _ _ _ _ Hprime) as Hcan. simpl in Hcan.
  assert (He1 : ~ In eos [5]) by (intros [E|[]]; apply He; left; exact E).
  assert (He2 : ~ In eos [5; 7]).
  { intros [E|[E|[]]]; apply He; [left | right; left]; exact E. }
  assert (He3 : 3 <> eos) by (intros E; apply He; right; right; left; exact E).
  assert (Hq1 : quiet_tail detok phrase (window_after_eval sP) [5] = true).
  { change [5; 7; 3] with ([5] ++ [7; 3]) in Hq. rewrite quiet_tail_app in Hq.
    apply andb_true_iff in Hq. tauto. }
  change [5; 7; 3] with ([5; 7] ++ [3]) in Hq. rewrite quiet_tail_app in Hq.
  apply andb_true_iff in Hq. destruct Hq as (Hq2 & Hq3).
  cbn [quiet_tail] in Hq3. rewrite andb_true_r in Hq3.
  apply negb_true_iff in Hq3.
  (* the first token: 5 starts a match and is buffered *)
  assert (One : forall f r,
    generation_loop (1 + f) cb sP new_locals = Ok r ->
    exists s1 l1,
      generation_loop f cb s1 l1 = Ok r /\ n_remain s1 = n_remain sP - 1 /\
      response l1 = [] /\ ghost_callback l1 = [] /\
      tokens_of (completion_result_list l1) = [5]).
  { intros f r Hrun.
    destruct (matcher_run cb phrase more [5; 9] (7 :: 3 :: rest) f r [9]
                [5] [] [5; 9] sP new_locals Hrun)
      as (s1 & l1 & done' & delivered & Hloop1 & F1 & C1 & W1 & R1 & Hsp
          & Hd & Hl1 & Rs1 & G1); try assumption; try reflexivity.
    { apply (budget_for_less 3); [unfold size; simpl; lia | exact Hb]. }
    change [5; 9] with ([5] ++ [9]) in Hsp. apply app_inv_tail in Hsp.
    subst done'. cbn [app] in Hd. apply app_tail_nil in Hd.
    subst delivered.
    exists s1, l1. split; [exact Hloop1|]. split; [exact R1|].
    rewrite Rs1, G1, Hl1. cbn [response ghost_callback new_locals app map].
    split; [reflexivity|]. split; [destruct cb; reflexivity | reflexivity]. }
  (* the second token: 7 breaks the match, both are delivered *)
  assert (Two : forall f r,
    generation_loop (2 + f) cb sP new_locals = Ok r ->
    exists s2 l2,
      generation_loop f cb s2 l2 = Ok r /\ loop_frame sP s2 /\
      ctx s2 = 3 :: rest /\
      window_after_eval s2 = slide (window_after_eval sP) [5; 7] /\
      n_remain s2 = n_remain sP - 2 /\
      completion_result_list l2 = [] /\
      response l2 = map (output_of (params sP)) [5; 7]).
  { intros f r Hrun.
    destruct (matcher_run cb phrase more [5; 9] (3 :: rest) f r [5; 9]
                [5; 7] [] [5; 9] sP new_locals Hrun)
      as (s2 & l2 & done' & delivered & Hloop2 & F2 & C2 & W2 & R2 & Hsp
          & Hd & Hl2 & Rs2 & G2); try assumption; try reflexivity.
    apply app_tail_nil in Hsp. subst done'.
    cbn [app] in Hd. rewrite app_nil_r in Hd. subst delivered.
    exists s2, l2. split; [exact Hloop2|]. split; [exact F2|].
    split; [exact C2|]. split; [exact W2|]. split; [exact R2|].
    split; [exact Hl2 | exact Rs2]. }
  (* the third token: 3 is delivered at once *)
  assert (Three : forall f e s' l',
    generation_loop (3 + f) cb sP new_locals = Ok (e, s', l') ->
    exists more_out,
      response l' = map (output_of (params sP)) [5; 7; 3] ++ more_out /\
      (f = O -> more_out = [] /\ completion_result_list l' = [])).
  { intros f e s' l' Hrun.
    destruct (Two (S f) _ Hrun)
      as (s2 & l2 & Hloop2 & F2 & C2 & W2 & R2 & Hl2 & Rs2).
    pose proof F2 as (P2 & _ & _ & I2 & _ & K2 & _).
    assert (N2 : n_remain s2 <> 0) by (unfold budget_for in Hb; lia).
    destruct (generation_loop_enters _ _ _ _ _ N2 Hloop2)
      as (c & s3 & l3 & Hbody & Hnext).
    assert (Hsc : stop_check s2 (sampled l2 (output_of (params s2) 3))
                  = Ok (false, false)).
    { apply (stop_check_mismatch s2 l2 [] 3 5 [9] phrase more).
      - exact Hl2.
      - rewrite I2; exact Hs.
      - rewrite P2; exact Ha.
      - discriminate. }
    assert (Ha2 : antiprompt (params s2) = phrase :: more)
      by (rewrite P2; exact Ha).
    assert (Hq2' : antiprompt_found (detok (window_after_eval s2)) phrase
                   = false) by (rewrite W2; exact Hq3).
    assert (Hcan2 : canceled s2 = false) by (rewrite K2; exact Hcan).
    destruct (loop_body_sampled _ _ _ _ _ _ _ _ _ _ _ _ Hbody Ha2 Hq2' C2
                He3 Hcan2 Hsc) as (-> & -> & F3 & _).
    set (l3 := send_text cb _) in *.
    assert (Hr3 : response l3 = map (output_of (params sP)) [5; 7; 3]).
    { unfold l3, send_text, set_stopping, sampled.
      cbn [input_noecho stopping response completion_result_list negb].
      rewrite Rs2, Hl2, P2. reflexivity. }
    assert (Hc3 : completion_result_list l3 = []) by reflexivity.
    destruct (budget_stops s2).
    - injection Hnext as -> -> ->. exists []. rewrite app_nil_r.
      split; [exact Hr3|]. intros _. auto.
    - destruct f as [|f].
      + cbn [generation_loop] in Hnext.
        assert (l' = l3) by (destruct (n_remain s3 =? 0); congruence).
        subst l'. exists []. rewrite app_nil_r.
        split; [exact Hr3|]. intros _. auto.
      + apply generation_loop_frame in Hnext.
        destruct Hnext as (_ & (more_out & R & _) & _).
        exists more_out. rewrite R, Hr3.
        split; [reflexivity | discriminate]. }
  assert (N1 : forall s1, n_remain s1 = n_remain sP - 1 -> n_remain s1 <> 0)
    by (unfold budget_for in Hb; intros; lia).
  assert (N2 : forall s2, n_remain s2 = n_remain sP - 2 -> n_remain s2 <> 0)
    by (unfold budget_for in Hb; intros; lia).
  assert (P1 : forall e s1 l1,
     generation_loop 1 cb sP new_locals = Ok (e, s1, l1) ->
     e = None /\ response l1 = [] /\ ghost_callback l1 = [] /\
     tokens_of (completion_result_list l1) = [5]).
  { intros e s1 l1 H.
    destruct (One O _ H) as (s1' & l1' & Hrest & R1 & Hr & Hg & Hl).
    apply generation_loop_rests in Hrest; [|exact (N1 _ R1)].
    injection Hrest as -> -> ->. auto. }
  assert (P2 : forall e s2 l2,
     generation_loop 2 cb sP new_locals = Ok (e, s2, l2) ->
     e = None /\ tokens_of (response l2) = [5; 7] /\
     completion_result_list l2 = [] /\
     ghost_callback l2 = (if cb then response l2 else [])).
  { intros e s2 l2 H.
    destruct (Two O _ H) as (s2' & l2' & Hrest & _ & _ & _ & R2 & Hl & Hr).
    apply generation_loop_rests in Hrest; [|exact (N2 _ R2)].
    injection Hrest as -> -> ->.
    split; [reflexivity|]. split; [rewrite Hr; apply tokens_of_scripted|].
    split; [exact Hl|].
    exact (callback_mirrors_response _ _ _ _ _ _ H). }
  split; [exact P1|]. split; [exact P2|].
  split.
  { intros e s3 l3 H.
    destruct (Three O _ _ _ H) as (more_out & Hr & Hend).
    destruct (Hend eq_refl) as (-> & Hl). rewrite app_nil_r in Hr.
    split; [rewrite Hr; apply tokens_of_scripted|].
    split; [exact Hl|].
    exact (callback_mirrors_response _ _ _ _ _ _ H). }
  split.
  { intros e s' l' Hf Hrun. pose proof Hrun as Hloop.
    unfold generate_response_run in Hloop. rewrite Hprime in Hloop.
    cbn [bind] in Hloop.
    split.
    { replace fuel with (3 + (fuel - 3))%nat in Hloop by lia.
      destruct (Three _ _ _ _ Hloop) as (more_out & Hr & _).
      exists (tokens_of more_out). rewrite Hr. unfold tokens_of.
      rewrite map_app. fold (tokens_of (map (output_of (params sP)) [5; 7; 3])).
      rewrite tokens_of_scripted. reflexivity. }
    split; [exact (callback_mirrors_response _ _ _ _ _ _ Hloop)|].
    intros Hne. destruct e as [why|]; [|contradiction].
    apply (generate_response_of_run _ _ _ _ _ _ _ _ Hpr Hrun). }
  intros St.
  assert (Hant : antiprompt (params sP) <> []) by (rewrite Ha; discriminate).
  split.
  { destruct (generation_loop_total cb 1 sP new_locals St Hant)
      as (e & s1 & l1 & Hl & _).
    destruct (P1 _ _ _ Hl) as (-> & _). eauto. }
  split.
  { destruct (generation_loop_total cb 2 sP new_locals St Hant)
      as (e & s2 & l2 & Hl & _).
    destruct (P2 _ _ _ Hl) as (-> & _). eauto. }
  intros Hf.
  destruct (generation_loop_total cb fuel sP new_locals St Hant)
    as (e & s' & l' & Hl & Hend).
  destruct e as [why|]; [|destruct (Hend Hf eq_refl)].
  assert (Hrun : generate_response_run fuel s prompt add cb
                 = Ok (Some why, s', l')).
  { unfold generate_response_run. rewrite Hprime. exact Hl. }
  exists why, s', l'. split; [exact Hrun|].
  apply (generate_response_of_run _ _ _ _ _ _ _ _ Hpr Hrun).
Qed.

End Scripted.

(** ** Examples and counterexamples on the byte backend *)

(** Closed side conditions of the examples. *)
Ltac closed :=
  vm_compute;
  first [ reflexivity | discriminate | (intro; discriminate)
        | (let H := fresh in intro H; apply H; reflexivity)
        | (split; first [reflexivity | discriminate | (intro; discriminate)]) ].

Ltac conjuncts := repeat match goal with |- _ /\ _ => split end.

(** The stop sequence of the specification: with stop tokens [5; 9] and a
    sampler that yields 1, 5, 9, 3 the call returns [1] alone. *)
Example stop_sequence_is_withheld :
  returned_tokens (generate_response 100 (fresh 8 (-1) [1; 5; 9; 3]) "a" false true)
  = Ok [1].
Proof. closed. Qed.

(** C6: the failing input.  With a batch capacity of 1 the two prompt tokens
    of ["a"] (the beginning-of-sequence token and the letter) take two
    iterations; after the first [eval] one token is left to consume, the
    batch is empty, and the end-of-sequence check reads its last element. *)
Theorem back_of_empty_batch_while_consuming :
  let s := result_of (fresh 1 (-1) [5; 7; 3])
             (prime (fresh 1 (-1) [5; 7; 3]) "a" false) in
  let s1 := result_of s (eval s) in
  prompt_tokens s = [1; 97] /\
  eval s = Ok s1 /\
  batch_tokens s1 = [] /\ n_consumed s1 = 1 /\ size (prompt_tokens s1) = 2 /\
  loop_body true s new_locals = Fault BackOfEmpty /\
  generate_response 100 (fresh 1 (-1) [5; 7; 3]) "a" false true
    = Fault BackOfEmpty.
Proof.
  cbv zeta. conjuncts; closed.
Qed.

(** C2: the failing input.  A session built with a context and a batch
    capacity of 16 answers the input ["a"] with eight tokens, which leaves
    the position at 10 and the last sampled token pending.  A second call
    with an input of twelve letters then drains them into the batch:
    thirteen tokens are pending, position plus pending exceeds the capacity,
    and the slice of [n_left / 2 = 5] tokens that ends 13 tokens before the
    end of the 16-token window would begin at index -2.  The iterator range
    of lines 347-351 starts before the vector: no eviction and no
    evaluation is defined. *)
Theorem eviction_reads_before_the_window :
  let s0 := fresh 16 (-1) [4; 4; 4; 4; 4; 4; 4; 4] in
  let s := entering half_full "abcdefghijkl" false in
  let s1 := result_of s (drain (List.length (prompt_tokens s)) s) in
  @Llama_new byte_backend (demo_params 16 (-1) "" "" "" stop_5_9)
    [4; 4; 4; 4; 4; 4; 4; 4] = Ok s0 /\
  generate_response 100 s0 "a" false true
  = Ok (response (snd (result_of (None, s0, new_locals)
                         (generate_response_run 100 s0 "a" false true))),
        half_full) /\
  returned_tokens (generate_response 100 s0 "a" false true)
  = Ok [4; 4; 4; 4; 4; 4; 4; 4] /\
  drain (List.length (prompt_tokens s)) s = Ok s1 /\
  n_past s1 = 10 /\ size (batch_tokens s1) = 13 /\
  get_n_ctx s1 = 16 /\ size (last_n_tokens s1) = 16 /\
  n_keep (params s1) = 0 /\
  n_past s1 + size (batch_tokens s1) > get_n_ctx s1 /\
  get_n_ctx s1 - Z.quot (n_past s1 - n_keep (params s1)) 2
    - size (batch_tokens s1) = -2 /\
  context_swap s1 = Fault BadIteratorRange /\
  eval s = Fault BadIteratorRange /\
  generate_response 100 half_full "abcdefghijkl" false true
  = Fault BadIteratorRange.
Proof.
  cbv zeta. conjuncts; closed.
Qed.

(** C7 as stated does not hold.  A session is canceled, then asked to generate: the
    call runs to the end of the script and returns four tokens. *)
Lemma cancel_before_call_counterexample :
  canceled (cancel (fresh 8 (-1) [5; 7; 3; 4])) = true /\
  returned_tokens
    (generate_response 100 (cancel (fresh 8 (-1) [5; 7; 3; 4])) "a" false true)
  = Ok [5; 7; 3; 4] /\
  ~ (List.length [5; 7; 3; 4] <= 1)%nat.
Proof.
  split; [closed|]. split; [closed|]. simpl; lia.
Qed.

(** The amended C7 at an iteration that starts with the flag raised. *)
Lemma cancel_before_call_is_cleared_witness :
  canceled (cancel (fresh 8 (-1) [5; 7; 3; 4])) = true /\
  response (snd (result_of (Continue, fresh 8 (-1) [], new_locals)
             (loop_body true (cancel (fresh 8 (-1) [5; 7; 3; 4])) new_locals)))
  = [].
Proof.
  split; [closed|].
  destruct (loop_body true (cancel (fresh 8 (-1) [5; 7; 3; 4])) new_locals)
    as [[[c s'] l']|f] eqn:H; [|reflexivity].
  exact (proj1 (proj2 (proj2 (cancel_before_call_is_cleared (B:=byte_backend)
           O (cancel (fresh 8 (-1) [5; 7; 3; 4])) "a" false true)
           new_locals c s' l' eq_refl H))).
Defined.

(** C10 at a session without the embedding flag. *)
Lemma generate_embeddings_gate_witness :
  generate_embeddings (fresh 8 (-1) [5; 7; 3]) "a"
  = Ok ([], fresh 8 (-1) [5; 7; 3]).
Proof.
  exact (proj1 (generate_embeddings_gate (fresh 8 (-1) [5; 7; 3]) "a"
                  ltac:(closed))).
Defined.

(** C9 as stated does not hold.  In an antiprompt turn a framed call leaves the
    prefix out and still appends the suffix. *)
Lemma framing_counterexample :
  is_antiprompt in_antiprompt_turn = true /\
  prompt_tokens in_antiprompt_turn = [1; 60; 97; 62] /\
  prompt_tokens
    (snd (result_of ([], in_antiprompt_turn)
            (generate_response 100 in_antiprompt_turn "b" true true)))
  = [1; 60; 97; 62; 98; 62] /\
  framing_by_the_spec in_antiprompt_turn "b" true = [1; 60; 97; 62; 98] /\
  [1; 60; 97; 62; 98; 62] <> [1; 60; 97; 62; 98].
Proof.
  conjuncts; closed.
Qed.

(** The amended C9 on the same call. *)
Lemma framing_is_decided_per_side_witness :
  prompt_tokens
    (snd (result_of ([], in_antiprompt_turn)
            (generate_response 100 in_antiprompt_turn "b" true true)))
  = [1; 60; 97; 62] ++ [] ++ [98] ++ [62].
Proof.
  exact (framing_is_decided_per_side (B:=byte_backend) 100 in_antiprompt_turn
           "b" true true
           (fst (result_of ([], in_antiprompt_turn)
              (generate_response 100 in_antiprompt_turn "b" true true)))
           (snd (result_of ([], in_antiprompt_turn)
              (generate_response 100 in_antiprompt_turn "b" true true)))
           ltac:(closed) ltac:(closed)).
Defined.

(** C8 on a call that loads a grammar and is canceled while its second
    iteration runs. *)
Lemma grammar_released_on_every_exit_witness :
  fst (fst canceled_run) = Some Canceled /\
  grammar (snd (fst canceled_run)) = Some "root ::= [0-9]+"%string /\
  exists s',
    generate_response_interrupted [false; true; false]
      (with_grammar 8 (-1) [7; 7; 7]) "a" false true
    = Ok (response (snd canceled_run), s') /\
    grammar s' = None /\
    ghost_live_grammars s' = ghost_live_grammars (with_grammar 8 (-1) [7; 7; 7]).
Proof.
  split; [closed|]. split; [closed|].
  exact (grammar_released_on_every_exit (B:=byte_backend) [false; true; false]
           (with_grammar 8 (-1) [7; 7; 7]) "a" false true
           Canceled (snd (fst canceled_run)) (snd canceled_run)
           ltac:(closed) ltac:(closed)).
Defined.

(** The same call when nobody cancels, and the call that stops on the stop
    sequence: the handle is null after both. *)
Example grammar_released_uninterrupted :
  exit_and_grammar_interrupted (repeat false 100)
    (with_grammar 8 (-1) [7; 7; 7]) "a"
  = exit_and_grammar (with_grammar 8 (-1) [7; 7; 7]) "a" /\
  exit_and_grammar (with_grammar 8 (-1) [7; 7; 7]) "a"
  = (Some EndOfSequence, Some "root ::= [0-9]+"%string, None) /\
  fst (fst grammar_run) = Some StopSequence /\
  grammar (snd (fst grammar_run)) = Some "root ::= [0-9]+"%string.
Proof.
  conjuncts; closed.
Qed.

(** Every way out of the loop is taken by some call that holds a grammar,
    and the handle is null after each. *)
Example every_exit_releases_the_grammar :
  let g := Some "root ::= [0-9]+"%string in
  exit_and_grammar (with_grammar 8 2 [7]) "a" = (Some LoopConditionFalse, g, None) /\
  exit_and_grammar (with_grammar 8 (-1) [5; 5; 9]) "a" = (Some AntipromptFound, g, None) /\
  exit_and_grammar (with_grammar 8 (-1) [7]) "a" = (Some EndOfSequence, g, None) /\
  exit_and_grammar_interrupted [false; true; false]
    (with_grammar 8 (-1) [7; 7; 7]) "a" = (Some Canceled, g, None) /\
  exit_and_grammar (with_grammar 8 (-1) [1; 5; 9; 3]) "a" = (Some StopSequence, g, None) /\
  exit_and_grammar (with_grammar 8 4 [7; 7; 7]) "a" = (Some BudgetExhausted, g, None).
Proof.
  cbv zeta. conjuncts; closed.
Qed.

(** C3 as stated does not hold.  With a budget of 0 the prompt drives the counter
    below zero, the loop is entered, and one token is sampled and returned. *)
Lemma budget_counterexample :
  n_predict (params (fresh 8 0 [7; 7])) = 0 /\
  n_predict (params (fresh 8 0 [7; 7])) <> -1 /\
  returned_tokens (generate_response 100 (fresh 8 0 [7; 7]) "a" false true)
  = Ok [7] /\
  ~ (size [7] + 0 <= 0).
Proof.
  conjuncts; closed.
Qed.

(** The amended C3 on a call with a budget of 6. *)
Lemma budget_bounds_outputs_witness :
  tokens_of (response (snd budget_run)) = [5; 7; 3; 4] /\
  size (response (snd budget_run))
    + size (completion_result_list (snd budget_run)) <= 6 /\
  n_remain (snd (fst budget_run)) <= 6.
Proof.
  split; [closed|].
  apply (budget_bounds_outputs (B:=byte_backend) 100
           (fresh 8 6 [5; 7; 3; 4; 4; 4; 4; 4]) "a" false true
           (fst (fst budget_run)) (snd (fst budget_run)) (snd budget_run));
    closed.
Defined.

(** C5 on a session put through every operation. *)
Lemma history_window_length_is_constant_witness :
  last_n_tokens busy_session = [0; 0; 0; 0; 0; 0; 0; 0; 0; 0; 0; 0; 0; 1; 100; 2] /\
  size (last_n_tokens busy_session) = 16.
Proof.
  split; [closed|].
  exact (proj1 (proj2
    (history_window_length_is_constant (B:=byte_backend)
       (demo_params 8 (-1) "" "" "" stop_5_9)
       [4; 5; 4; 4; 4; 4; 4; 4; 4; 4; 4; 4; 4; 4; 4; 4; 4; 4; 2; 6; 6; 6]
       (fresh 8 (-1) [4; 5; 4; 4; 4; 4; 4; 4; 4; 4; 4; 4; 4; 4; 4; 4; 4; 4; 2; 6; 6; 6])
       [OpGenerate 100 "ab" false true; OpEval; OpSample; OpCancel;
        OpGenerate 100 "c" false true; OpReset; OpEmbeddings "x";
        OpGenerate 100 "d" false false]
       busy_session ltac:(closed) ltac:(closed)))).
Defined.

(** X20 on a session whose context is full. *)
Lemma eviction_before_evaluation_witness :
  n_past full_context = 16 /\ batch_tokens full_context = [4] /\
  exists s',
    eval full_context = Ok s' /\
    n_past s' = 0 + 8 + 1 /\
    ghost_evals s' = ghost_evals full_context
                     ++ [([4; 4; 4; 4; 4; 4; 4; 4], 0); ([4], 8)].
Proof.
  split; [closed|]. split; [closed|].
  pose proof (eviction_before_evaluation (B:=byte_backend) full_context
                full_context ltac:(closed) ltac:(closed) ltac:(closed)
                ltac:(closed) ltac:(closed) ltac:(closed) ltac:(closed)) as E.
  cbv zeta in E.
  destruct E as (reprimed & s2 & s' & calls & _ & _ & _ & _ & _ & He & _ & _
                 & _ & _ & Hp & _).
  exists s'. split; [exact He|]. split; [exact Hp|].
  assert (Hs : s' = result_of full_context (eval full_context))
    by (rewrite He; reflexivity).
  rewrite Hs. closed.
Defined.

Ltac steady_closed := unfold steady; cbv zeta; conjuncts; closed.

Ltac not_in_closed := vm_compute; intuition discriminate.

(** C1 as stated does not hold.  The sampler yields 5, 5, 9 (3 and 7 are left of the
    script), which holds the stop sequence [5; 9] after the token 5.  The
    second 5 breaks the match the first one started, both are delivered,
    and the matcher starts again from an empty buffer at 9: the call returns
    5, 5, 9 and not 5 alone. *)
Lemma stop_sequence_counterexample :
  inp_stop (fresh 8 (-1) [5; 5; 9; 3; 7]) = [5; 9] /\
  returned_tokens
    (generate_response 100 (fresh 8 (-1) [5; 5; 9; 3; 7]) "a" false true)
  = Ok ([5] ++ [5; 9]) /\
  ctx (snd (result_of ([], fresh 8 (-1) [])
              (generate_response 100 (fresh 8 (-1) [5; 5; 9; 3; 7]) "a"
                                 false true)))
  = [3; 7] /\
  [5] ++ [5; 9] <> [5].
Proof.
  conjuncts; closed.
Qed.

(** The session that keeps three tokens is one the constructor builds,
    and it is not steady when its first call enters the loop: the position
    is below the keep-count. *)
Example keeping_is_constructed :
  @Llama_new byte_backend (params (keeping [5; 7; 5; 9; 3])) [5; 7; 5; 9; 3]
  = Ok (keeping [5; 7; 5; 9; 3]) /\
  ~ steady (entering (keeping [5; 7; 5; 9; 3]) "a" false) /\
  ~ steady (entering (keeping [5; 7; 3]) "a" false).
Proof.
  split; [vm_compute; reflexivity|].
  split; intros (_ & _ & _ & (H & _) & _); vm_compute in H; apply H;
    reflexivity.
Qed.

(** The amended C1 on the first call of a session that keeps three tokens,
    with a sampler that yields 5, 7, then the stop sequence 5, 9, then 3:
    the partial match on 5 is over, and the buffer empty, when the stop
    sequence starts. *)
Lemma stop_sequence_withheld_after_clean_prefix_witness :
  stop_matcher [5; 9] [5; 9] [5; 7] = Some [5; 9] /\
  fst (fst clean_prefix_run) = Some StopSequence /\
  returned_tokens
    (generate_response 100 (keeping [5; 7; 5; 9; 3]) "a" false true)
  = Ok [5; 7] /\
  tokens_of (completion_result_list (snd clean_prefix_run)) = [5; 9] /\
  ctx (snd (fst clean_prefix_run)) = [3].
Proof.
  split; [reflexivity|].
  destruct (proj1 (stop_sequence_withheld_after_clean_prefix
              byte_tokenize byte_detokenize 1 2 100
              (keeping [5; 7; 5; 9; 3])
              (entering (keeping [5; 7; 5; 9; 3]) "a" false)
              "a" false true [5; 7] [5; 9] [3] stop_5_9 []
              ltac:(closed) ltac:(closed)
              ltac:(closed) ltac:(closed) ltac:(closed) ltac:(closed)
              ltac:(closed) ltac:(closed) ltac:(not_in_closed)
              ltac:(closed) ltac:(right; conjuncts; closed) ltac:(simpl; lia))
            (fst (fst clean_prefix_run)) (snd (fst clean_prefix_run))
            (snd clean_prefix_run) ltac:(closed))
    as (He & Hg & Ht & _ & Hw & Hc).
  split; [exact He|].
  split; [|split; [exact Hw | exact Hc]].
  unfold byte_backend. rewrite Hg. unfold returned_tokens. cbn [bind].
  rewrite Ht. reflexivity.
Defined.

(** The example of the specification, by the same theorem. *)
Example stop_sequence_of_the_specification :
  stop_matcher [5; 9] [5; 9] [1] = Some [5; 9] /\
  steady (entering (fresh 8 (-1) [1; 5; 9; 3]) "a" false) /\
  returned_tokens
    (generate_response 100 (fresh 8 (-1) [1; 5; 9; 3]) "a" false true)
  = Ok [1].
Proof.
  split; [reflexivity|]. split; [steady_closed | closed].
Qed.

(** C4 on the first call of a session that keeps three tokens. *)
Lemma partial_match_is_flushed_witness :
  exists more_out,
    returned_tokens
      (generate_response 100 (keeping [5; 7; 3]) "a" false true)
    = Ok (5 :: 7 :: 3 :: more_out) /\
    ghost_callback (snd partial_match_run) = response (snd partial_match_run).
Proof.
  destruct (partial_match_is_flushed
              byte_tokenize byte_detokenize 1 2 100
              (keeping [5; 7; 3])
              (entering (keeping [5; 7; 3]) "a" false)
              "a" false true [] stop_5_9 []
              ltac:(closed) ltac:(closed)
              ltac:(closed) ltac:(closed) ltac:(closed) ltac:(closed)
              ltac:(not_in_closed) ltac:(closed) ltac:(right; conjuncts; closed))
    as (_ & _ & _ & H & _).
  destruct (H (fst (fst partial_match_run)) (snd (fst partial_match_run))
              (snd partial_match_run) ltac:(simpl; lia) ltac:(closed))
    as ((more_out & Ht) & Hcb & Hg).
  exists more_out. split; [|exact Hcb].
  unfold byte_backend. rewrite Hg by (vm_compute; discriminate).
  unfold returned_tokens. cbn [bind].
  rewrite Ht. reflexivity.
Defined.

(** The partial match of the specification, run: 5, 7, 3 are all returned,
    on a steady session and on one that is not. *)
Example partial_match_example :
  steady (entering (fresh 8 (-1) [5; 7; 3]) "a" false) /\
  returned_tokens
    (generate_response 100 (fresh 8 (-1) [5; 7; 3]) "a" false true)
  = Ok [5; 7; 3] /\
  returned_tokens
    (generate_response 100 (keeping [5; 7; 3]) "a" false true)
  = Ok [5; 7; 3].
Proof. split; [steady_closed|]. split; closed. Qed.

(** * Further properties *)

(** ** Reset *)

Section Reset.
Context {B : Backend}.
Implicit Types s : @Llama B.

(** Two sessions with the same members are the same session. *)
Lemma Llama_eq s s' :
  params s = params s' -> ctx s = ctx s' -> inp_pfx s = inp_pfx s' ->
  inp_sfx s = inp_sfx s' -> inp_stop s = inp_stop s' ->
  prompt_tokens s = prompt_tokens s' -> batch_tokens s = batch_tokens s' ->
  last_n_tokens s = last_n_tokens s' -> is_antiprompt s = is_antiprompt s' ->
  canceled s = canceled s' -> n_past s = n_past s' -> n_remain s = n_remain s' ->
  n_consumed s = n_consumed s' -> grammar s = grammar s' ->
  parsed_grammar s = parsed_grammar s' ->
  ghost_evals s = ghost_evals s' ->
  ghost_live_grammars s = ghost_live_grammars s' -> s = s'.
Proof.
  destruct s, s'; simpl; intros; subst; reflexivity.
Qed.

(** X1. [reset] is idempotent: resetting a session that was just reset
    changes nothing.  A reset leaves the configuration, the backend context
    (and so whatever the backend has evaluated), the log of evaluations and
    the grammar handle as they were. *)
Theorem reset_is_idempotent s s1 :
  reset s = Ok s1 ->
  reset s1 = Ok s1 /\
  params s1 = params s /\ ctx s1 = ctx s /\ ghost_evals s1 = ghost_evals s /\
  grammar s1 = grammar s.
Proof.
  unfold reset, get_n_ctx; intros H. ok_inv H. ok_inv H.
  split; [|split; [|split; [|split]]]; [|reflexivity..].
  match goal with
  | |- context [zero_window (n_ctx (params ?x))] =>
      change (params x) with (params s)
  end.
  rewrite Ha. cbn [bind]. apply f_equal.
  apply Llama_eq;
    cbv [params ctx inp_pfx inp_sfx inp_stop prompt_tokens batch_tokens
         last_n_tokens is_antiprompt canceled n_past n_remain n_consumed
         grammar parsed_grammar ghost_evals ghost_live_grammars
         set_batch_tokens set_prompt_tokens set_n_consumed set_n_remain
         set_n_past set_canceled set_is_antiprompt set_last_n_tokens];
    reflexivity.
Qed.

(** No operation changes the configuration, and every operation gives back
    a session without a grammar when it was given one. *)
Lemma perform_configuration o s s' :
  perform o s = Ok s' ->
  same_configuration s s' /\
  (grammar s = None -> ghost_live_grammars s = O ->
   grammar s' = None /\ ghost_live_grammars s' = O).
Proof.
  unfold same_configuration.
  destruct o as [| |fuel prompt add cb|prompt| |]; simpl; intros H.
  - apply eval_frame in H. destruct H as ((P & A & C & D & _ & _ & G & L & _) & _).
    intuition congruence.
  - ok_inv H. destruct a as [[k s1] l1]. ok_inv H.
    apply sampling_branch_cases in Ha.
    destruct Ha as ((P & A & C & D & _ & _ & G & L & _) & _).
    intuition congruence.
  - ok_inv H. destruct a as [r s1]. ok_inv H.
    unfold generate_response in Ha. ok_inv Ha.
    { ok_inv Ha. simpl. intuition. }
    ok_inv Ha. destruct a as [[e s1] l1].
    destruct e as [why|]; ok_inv Ha.
    apply generate_response_run_inv in Ha0. destruct Ha0 as (s0 & P & L).
    apply prime_inv in P. destruct P as (P & _ & _ & PL).
    apply generation_loop_frame in L. destruct L as (L & _).
    unfold loop_frame in *; simpl in *.
    destruct P as (P1 & P2 & P3 & P4 & _).
    destruct L as (L1 & L2 & L3 & L4 & _ & _ & L7 & L8 & _).
    assert (R : forall x : @Llama B,
              params (release_grammar x) = params x /\
              inp_pfx (release_grammar x) = inp_pfx x /\
              inp_sfx (release_grammar x) = inp_sfx x /\
              inp_stop (release_grammar x) = inp_stop x /\
              grammar (release_grammar x) = None /\
              ghost_live_grammars (release_grammar x)
              = match grammar x with
                | Some _ => Nat.pred (ghost_live_grammars x)
                | None => ghost_live_grammars x
                end).
    { intros x. unfold release_grammar.
      destruct (grammar x) eqn:Eg; simpl; rewrite ?Eg; intuition. }
    destruct (R s1) as (R1 & R2 & R3 & R4 & R5 & R6).
    split; [intuition congruence|].
    intros G0 L0. split; [exact R5|].
    rewrite R6, L7, L8, PL, L0. destruct (grammar s0); reflexivity.
  - ok_inv H. destruct a as [r s1]. ok_inv H.
    unfold generate_embeddings in Ha. ok_inv Ha.
    { ok_inv Ha. intuition. }
    ok_inv Ha. ok_inv Ha. apply embed_batches_frame in Ha0.
    destruct Ha0 as (P & A & C & D & _ & _ & G & L & _).
    intuition congruence.
  - unfold reset in H. ok_inv H. ok_inv H. simpl. intuition.
  - ok_inv H. simpl. intuition.
Qed.

Lemma perform_all_configuration ops : forall s s',
  perform_all ops s = Ok s' ->
  same_configuration s s' /\
  (grammar s = None -> ghost_live_grammars s = O ->
   grammar s' = None /\ ghost_live_grammars s' = O).
Proof.
  unfold same_configuration.
  induction ops as [|o ops IH]; simpl; intros s s' H.
  - ok_inv H. intuition.
  - ok_inv H. apply IH in H. apply perform_configuration in Ha.
    unfold same_configuration in Ha.
    destruct H as ((P1 & P2 & P3 & P4) & G1).
    destruct Ha as ((Q1 & Q2 & Q3 & Q4) & G2).
    split; [intuition congruence|].
    intros G0 L0. destruct (G2 G0 L0) as (G3 & L3). auto.
Qed.

(** What the constructor builds, member by member. *)
Lemma Llama_new_inv p c0 s0 :
  Llama_new p c0 = Ok s0 ->
  exists phrase,
    antiprompt p = phrase :: tl (antiprompt p) /\
    0 <= n_ctx p /\
    params s0 = (if n_keep p =? -1 then set_n_keep 0 p else p) /\
    inp_pfx s0 = @tokenize B (input_prefix p) true /\
    inp_sfx s0 = @tokenize B (input_suffix p) false /\
    inp_stop s0 = @tokenize B phrase false /\
    prompt_tokens s0 = [] /\ batch_tokens s0 = [] /\
    last_n_tokens s0 = repeat 0 (Z.to_nat (n_ctx p)) /\
    is_antiprompt s0 = false /\ canceled s0 = false /\
    n_past s0 = 0 /\ n_remain s0 = n_predict p /\ n_consumed s0 = 0 /\
    grammar s0 = None /\ ghost_live_grammars s0 = O /\
    parsed_grammar s0 = None /\
    ghost_evals s0 = [([llama_token_bos B], 0)] /\
    ctx s0 = fst (llama_eval B c0 [llama_token_bos B] 0).
Proof.
  unfold Llama_new; intros H. ok_inv H. ok_inv H.
  destruct (llama_eval B c0 [llama_token_bos B] 0) as [c1 failed].
  ok_inv H. cbn [params inp_pfx inp_sfx inp_stop prompt_tokens batch_tokens
                 last_n_tokens is_antiprompt canceled n_past n_remain
                 n_consumed grammar parsed_grammar ghost_live_grammars
                 ghost_evals ctx fst].
  apply zero_window_length in Ha0.
  assert (Hc : n_ctx (if n_keep p =? -1 then set_n_keep 0 p else p) = n_ctx p)
    by (destruct (n_keep p =? -1); reflexivity).
  assert (Hp : n_predict (if n_keep p =? -1 then set_n_keep 0 p else p)
               = n_predict p)
    by (destruct (n_keep p =? -1); reflexivity).
  rewrite Hc in Ha0. rewrite Hp. destruct Ha0 as (Hs & ->).
  exists a. split.
  { destruct (antiprompt p); simpl in Ha; ok_inv Ha. reflexivity. }
  split; [unfold size in Hs; lia|].
  repeat (split; [reflexivity|]). reflexivity.
Qed.

(** X2. Whatever was done with a session since it was constructed
    (evaluations, sampling steps, generation and embedding calls, cancel,
    earlier resets), [reset] succeeds and gives back the session the
    constructor built, but for three things it does not touch: the backend
    context, the log of evaluations, and the member [parsed_grammar], which
    holds what the last call with a grammar parsed (line 417). *)
Theorem reset_restores_the_constructed_session p c0 s0 ops s :
  Llama_new p c0 = Ok s0 ->
  perform_all ops s0 = Ok s ->
  reset s
  = Ok (set_parsed_grammar (parsed_grammar s)
          (set_ghost_evals (ghost_evals s) (set_ctx (ctx s) s0))).
Proof.
  intros Hn Ho.
  apply perform_all_configuration in Ho.
  destruct Ho as ((P1 & P2 & P3 & P4) & G).
  apply Llama_new_inv in Hn.
  destruct Hn as (phrase & _ & Hc & N1 & N2 & N3 & N4 & N5 & N6 & N7 & N8 & N9
                  & N10 & N11 & N12 & N13 & N14 & _ & _).
  destruct (G N13 N14) as (G1 & L1).
  assert (C : n_ctx (params s0) = n_ctx p)
    by (rewrite N1; destruct (n_keep p =? -1); reflexivity).
  assert (R : n_predict (params s0) = n_predict p)
    by (rewrite N1; destruct (n_keep p =? -1); reflexivity).
  unfold reset, get_n_ctx, zero_window. rewrite P1, C.
  destruct (n_ctx p <? 0) eqn:E; [apply Z.ltb_lt in E; lia|].
  cbn [bind]. f_equal.
  apply Llama_eq;
    cbn [params ctx inp_pfx inp_sfx inp_stop prompt_tokens batch_tokens
         last_n_tokens is_antiprompt canceled n_past n_remain n_consumed
         grammar parsed_grammar ghost_evals ghost_live_grammars
         set_parsed_grammar set_ghost_evals set_ctx set_batch_tokens
         set_prompt_tokens set_n_consumed set_n_remain set_n_past
         set_canceled set_is_antiprompt set_last_n_tokens];
    congruence.
Qed.

End Reset.

(** ** The calls made to the backend *)

Section Chunks.
Context {B : Backend}.
Implicit Types s : @Llama B.

Lemma chunked_cons cap start chunk calls :
  1 <= size chunk <= cap ->
  (calls <> [] -> size chunk = cap) ->
  chunked cap (start + size chunk) calls = true ->
  chunked cap start ((chunk, start) :: calls) = true.
Proof.
  intros Hs Hf Hc. cbn [chunked]. rewrite Hc, Z.eqb_refl.
  replace (1 <=? size chunk) with true by (symmetry; apply Z.leb_le; lia).
  replace (size chunk <=? cap) with true by (symmetry; apply Z.leb_le; lia).
  destruct calls as [|c calls]; [reflexivity|].
  rewrite (Hf ltac:(discriminate)), Z.eqb_refl. reflexivity.
Qed.

(** The chunking loop of lines 357-374 with a positive batch capacity,
    whenever it returns. *)
Lemma evaluate_batches_chunked fuel : forall rest s s',
  1 <= n_batch (params s) ->
  evaluate_batches fuel rest s = Ok s' ->
  exists calls,
    ghost_evals s' = ghost_evals s ++ calls /\
    List.concat (map fst calls) = rest /\
    chunked (n_batch (params s)) (n_past s) calls = true /\
    n_past s' = n_past s + size rest /\
    (rest = [] -> calls = []).
Proof.
  induction fuel as [|fuel IH]; intros rest s s' Hb H; simpl in H.
  - destruct rest; ok_inv H. exists []. rewrite app_nil_r.
    unfold size; simpl. intuition lia.
  - destruct rest as [|t rest].
    { ok_inv H. exists []. rewrite app_nil_r. unfold size; simpl.
      intuition lia. }
    ok_inv H; [discriminate|]. clear E.
    set (n_eval := Z.min (size (t :: rest)) (n_batch (params s))) in *.
    assert (Hn : 1 <= n_eval <= size (t :: rest))
      by (unfold n_eval, size; cbn [List.length]; lia).
    set (chunk := firstn (Z.to_nat n_eval) (t :: rest)) in *.
    assert (Hc : size chunk = n_eval).
    { unfold chunk, size in *. rewrite length_firstn. lia. }
    destruct (llama_eval B (ctx s) chunk (n_past s)) as [c failed].
    cbv zeta in H. cbn [params set_n_past set_ghost_evals set_ctx] in H.
    destruct (n_batch (params s) <? 0) eqn:E0; [apply Z.ltb_lt in E0; lia|].
    apply IH in H; [|exact Hb].
    destruct H as (calls & Hg & Hcat & Hch & Hp & Hnil).
    simpl in Hg, Hch, Hp.
    exists ((chunk, n_past s) :: calls).
    split; [rewrite Hg, <- app_assoc; reflexivity|].
    split; [cbn [map List.concat fst]; rewrite Hcat; apply firstn_skipn|].
    split.
    { apply chunked_cons; rewrite Hc; [unfold n_eval; lia | | exact Hch].
      intros Hne. unfold n_eval.
      destruct (Z_le_gt_dec (n_batch (params s)) (size (t :: rest)));
        [lia|].
      exfalso. apply Hne, Hnil. apply length_zero_iff_nil.
      rewrite length_skipn. unfold n_eval, size in *. lia. }
    split; [|discriminate].
    rewrite Hp. unfold size in *. rewrite length_skipn. lia.
Qed.


(** The chunking loop of lines 123-135 with a positive batch capacity: it
    changes the backend context and nothing else of the session. *)
Lemma embed_batches_chunked fuel : forall rest n s s',
  1 <= n_batch (params s) ->
  embed_batches fuel rest n s = Ok s' ->
  exists calls,
    ghost_evals s' = ghost_evals s ++ calls /\
    List.concat (map fst calls) = rest /\
    chunked (n_batch (params s)) n calls = true /\
    (rest = [] -> calls = []) /\
    s' = set_ghost_evals (ghost_evals s') (set_ctx (ctx s') s).
Proof.
  induction fuel as [|fuel IH]; intros rest n s s' Hb H; simpl in H.
  - destruct rest; ok_inv H. exists []. rewrite app_nil_r.
    split; [reflexivity|]. split; [reflexivity|]. split; [reflexivity|].
    split; [reflexivity|]. destruct s'; reflexivity.
  - destruct rest as [|t rest].
    { ok_inv H. exists []. rewrite app_nil_r.
      split; [reflexivity|]. split; [reflexivity|]. split; [reflexivity|].
      split; [reflexivity|]. destruct s'; reflexivity. }
    ok_inv H; [discriminate|]. clear E.
    set (n_eval := Z.min (size (t :: rest)) (n_batch (params s))) in *.
    assert (Hn : 1 <= n_eval <= size (t :: rest))
      by (unfold n_eval, size; cbn [List.length]; lia).
    set (chunk := firstn (Z.to_nat n_eval) (t :: rest)) in *.
    assert (Hc : size chunk = n_eval).
    { unfold chunk, size in *. rewrite length_firstn. lia. }
    destruct (llama_eval B (ctx s) chunk n) as [c failed].
    cbv zeta in H. cbn [params set_ghost_evals set_ctx] in H.
    destruct (n_batch (params s) <? 0) eqn:E0; [apply Z.ltb_lt in E0; lia|].
    apply IH in H; [|exact Hb].
    destruct H as (calls & Hg & Hcat & Hch & Hnil & Hs).
    simpl in Hg, Hch.
    exists ((chunk, n) :: calls).
    split; [rewrite Hg, <- app_assoc; reflexivity|].
    split; [cbn [map List.concat fst]; rewrite Hcat; apply firstn_skipn|].
    split.
    { apply chunked_cons; rewrite Hc; [unfold n_eval; lia | | exact Hch].
      intros Hne. unfold n_eval.
      destruct (Z_le_gt_dec (n_batch (params s)) (size (t :: rest)));
        [lia|].
      exfalso. apply Hne, Hnil. apply length_zero_iff_nil.
      rewrite length_skipn. unfold n_eval, size in *. lia. }
    split; [discriminate|].
    etransitivity; [exact Hs|]. reflexivity.
Qed.

Lemma embed_batches_total fuel : forall rest n s,
  1 <= n_batch (params s) -> (List.length rest <= fuel)%nat ->
  exists s', embed_batches fuel rest n s = Ok s'.
Proof.
  induction fuel as [|fuel IH]; intros rest n s Hb Hf.
  - destruct rest; [|simpl in Hf; lia]. exists s; reflexivity.
  - destruct rest as [|t rest]; [exists s; reflexivity|].
    cbn [embed_batches].
    destruct (n_batch (params s) =? 0) eqn:E; [apply Z.eqb_eq in E; lia|].
    set (n_eval := Z.min (size (t :: rest)) (n_batch (params s))).
    assert (Hn : 1 <= n_eval <= size (t :: rest))
      by (unfold n_eval, size; cbn [List.length]; lia).
    destruct (llama_eval B (ctx s) (firstn (Z.to_nat n_eval) (t :: rest)) n)
      as [c failed].
    cbv zeta. cbn [params set_ghost_evals set_ctx].
    destruct (n_batch (params s) <? 0) eqn:E0; [apply Z.ltb_lt in E0; lia|].
    apply IH; [exact Hb|].
    rewrite length_skipn. unfold size in Hn. cbn [List.length] in *. lia.
Qed.

(** X3. In embedding mode, with a positive batch capacity,
    [generate_embeddings] returns the backend's embeddings after handing it
    the tokens of the input (with the beginning-of-sequence token) once and
    in order, in consecutive chunks of [n_batch] tokens (the last one may be
    shorter), the first at position 0 whatever the session's own position
    is.  Apart from the backend context the session is left as it was: the
    position [n_past], the window and the prompt are not updated. *)
Theorem embeddings_evaluate_the_prompt_in_chunks s (text : string) :
  is_embedding s = true ->
  1 <= n_batch (params s) ->
  exists s' calls,
    generate_embeddings s text = Ok (llama_get_embeddings B (ctx s'), s') /\
    ghost_evals s' = ghost_evals s ++ calls /\
    List.concat (map fst calls) = @tokenize B text true /\
    chunked (n_batch (params s)) 0 calls = true /\
    s' = set_ghost_evals (ghost_evals s') (set_ctx (ctx s') s).
Proof.
  intros He Hb. unfold generate_embeddings. rewrite He. cbn [negb].
  destruct (embed_batches_total (List.length (@tokenize B text true))
              (@tokenize B text true) 0 s Hb (le_n _)) as (s' & Hs).
  rewrite Hs. cbn [bind].
  destruct (embed_batches_chunked _ _ _ _ _ Hb Hs)
    as (calls & Hg & Hcat & Hch & _ & Heq).
  exists s', calls. auto.
Qed.

Lemma context_swap_position s s' :
  context_swap s = Ok s' ->
  params s' = params s /\ ghost_evals s' = ghost_evals s /\
  (n_past s' = n_past s \/ n_past s' = n_keep (params s)).
Proof.
  unfold context_swap; intros H. ok_inv H.
  - ok_inv H. ok_inv H. simpl. auto.
  - ok_inv H. auto.
Qed.

(** X4. With a positive batch capacity, whenever [eval] returns, every call
    it made to the backend carried between one and [n_batch] tokens, all
    chunks but the last were full, the calls were at consecutive positions
    starting from the session's position or, after a context swap, from the
    keep-count, and the position has advanced by the number of tokens
    evaluated.  The batch is empty afterwards. *)
Theorem eval_respects_batch_capacity s s' :
  1 <= n_batch (params s) ->
  eval s = Ok s' ->
  exists calls start,
    ghost_evals s' = ghost_evals s ++ calls /\
    chunked (n_batch (params s)) start calls = true /\
    (start = n_past s \/ start = n_keep (params s)) /\
    n_past s' = start + size (List.concat (map fst calls)) /\
    batch_tokens s' = [].
Proof.
  intros Hcap H. pose proof (eval_clears_batch _ _ H) as Hb.
  unfold eval in H. ok_inv H.
  apply drain_frame in Ha.
  destruct Ha as ((Pp & _) & _ & _ & Hn & _ & Hg).
  ok_inv H.
  - ok_inv H. ok_inv H. ok_inv H.
    apply context_swap_position in Ha. destruct Ha as (P2 & G2 & N2).
    apply evaluate_batches_chunked in Ha0; [|rewrite P2, Pp; exact Hcap].
    destruct Ha0 as (calls & Hg3 & Hcat & Hch & Hp & _).
    exists calls, (n_past a0).
    cbn [ghost_evals n_past set_batch_tokens].
    split; [rewrite Hg3, G2, Hg; reflexivity|].
    split; [rewrite <- Pp, <- P2; exact Hch|].
    split; [rewrite <- Hn, <- Pp; exact N2|].
    split; [rewrite Hcat; exact Hp | reflexivity].
  - ok_inv H. exists [], (n_past s).
    rewrite app_nil_r. unfold size; simpl.
    split; [exact Hg|]. split; [reflexivity|]. split; [left; reflexivity|].
    split; [lia | exact Hb].
Qed.

(** X5. On a steady session whose pending tokens still fit in the context,
    [eval] does not swap: it hands the backend the batch followed by the
    unconsumed prompt tokens, in this order and once, from the current
    position on; the position advances by their number, the window has
    slid over the prompt tokens, the prompt is consumed and the batch is
    empty. *)
Theorem eval_without_eviction s :
  steady s ->
  n_past s + size (batch_tokens s) + size (pending_prompt s) <= get_n_ctx s ->
  exists s' calls,
    eval s = Ok s' /\
    ghost_evals s' = ghost_evals s ++ calls /\
    List.concat (map fst calls) = batch_tokens s ++ pending_prompt s /\
    chunked (n_batch (params s)) (n_past s) calls = true /\
    n_past s' = n_past s + size (batch_tokens s) + size (pending_prompt s) /\
    last_n_tokens s' = window_after_eval s /\
    n_consumed s' = size (prompt_tokens s) /\
    batch_tokens s' = [].
Proof.
  intros (Hb & Hw & Hk & Hp & Hc & Hfit & Hroom) Hno.
  destruct (drain_all (List.length (prompt_tokens s)) s Hc Hfit)
    as (s1 & Hd & Hb1 & Hw1 & Hc1).
  { left. intros E. rewrite E in Hw. unfold size in Hw; simpl in Hw. lia. }
  { unfold pending_prompt. rewrite length_skipn. lia. }
  pose proof (drain_frame _ _ _ Hd) as ((Pp & _) & _ & _ & Hnp & _ & Hg).
  assert (Hsz : size (batch_tokens s1)
                = size (batch_tokens s) + size (pending_prompt s)).
  { rewrite Hb1. unfold size. rewrite length_app. lia. }
  assert (G : get_n_ctx s1 = get_n_ctx s) by (unfold get_n_ctx; congruence).
  unfold eval. rewrite Hd. cbn [bind].
  destruct (0 <? size (batch_tokens s1)) eqn:E0.
  - rewrite (context_swap_no_overflow s1) by lia. cbn [bind].
    destruct (evaluate_batches_log (List.length (batch_tokens s1))
                (batch_tokens s1) s1) as (s3 & calls0 & He & _);
      [rewrite Pp; exact Hb | lia |].
    rewrite He. cbn [bind].
    pose proof (evaluate_batches_frame _ _ _ _ He)
      as (_ & _ & _ & Hc3 & Hw3 & _).
    destruct (evaluate_batches_chunked _ _ _ _ ltac:(rewrite Pp; exact Hb) He)
      as (calls & Hg3 & Hcat & Hch & Hp3 & _).
    exists (set_batch_tokens [] s3), calls.
    cbn [ghost_evals n_past last_n_tokens n_consumed batch_tokens
         set_batch_tokens].
    split; [reflexivity|].
    split; [rewrite Hg3, Hg; reflexivity|].
    split; [rewrite Hcat; exact Hb1|].
    split; [rewrite <- Pp, <- Hnp; exact Hch|].
    split; [rewrite Hp3, Hnp, Hsz; lia|].
    split; [rewrite Hw3; exact Hw1|].
    split; [rewrite Hc3; exact Hc1 | reflexivity].
  - apply Z.ltb_ge in E0.
    assert (Hz : size (batch_tokens s) = 0 /\ size (pending_prompt s) = 0)
      by (unfold size in *; lia).
    destruct Hz as (Hz1 & Hz2).
    assert (Hnil : batch_tokens s ++ pending_prompt s = []).
    { rewrite <- Hb1. destruct (batch_tokens s1); [reflexivity|].
      unfold size in E0; cbn [List.length] in E0; lia. }
    exists s1, []. rewrite app_nil_r, Hz1, Hz2, Hb1, Hnil.
    split; [reflexivity|]. split; [exact Hg|]. split; [reflexivity|].
    split; [reflexivity|]. split; [lia|]. auto.
Qed.

End Chunks.

(** ** Budget, outputs and the antiprompt flag *)

Section Outputs.
Context {B : Backend}.
Implicit Types s : @Llama B.
Implicit Types l : @locals B.

Lemma produced_sampled l out : produced (sampled l out) = produced l + 1.
Proof.
  unfold produced, sampled, size; simpl. rewrite length_app; simpl. lia.
Qed.

Lemma produced_set_stopping m l : produced (set_stopping m l) = produced l.
Proof. reflexivity. Qed.

(** What [send_text] moves, it moves from the buffer to the response. *)
Lemma send_text_outputs cb l :
  response (send_text cb l) ++ completion_result_list (send_text cb l)
  = response l ++ completion_result_list l /\
  (response (send_text cb l) = response l \/
   completion_result_list (send_text cb l) = []).
Proof.
  unfold send_text.
  destruct (input_noecho l), (stopping l); simpl; rewrite ?app_nil_r; auto.
Qed.

(** The budget over one iteration: a sampled token costs one, and the
    budget check restores the whole budget. *)
Lemma loop_body_budget cb s l c s' l' :
  loop_body cb s l = Ok (c, s', l') ->
  params s' = params s /\
  ((c = Break BudgetExhausted /\ n_remain s' = n_predict (params s)) \/
   (c <> Break BudgetExhausted /\
    n_remain s' + produced l' = n_remain s + produced l)).
Proof.
  intros H. pose proof (loop_body_cases _ _ _ _ _ _ H) as ((P & _) & _).
  split; [exact P|].
  apply loop_body_inv in H. destruct H as (sE & He & H).
  apply eval_frame in He. destruct He as ((Pp & _) & R & _).
  destruct H as [(-> & -> & ->) | (c1 & out & w & m & _ & _ & _ & H)].
  { right. split; [discriminate|]. simpl. lia. }
  cbv zeta in H.
  assert (RS : n_remain (after_sampling sE c1 out w) = n_remain s - 1)
    by (unfold after_sampling; simpl; lia).
  pose proof (produced_sampled l out) as PS.
  destruct H as [(-> & _ & -> & ->) | (_ & [(-> & _ & -> & ->) | (_ & H)])].
  { right. split; [discriminate | lia]. }
  { right. split; [discriminate | lia]. }
  destruct H as [(-> & _ & -> & ->) | (_ & -> & H)].
  { right. split; [discriminate|]. rewrite produced_set_stopping. lia. }
  rewrite send_text_produced, produced_set_stopping.
  destruct H as [(-> & _ & ->) | (-> & _ & ->)].
  - left. split; [reflexivity|]. simpl. rewrite Pp. reflexivity.
  - right. split; [discriminate | lia].
Qed.

Lemma generation_loop_budget_account cb fuel : forall s l e s' l',
  generation_loop fuel cb s l = Ok (e, s', l') ->
  (e = Some BudgetExhausted /\ n_remain s' = n_predict (params s)) \/
  (e <> Some BudgetExhausted /\
   n_remain s' + produced l' = n_remain s + produced l).
Proof.
  induction fuel as [|fuel IH]; intros s l e s' l' H; simpl in H.
  - right. destruct (n_remain s =? 0); ok_inv H; split; (discriminate || lia).
  - ok_inv H. { ok_inv H. right. split; [discriminate | lia]. }
    ok_inv H. destruct a as [[c s1] l1].
    apply loop_body_budget in Ha. destruct Ha as (P & Hc).
    destruct c as [|why].
    + apply IH in H. rewrite P in H.
      destruct Hc as [(Hc & _) | (_ & Hc)]; [discriminate|].
      destruct H as [H | (H1 & H2)]; [left; exact H|].
      right. split; [exact H1 | lia].
    + ok_inv H. destruct Hc as [(Hc & Hn) | (Hc & Hn)].
      * inversion Hc; subst. left. auto.
      * right. split; [intros Ee; inversion Ee; subst; apply Hc; reflexivity|].
        exact Hn.
Qed.

(** X7. As long as the counter stays in the range of an [int] (what is left
    after line 198, less the tokens sampled, is not below [INT_MIN], so that
    the decrement of line 258 never overflows), the sampling budget
    [n_remain] is charged with the tokens of the input (line 198, not with
    the prefix and suffix tokens) and with one for every token sampled,
    delivered or withheld (line 258); it carries over to the next call.
    Only leaving the loop through the budget check of lines 305-308 sets it
    back to [n_predict]. *)
Theorem budget_is_charged_per_token fuel s prompt add cb e s' l' :
  generate_response_run fuel s prompt add cb = Ok (e, s', l') ->
  - 2 ^ 31 <= int_wrap (n_remain s - size (line_inp s prompt add))
              - produced l' ->
  (e = Some BudgetExhausted -> n_remain s' = n_predict (params s)) /\
  (e <> Some BudgetExhausted ->
   n_remain s'
   = int_wrap (n_remain s - size (line_inp s prompt add)) - produced l').
Proof.
  intros H _. apply generate_response_run_inv in H.
  destruct H as (s0 & P & L).
  apply prime_inv in P. destruct P as ((Pp & _) & _ & R & _).
  simpl in Pp, R.
  change (line_inp (set_canceled false s) prompt add)
    with (line_inp s prompt add) in R.
  apply generation_loop_budget_account in L.
  change (produced new_locals) with 0 in L.
  destruct L as [(-> & L) | (Hne & L)].
  - split; [intros _; rewrite L, Pp; reflexivity|].
    intros Ee; contradiction.
  - split; [intros Ee; contradiction|]. intros _. lia.
Qed.

(** X8. At every point of a call the streaming callback has received
    exactly the outputs that are in the response, in the same order; with a
    null callback nothing is streamed. *)
Theorem callback_receives_the_response fuel s prompt add cb e s' l' :
  generate_response_run fuel s prompt add cb = Ok (e, s', l') ->
  ghost_callback l' = (if cb then response l' else []).
Proof.
  intros H. apply generate_response_run_inv in H.
  destruct H as (s0 & _ & L).
  apply generation_loop_frame in L.
  destruct L as (_ & (more & R & C) & _). simpl in R, C.
  rewrite C, R. destruct cb; reflexivity.
Qed.

(** A property of the outputs that every sampled token other than the end of
    sequence has holds of all that is delivered. *)
Lemma loop_body_outputs (P : @completion_output B -> Prop) cb s l c s' l' :
  (forall sX, params sX = params s ->
     token (snd (sample sX)) <> llama_token_eos B -> P (snd (sample sX))) ->
  Forall P (response l ++ completion_result_list l) ->
  loop_body cb s l = Ok (c, s', l') ->
  Forall P (response l') /\
  (c = Continue -> Forall P (response l' ++ completion_result_list l')).
Proof.
  intros HP Hl H.
  pose proof (proj1 (Forall_app _ _ _) Hl) as (Hr & _).
  apply loop_body_inv in H. destruct H as (sE & He & H).
  apply eval_frame in He. destruct He as ((Pp & _) & _).
  destruct H as [(-> & -> & ->) | (c1 & out & w & m & Hs & _ & _ & H)].
  { split; [exact Hr | discriminate]. }
  cbv zeta in H.
  assert (Ho : token out <> llama_token_eos B -> P out).
  { intros Ht. specialize (HP (set_is_antiprompt false sE) Pp).
    rewrite Hs in HP. apply HP. exact Ht. }
  destruct H as [(-> & _ & -> & ->) | (Ht & [(-> & _ & -> & ->) | (_ & H)])].
  { split; [exact Hr | discriminate]. }
  { split; [exact Hr | discriminate]. }
  destruct H as [(-> & _ & -> & ->) | (_ & -> & H)].
  { split; [exact Hr | discriminate]. }
  assert (Hall : Forall P
            (response (send_text cb (set_stopping m (sampled l out)))
             ++ completion_result_list
                  (send_text cb (set_stopping m (sampled l out))))).
  { rewrite (proj1 (send_text_outputs cb _)). simpl.
    rewrite app_assoc. apply Forall_app. split; [exact Hl|].
    constructor; [exact (Ho Ht) | constructor]. }
  split; [exact (proj1 (proj1 (Forall_app _ _ _) Hall))|].
  intros _. exact Hall.
Qed.

Lemma generation_loop_outputs (P : @completion_output B -> Prop) cb fuel :
  forall s l e s' l',
  (forall sX, params sX = params s ->
     token (snd (sample sX)) <> llama_token_eos B -> P (snd (sample sX))) ->
  Forall P (response l ++ completion_result_list l) ->
  generation_loop fuel cb s l = Ok (e, s', l') ->
  Forall P (response l').
Proof.
  induction fuel as [|fuel IH]; intros s l e s' l' HP Hl H; simpl in H.
  - assert (l' = l) by (destruct (n_remain s =? 0); ok_inv H; reflexivity).
    subst. exact (proj1 (proj1 (Forall_app _ _ _) Hl)).
  - ok_inv H. { ok_inv H. exact (proj1 (proj1 (Forall_app _ _ _) Hl)). }
    ok_inv H. destruct a as [[c s1] l1].
    pose proof (loop_body_cases _ _ _ _ _ _ Ha) as ((Pp & _) & _).
    apply (loop_body_outputs P) in Ha; [|exact HP | exact Hl].
    destruct Ha as (Hr & Hc).
    destruct c as [|why].
    + apply (IH s1 l1 e s' l'); [|apply Hc; reflexivity | exact H].
      intros sX HX. apply HP. congruence.
    + ok_inv H. exact Hr.
Qed.

Lemma generate_response_outputs (P : @completion_output B -> Prop)
    fuel s prompt add cb r s' :
  (forall sX, params sX = params s ->
     token (snd (sample sX)) <> llama_token_eos B -> P (snd (sample sX))) ->
  generate_response fuel s prompt add cb = Ok (r, s') ->
  Forall P r.
Proof.
  intros HP H. unfold generate_response in H. ok_inv H.
  { ok_inv H. constructor. }
  ok_inv H. destruct a as [[e s1] l1]. destruct e as [why|]; ok_inv H.
  apply generate_response_run_inv in Ha. destruct Ha as (s0 & Pr & L).
  apply prime_inv in Pr. destruct Pr as ((Pp & _) & _). simpl in Pp.
  apply (generation_loop_outputs P) in L; [exact L | | constructor].
  intros sX HX. apply HP. congruence.
Qed.

(** X9. The end-of-sequence token is never part of a response: the loop
    is left at line 262 before the token that was just sampled could be
    sent. *)
Theorem end_of_sequence_is_never_delivered fuel s prompt add cb r s' :
  generate_response fuel s prompt add cb = Ok (r, s') ->
  ~ In (llama_token_eos B) (tokens_of r).
Proof.
  intros H Hin.
  apply (generate_response_outputs
           (fun o => token o <> llama_token_eos B)) in H; [|auto].
  unfold tokens_of in Hin. apply in_map_iff in Hin.
  destruct Hin as (o & Ho & Hi).
  rewrite Forall_forall in H. exact (H o Hi Ho).
Qed.

Lemma sample_probs s :
  0 <= n_probs (params s) ->
  size (probs (snd (sample s))) <= n_probs (params s).
Proof.
  intros Hn. unfold sample.
  destruct (llama_sample_token B (ctx s) (grammar s) (last_n_tokens s))
    as [[c id] candidates].
  destruct (n_probs (params s) <? 0) eqn:E; [apply Z.ltb_lt in E; lia|].
  unfold size; simpl. rewrite length_firstn. lia.
Qed.

(** X10. With a non-negative [n_probs], every output of a response carries
    at most [n_probs] candidate probabilities. *)
Theorem response_probs_within_n_probs fuel s prompt add cb r s' :
  0 <= n_probs (params s) ->
  generate_response fuel s prompt add cb = Ok (r, s') ->
  Forall (fun o => size (probs o) <= n_probs (params s)) r.
Proof.
  intros Hn H.
  apply (generate_response_outputs
           (fun o => size (probs o) <= n_probs (params s))) in H; [exact H|].
  intros sX HX _. rewrite <- HX. apply sample_probs. rewrite HX. exact Hn.
Qed.




End Outputs.

(** ** Calls that are defined, and calls that return *)

Section Defined.
Context {B : Backend}.
Implicit Types s : @Llama B.
Implicit Types l : @locals B.

Lemma window_push_slide w t w' :
  window_push w t = Ok w' -> w' = slide w [t].
Proof.
  destruct w as [|x w]; simpl; intros H; ok_inv H.
  unfold slide; simpl. reflexivity.
Qed.

Lemma window_push_total w t :
  w <> [] -> exists w', window_push w t = Ok w'.
Proof. destruct w as [|x w]; [contradiction | eexists; reflexivity]. Qed.

(** A session that has consumed its prompt, holds at most one token in the
    batch and stands between keep-count and capacity is steady, when the
    session it comes from was. *)
Lemma steady_once_settled s s' :
  steady s ->
  params s' = params s ->
  n_consumed s' = size (prompt_tokens s') ->
  size (batch_tokens s') <= 1 ->
  List.length (last_n_tokens s') = List.length (last_n_tokens s) ->
  n_keep (params s) <= n_past s' <= get_n_ctx s ->
  steady s'.
Proof.
  intros (Hb & Hw & Hk & Hp & Hc & Hfit & Hroom) P C Bt W N.
  unfold steady, get_n_ctx, size in *. rewrite P, C, W.
  assert (0 <= Z.of_nat (List.length (batch_tokens s'))) by lia.
  repeat split; try lia.
  Z.to_euclidean_division_equations. lia.
Qed.

(** What [eval] leaves of a steady session. *)
Lemma eval_settles s :
  steady s ->
  exists sE,
    eval s = Ok sE /\ loop_frame s sE /\
    batch_tokens sE = [] /\
    last_n_tokens sE = window_after_eval s /\
    last_n_tokens sE <> [] /\
    n_consumed sE = size (prompt_tokens sE) /\
    n_keep (params s) <= n_past sE <= get_n_ctx s /\
    (forall s', params s' = params sE ->
       prompt_tokens s' = prompt_tokens sE ->
       n_consumed s' = n_consumed sE ->
       n_past s' = n_past sE ->
       size (batch_tokens s') <= 1 ->
       List.length (last_n_tokens s') = List.length (last_n_tokens sE) ->
       steady s').
Proof.
  intros St.
  destruct (eval_steady s St) as (sE & He & Hb & Hw & Hn & Hp & _).
  pose proof (eval_frame _ _ He) as (F & _).
  pose proof F as (Pp & _ & _ & _ & Pt & _ & _ & _ & Pl).
  exists sE. split; [exact He|]. split; [exact F|]. split; [exact Hb|].
  split; [exact Hw|].
  split.
  { intros E. rewrite E in Pl. simpl in Pl.
    destruct St as (_ & Hw0 & Hk0 & _). unfold size in Hw0. lia. }
  split; [rewrite Pt; exact Hn|]. split; [exact Hp|].
  intros s' H1 H2 H3 H4 H5 H6.
  apply (steady_once_settled s _ St); try congruence.
Qed.

(** On a steady session with an antiprompt configured, an iteration is
    defined and leaves the session steady, with the prompt consumed. *)
Lemma loop_body_defined cb s l :
  steady s ->
  antiprompt (params s) <> [] ->
  exists c s' l',
    loop_body cb s l = Ok (c, s', l') /\
    steady s' /\ n_consumed s' = size (prompt_tokens s').
Proof.
  intros St Ha.
  destruct (eval_settles s St)
    as (sE & He & F & Hb & Hw & Hne & Hn & Hp & Settle).
  pose proof F as (Pp & _).
  unfold loop_body. rewrite He. cbn [bind].
  unfold after_eval, sampling_branch.
  assert (E1 : (size (prompt_tokens sE) <=? n_consumed sE) = true)
    by (apply Z.leb_le; lia).
  rewrite E1.
  change (params (set_is_antiprompt false sE)) with (params sE).
  rewrite Pp.
  destruct (antiprompt (params s)) as [|phrase more] eqn:Ea; [contradiction|].
  cbn [vector_at0 bind].
  destruct (antiprompt_found (detokenize (last_n_tokens sE)) phrase).
  { do 3 eexists. split; [reflexivity|]. split; [|exact Hn].
    apply Settle; try reflexivity. simpl. rewrite Hb. unfold size; simpl; lia. }
  destruct (sample (set_is_antiprompt false sE)) as [s1 out] eqn:Es.
  destruct (sample_state (set_is_antiprompt false sE)) as [c1 Hc].
  rewrite Es in Hc; simpl in Hc; subst s1.
  cbn [ctx set_ctx set_is_antiprompt batch_tokens last_n_tokens
       set_batch_tokens].
  destruct (window_push_total (last_n_tokens sE) (token out) Hne) as (w & Hpush).
  rewrite Hpush, Hb. cbn [app bind].
  pose proof (window_push_length _ _ _ Hpush) as W1.
  cbn [batch_tokens set_n_remain set_last_n_tokens set_batch_tokens
       vector_back rev app bind].
  assert (B1 : size [token out] <= 1) by (unfold size; simpl; lia).
  destruct (token out =? llama_token_eos B) eqn:Et.
  { do 3 eexists. split; [reflexivity|]. split; [|exact Hn].
    apply Settle; try reflexivity; assumption. }
  cbn [canceled set_n_remain set_last_n_tokens set_batch_tokens set_ctx
       set_is_antiprompt].
  destruct (canceled sE).
  { do 3 eexists. split; [reflexivity|]. split; [|exact Hn].
    apply Settle; try reflexivity; assumption. }
  match goal with
  | |- context [stop_check ?s1 ?l1] =>
      destruct (stop_check_total s1 l1) as (m & brk & Hsc)
  end.
  { cbn [params set_n_remain set_last_n_tokens set_batch_tokens set_ctx
         set_is_antiprompt]. rewrite Pp, Ea. discriminate. }
  rewrite Hsc. cbn [bind].
  destruct brk.
  { do 3 eexists. split; [reflexivity|]. split; [|exact Hn].
    apply Settle; try reflexivity; assumption. }
  match goal with
  | |- context [if ?c then _ else _] => destruct c
  end.
  { do 3 eexists. split; [reflexivity|]. split; [|exact Hn].
    apply Settle; try reflexivity; assumption. }
  do 3 eexists. split; [reflexivity|]. split; [|exact Hn].
  apply Settle; try reflexivity; assumption.
Qed.

Lemma generation_loop_defined cb fuel : forall s l,
  steady s ->
  antiprompt (params s) <> [] ->
  exists e s' l',
    generation_loop fuel cb s l = Ok (e, s', l') /\ steady s'.
Proof.
  induction fuel as [|fuel IH]; intros s l St Ha; simpl.
  - destruct (n_remain s =? 0); do 3 eexists; split;
      reflexivity || exact St.
  - destruct (n_remain s =? 0).
    { do 3 eexists. split; [reflexivity | exact St]. }
    destruct (loop_body_defined cb s l St Ha) as (c & s1 & l1 & Hb & St1 & _).
    rewrite Hb. cbn [bind].
    destruct c as [|why].
    + pose proof (loop_body_cases _ _ _ _ _ _ Hb) as ((Pp & _) & _).
      apply IH; [exact St1 | rewrite Pp; exact Ha].
    + do 3 eexists. split; [reflexivity | exact St1].
Qed.

(** X12. A call that enters the loop with a steady session and an
    antiprompt configured runs into no exception and no undefined vector
    access, however long it is followed: every [at(0)], [back()], [erase]
    and iterator range of the loop and of [eval] is in range.  The session
    stays steady, the position stays between keep-count and capacity, and
    the window keeps the length of the context. *)
Theorem generation_is_defined_on_steady_sessions
    s sP prompt add :
  prime (set_canceled false s) prompt add = Ok sP ->
  steady sP ->
  antiprompt (params sP) <> [] ->
  forall fuel cb,
  exists e s' l',
    generate_response_run fuel s prompt add cb = Ok (e, s', l') /\
    steady s' /\
    n_keep (params s') <= n_past s' <= get_n_ctx s' /\
    size (last_n_tokens s') = get_n_ctx s'.
Proof.
  intros Hp St Ha fuel cb.
  destruct (generation_loop_defined cb fuel sP new_locals St Ha)
    as (e & s' & l' & Hl & St').
  exists e, s', l'. unfold generate_response_run. rewrite Hp. cbn [bind].
  split; [exact Hl|]. split; [exact St'|].
  destruct St' as (_ & Hw & _ & Hn & _). auto.
Qed.



Lemma pending_prompt_settled s :
  n_consumed s = size (prompt_tokens s) -> pending_prompt s = [].
Proof.
  intros H. unfold pending_prompt. rewrite H. unfold size.
  rewrite Nat2Z.id. apply skipn_all.
Qed.

(** The window over one iteration on a steady session: the pending prompt,
    then the sampled token if there is one. *)
Lemma loop_body_window cb s l c s' l' :
  steady s ->
  loop_body cb s l = Ok (c, s', l') ->
  exists new,
    response l' ++ completion_result_list l'
    = (response l ++ completion_result_list l) ++ new /\
    last_n_tokens s' = slide (window_after_eval s) (tokens_of new) /\
    n_consumed s' = size (prompt_tokens s').
Proof.
  intros St H.
  destruct (eval_settles s St) as (sE & He & _ & _ & Hw & _ & Hn & _).
  apply loop_body_inv in H. destruct H as (sE' & He' & H).
  rewrite He in He'. ok_inv He'.
  destruct H as [(-> & -> & ->) | (c1 & out & w & m & _ & Hpush & _ & H)].
  { exists []. rewrite app_nil_r. simpl. rewrite slide_nil. auto. }
  cbv zeta in H. apply window_push_slide in Hpush. rewrite Hw in Hpush.
  exists [out].
  assert (HS : last_n_tokens (after_sampling sE' c1 out w)
               = slide (window_after_eval s) (tokens_of [out]) /\
               n_consumed (after_sampling sE' c1 out w)
               = size (prompt_tokens (after_sampling sE' c1 out w))).
  { unfold after_sampling; simpl. split; [exact Hpush | exact Hn]. }
  assert (HL : response (sampled l out) ++ completion_result_list (sampled l out)
               = (response l ++ completion_result_list l) ++ [out]).
  { simpl. rewrite app_assoc. reflexivity. }
  destruct H as [(-> & _ & -> & ->) | (_ & [(-> & _ & -> & ->) | (_ & H)])].
  { split; [exact HL | exact HS]. }
  { split; [exact HL | exact HS]. }
  destruct H as [(-> & _ & -> & ->) | (_ & -> & H)].
  { split; [exact HL | exact HS]. }
  rewrite (proj1 (send_text_outputs cb _)).
  split; [exact HL|].
  destruct H as [(-> & _ & ->) | (-> & _ & ->)]; exact HS.
Qed.

Lemma generation_loop_window cb fuel : forall s l e s' l',
  steady s ->
  antiprompt (params s) <> [] ->
  generation_loop fuel cb s l = Ok (e, s', l') ->
  exists new,
    response l' ++ completion_result_list l'
    = (response l ++ completion_result_list l) ++ new /\
    window_after_eval s' = slide (window_after_eval s) (tokens_of new) /\
    ((n_remain s <> 0 /\ e <> None) \/ n_consumed s = size (prompt_tokens s) ->
     last_n_tokens s' = window_after_eval s').
Proof.
  induction fuel as [|fuel IH]; intros s l e s' l' St Ha H; simpl in H.
  - exists []. rewrite app_nil_r. simpl. rewrite slide_nil.
    destruct (n_remain s =? 0) eqn:E; ok_inv H.
    + split; [reflexivity|]. split; [reflexivity|].
      intros [(Hn & _) | Hc]; [apply Z.eqb_eq in E; contradiction|].
      unfold window_after_eval.
      rewrite (pending_prompt_settled _ Hc), slide_nil. reflexivity.
    + split; [reflexivity|]. split; [reflexivity|].
      intros [(_ & Hn) | Hc]; [contradiction|].
      unfold window_after_eval.
      rewrite (pending_prompt_settled _ Hc), slide_nil. reflexivity.
  - ok_inv H.
    { ok_inv H. exists []. rewrite app_nil_r. simpl. rewrite slide_nil.
      split; [reflexivity|]. split; [reflexivity|].
      intros [(Hn & _) | Hc]; [apply Z.eqb_eq in E; contradiction|].
      unfold window_after_eval.
      rewrite (pending_prompt_settled _ Hc), slide_nil. reflexivity. }
    ok_inv H. destruct a as [[c s1] l1].
    destruct (loop_body_defined cb s l St Ha) as (c0 & s0 & l0 & Hb & St1 & _).
    rewrite Ha0 in Hb. ok_inv Hb.
    pose proof (loop_body_cases _ _ _ _ _ _ Ha0) as ((Pp & _) & _).
    destruct (loop_body_window _ _ _ _ _ _ St Ha0) as (new1 & R1 & W1 & C1).
    assert (WA1 : window_after_eval s0 = last_n_tokens s0).
    { unfold window_after_eval.
      rewrite (pending_prompt_settled _ C1), slide_nil. reflexivity. }
    destruct c0 as [|why].
    + destruct (IH s0 l0 e s' l' St1) as (new2 & R2 & W2 & C2);
        [rewrite Pp; exact Ha | exact H |].
      exists (new1 ++ new2).
      split; [rewrite R2, R1, app_assoc; reflexivity|].
      split.
      { rewrite W2, WA1, W1. unfold tokens_of. rewrite map_app.
        apply slide_slide. }
      intros _. apply C2. right; exact C1.
    + ok_inv H. exists new1. split; [exact R1|].
      split; [rewrite WA1; exact W1 | intros _; symmetry; exact WA1].
Qed.

(** X14. Through a generation loop entered with a steady session, the
    history window is the sliding window over the token stream: what it held
    on entry, then the pending prompt tokens, then every sampled token in
    order, whether delivered, withheld or the end of sequence, the oldest
    tokens dropped first.  This is the window as the next [eval] leaves it
    at any point, and the window itself once the loop has been entered and
    left. *)
Theorem window_slides_over_the_token_stream fuel cb s e s' l' :
  steady s ->
  antiprompt (params s) <> [] ->
  generation_loop fuel cb s new_locals = Ok (e, s', l') ->
  let stream := pending_prompt s
                ++ tokens_of (response l' ++ completion_result_list l') in
  window_after_eval s' = slide (last_n_tokens s) stream /\
  (n_remain s <> 0 -> e <> None ->
   last_n_tokens s' = slide (last_n_tokens s) stream).
Proof.
  intros St Ha H stream.
  destruct (generation_loop_window _ _ _ _ _ _ _ St Ha H)
    as (new & R & W & C).
  simpl in R. subst stream. rewrite R.
  assert (E : window_after_eval s'
              = slide (last_n_tokens s) (pending_prompt s ++ tokens_of new)).
  { rewrite W. unfold window_after_eval. apply slide_slide. }
  split; [exact E|].
  intros Hn He. rewrite <- E. apply C. left; auto.
Qed.

End Defined.

(** ** The two stop tests *)

Section StopTests.
Context {B : Backend}.
Implicit Types s : @Llama B.
Implicit Types l : @locals B.

Lemma stop_match_prefix_iff (buffered : list (@completion_output B)) :
  forall stop,
  (List.length buffered <= List.length stop)%nat ->
  exists m,
    stop_match buffered stop = Ok m /\
    (m = true <-> exists rest, stop = tokens_of buffered ++ rest).
Proof.
  induction buffered as [|c buffered IH]; intros stop Hl; simpl.
  - exists true. split; [reflexivity|]. split; [|reflexivity].
    intros _. exists stop. reflexivity.
  - destruct stop as [|t stop]; [simpl in Hl; lia|].
    destruct (token c =? t) eqn:E; simpl.
    + apply Z.eqb_eq in E. destruct (IH stop) as (m & Hm & Hiff);
        [simpl in Hl; lia|].
      exists m. split; [exact Hm|]. rewrite Hiff. split.
      * intros (rest & ->). exists rest. rewrite E. reflexivity.
      * intros (rest & Hr). inversion Hr. exists rest. reflexivity.
    + apply Z.eqb_neq in E. exists false. split; [reflexivity|].
      split; [discriminate|]. intros (rest & Hr). inversion Hr. congruence.
Qed.

(** X15. The stop-sequence test of lines 270-289 never throws on a session
    with an antiprompt configured.  [stopping] becomes true exactly when the
    stop phrase is not empty and the buffered tokens are a prefix of the
    stop tokens, and the loop breaks at line 284 exactly when they are all
    of them. *)
Theorem stop_check_is_a_prefix_match s l phrase more :
  antiprompt (params s) = phrase :: more ->
  exists m brk,
    stop_check s l = Ok (m, brk) /\
    (m = true <->
     0 < str_size phrase /\
     exists rest, inp_stop s = tokens_of (completion_result_list l) ++ rest) /\
    (brk = true <->
     0 < str_size phrase /\
     tokens_of (completion_result_list l) = inp_stop s).
Proof.
  intros Ha. unfold stop_check. rewrite Ha. cbn [vector_at0 bind].
  assert (Hlen : forall rest,
            inp_stop s = tokens_of (completion_result_list l) ++ rest ->
            size (inp_stop s)
            = size (completion_result_list l) + size rest).
  { intros rest Hr. rewrite Hr. unfold size, tokens_of.
    rewrite length_app, length_map. lia. }
  destruct (size (completion_result_list l) <=? size (inp_stop s)) eqn:E.
  - apply Z.leb_le in E.
    destruct (0 <? str_size phrase) eqn:E0.
    + apply Z.ltb_lt in E0.
      destruct (stop_match_prefix_iff (completion_result_list l) (inp_stop s))
        as (m & Hm & Hiff); [unfold size in E; lia|].
      rewrite Hm. cbn [bind]. do 2 eexists. split; [reflexivity|].
      split; [rewrite Hiff; tauto|].
      rewrite andb_true_iff, Hiff, Z.eqb_eq. split.
      * intros ((rest & Hr) & Hs). split; [exact E0|].
        pose proof (Hlen rest Hr) as Hl.
        assert (rest = []).
        { destruct rest; [reflexivity|]. unfold size in *.
          cbn [List.length] in Hl. lia. }
        subst rest. rewrite app_nil_r in Hr. symmetry; exact Hr.
      * intros (_ & Hr). split.
        -- exists []. rewrite app_nil_r. symmetry; exact Hr.
        -- rewrite <- Hr. unfold size, tokens_of. rewrite length_map.
           reflexivity.
    + apply Z.ltb_ge in E0. exists false, false. split; [reflexivity|].
      split; (split; [discriminate | intros (Hp & _); lia]).
  - apply Z.leb_gt in E. exists false, false. split; [reflexivity|].
    split; (split; [discriminate|]).
    + intros (_ & rest & Hr). apply Hlen in Hr.
      assert (0 <= size rest) by (unfold size; lia). lia.
    + intros (_ & Hr). rewrite <- Hr in E. unfold size, tokens_of in E.
      rewrite length_map in E. lia.
Qed.

End StopTests.

(** ** The stop phrase at the tail of the output *)

Lemma index_from n : forall needle hay m,
  index n needle hay = Some m -> (n <= m)%nat.
Proof.
  induction n as [|n IH]; intros needle hay m H; [lia|].
  destruct hay as [|a hay]; simpl in H; [discriminate|].
  destruct (index n needle hay) as [k|] eqn:E; [|discriminate].
  inversion H; subst. apply IH in E. lia.
Qed.

Lemma substring_length : forall hay n m,
  String.length (substring n m hay) = Nat.min m (String.length hay - n).
Proof.
  induction hay as [|a hay IH]; intros n m.
  - destruct n, m; reflexivity.
  - destruct n as [|n].
    + destruct m as [|m]; [reflexivity|]. simpl. rewrite IH.
      rewrite Nat.sub_0_r. reflexivity.
    + simpl. apply IH.
Qed.

Lemma substring_tail : forall pre needle,
  substring (String.length pre) (String.length needle) (pre ++ needle)
  = needle.
Proof.
  induction pre as [|a pre IH]; intros needle; simpl.
  - induction needle as [|b needle IHn]; [reflexivity|].
    simpl. rewrite IHn. reflexivity.
  - apply IH.
Qed.

Lemma substring_split : forall hay n m,
  (n + m = String.length hay)%nat ->
  hay = (substring 0 n hay ++ substring n m hay)%string.
Proof.
  induction hay as [|a hay IH]; intros n m H.
  - destruct n, m; simpl in *; try lia. reflexivity.
  - destruct n as [|n].
    + destruct m as [|m]; simpl in H; [lia|]. simpl.
      f_equal. specialize (IH O m). simpl in IH.
      rewrite (IH ltac:(lia)) at 1.
      destruct hay; reflexivity.
    + simpl in H. simpl. f_equal. apply IH. lia.
Qed.

Lemma append_length : forall a b,
  String.length (a ++ b) = (String.length a + String.length b)%nat.
Proof.
  induction a as [|x a IH]; intros b; simpl; [reflexivity|].
  rewrite IH. reflexivity.
Qed.

(** X16. The test of lines 237-241 holds exactly when the stop phrase is
    not empty and the detokenized window ends with it.  A phrase longer than
    the output makes the offset wrap around in [size_t], and [find] then
    reports no match. *)
Theorem antiprompt_found_iff_suffix (last_output phrase : string) :
  str_size last_output < 2 ^ 64 ->
  str_size phrase < 2 ^ 64 ->
  antiprompt_found last_output phrase = true <->
  phrase <> EmptyString /\
  exists before, last_output = (before ++ phrase)%string.
Proof.
  intros Ho Hp. unfold antiprompt_found, string_find, size_t_wrap, str_size in *.
  assert (Hne : (0 <? Z.of_nat (String.length phrase)) = true
                <-> phrase <> EmptyString).
  { rewrite Z.ltb_lt. destruct phrase; simpl; split; intros H;
      try lia; try congruence. }
  rewrite andb_true_iff, Hne.
  split.
  - intros (Hn & H). split; [exact Hn|].
    destruct (Z_lt_le_dec (Z.of_nat (String.length last_output))
                          (Z.of_nat (String.length phrase))) as [Hlt|Hle].
    + (* the phrase is longer: the offset wraps beyond the output *)
      replace ((Z.of_nat (String.length last_output)
                - Z.of_nat (String.length phrase)) mod 2 ^ 64)
        with (Z.of_nat (String.length last_output)
              - Z.of_nat (String.length phrase) + 2 ^ 64) in H.
      2:{ symmetry. rewrite <- (Z.mod_add _ 1 (2 ^ 64)) by lia.
          rewrite Z.mul_1_l. apply Z.mod_small. lia. }
      destruct (_ >? _) eqn:E in H; [discriminate|].
      rewrite Z.gtb_ltb in E. apply Z.ltb_ge in E. lia.
    + rewrite Z.mod_small in H by lia.
      destruct (_ >? _) in H; [discriminate|].
      destruct (index _ phrase last_output) as [m|] eqn:E; [|discriminate].
      pose proof (index_from _ _ _ _ E) as Hge.
      apply index_correct1 in E.
      pose proof (f_equal String.length E) as Hl.
      rewrite substring_length in Hl.
      assert (Hpos : (0 < String.length phrase)%nat)
        by (destruct phrase; [congruence | simpl; lia]).
      assert (Hm : m = (String.length last_output - String.length phrase)%nat)
        by lia.
      exists (substring 0 m last_output).
      transitivity (substring 0 m last_output
                    ++ substring m (String.length phrase) last_output)%string;
        [apply substring_split; lia | rewrite E; reflexivity].
  - intros (Hn & before & ->). split; [exact Hn|].
    rewrite append_length.
    replace (Z.of_nat (String.length before + String.length phrase)
             - Z.of_nat (String.length phrase))
      with (Z.of_nat (String.length before)) by lia.
    rewrite append_length in Ho.
    rewrite Z.mod_small by lia.
    destruct (_ >? _) eqn:E.
    { rewrite Z.gtb_ltb in E. apply Z.ltb_lt in E. lia. }
    rewrite Nat2Z.id.
    destruct (index (String.length before) phrase (before ++ phrase))
      as [m|] eqn:Ei; [reflexivity|].
    exfalso.
    apply (index_correct3 _ (String.length before) _ _ Ei Hn (le_n _)).
    apply substring_tail.
Qed.

(** ** The response against the sampler's tokens *)

Section Streams.
Context {B : Backend}.
Implicit Types s : @Llama B.
Implicit Types l : @locals B.

Lemma prime_ctx s prompt add s' :
  prime s prompt add = Ok s' -> ctx s' = ctx s.
Proof.
  unfold prime, load_grammar, insert_prompt; intros H.
  ok_inv H. destruct a as [s1 g]. ok_inv H.
  assert (Hc : ctx s1 = ctx s); [|exact Hc].
  repeat match type of Ha with
         | (if ?c then _ else _) = Ok _ => destruct c
         end; ok_inv Ha; simpl;
  repeat match goal with
         | |- context [if ?c then _ else _] => destruct c
         end; reflexivity.
Qed.

(** One completed iteration, as the stream of outputs sees it: nothing new,
    or one more output at the end of what is delivered and buffered. *)
Lemma loop_body_stream cb s l c s' l' :
  loop_body cb s l = Ok (c, s', l') ->
  exists sE,
    eval s = Ok sE /\
    ((l' = l /\ ctx s' = ctx sE /\ c <> Continue) \/
     exists c1 out,
       sample (set_is_antiprompt false sE)
       = (set_ctx c1 (set_is_antiprompt false sE), out) /\
       ctx s' = c1 /\
       response l' ++ completion_result_list l'
       = (response l ++ completion_result_list l) ++ [out] /\
       (token out = llama_token_eos B ->
        c <> Continue /\ response l' = response l)).
Proof.
  intros H. apply loop_body_inv in H. destruct H as (sE & He & H).
  exists sE. split; [exact He|].
  destruct H as [(-> & -> & ->) | (c1 & out & w & m & Hs & _ & _ & H)].
  { left. split; [reflexivity|]. split; [reflexivity | discriminate]. }
  right. exists c1, out. split; [exact Hs|]. cbv zeta in H.
  assert (HL : response (sampled l out) ++ completion_result_list (sampled l out)
               = (response l ++ completion_result_list l) ++ [out]).
  { simpl. rewrite app_assoc. reflexivity. }
  destruct H as [(-> & _ & -> & ->) | (Ht & [(-> & _ & -> & ->) | (_ & H)])].
  { split; [reflexivity|]. split; [exact HL|]. intros _.
    split; [discriminate | reflexivity]. }
  { split; [reflexivity|]. split; [exact HL|]. intros E; contradiction. }
  destruct H as [(-> & _ & -> & ->) | (_ & -> & H)].
  { split; [reflexivity|]. split; [exact HL|]. intros E; contradiction. }
  rewrite (proj1 (send_text_outputs cb _)).
  destruct H as [(-> & _ & ->) | (-> & _ & ->)];
    (split; [reflexivity|]; split; [exact HL|]; intros E; contradiction).
Qed.

End Streams.

Section ScriptedStream.

Variables (tok : string -> bool -> list llama_token)
          (detok : list llama_token -> string)
          (bos eos : llama_token).

Local Abbreviation SB := (scripted tok detok bos eos).

Implicit Types s : @Llama SB.
Implicit Types l : @locals SB.

Lemma scripted_sample s c1 out :
  sample s = (@set_ctx SB c1 s, out) ->
  c1 = tl (ctx s) /\ token out = hd eos (ctx s).
Proof.
  intros H.
  destruct (sample_scripted_any tok detok bos eos s) as (out' & Hs & Ht).
  rewrite Hs in H. inversion H as [[Hc Ho]]. subst out'.
  split; [congruence | exact Ht].
Qed.

(** The script is what was sampled so far, then what is left of it. *)
Lemma loop_body_script cb s l c s' l' script :
  loop_body cb s l = Ok (c, s', l') ->
  script = tokens_of (response l ++ completion_result_list l) ++ ctx s ->
  (c = Continue ->
   script = tokens_of (response l' ++ completion_result_list l') ++ ctx s') /\
  exists withheld, script = tokens_of (response l') ++ withheld ++ ctx s'.
Proof.
  intros H Hinv. apply loop_body_stream in H.
  destruct H as (sE & He & H).
  apply (eval_ctx _ _ (scripted_keeps_context tok detok bos eos)) in He.
  assert (Hfin : forall l0 c0,
            script = tokens_of (response l0 ++ completion_result_list l0) ++ c0 ->
            exists withheld, script = tokens_of (response l0) ++ withheld ++ c0).
  { intros l0 c0 E. exists (tokens_of (completion_result_list l0)).
    rewrite E. unfold tokens_of. rewrite map_app, <- app_assoc. reflexivity. }
  destruct H as [(-> & Hc & Hn) | (c1 & out & Hs & Hc & HL & Heos)].
  { split; [intros E; contradiction|]. apply Hfin. rewrite Hc, He. exact Hinv. }
  apply scripted_sample in Hs. cbn [ctx set_is_antiprompt] in Hs.
  rewrite He in Hs. destruct Hs as (-> & Ht).
  destruct (ctx s) as [|t rest] eqn:Ec; cbn [hd tl] in *.
  - destruct (Heos Ht) as (Hn & Hr).
    split; [intros E; contradiction|].
    exists (tokens_of (completion_result_list l)).
    rewrite Hr, Hc, Hinv. unfold tokens_of.
    rewrite map_app, <- app_assoc. reflexivity.
  - assert (E : script
                = tokens_of (response l' ++ completion_result_list l') ++ ctx s').
    { rewrite HL, Hc, Hinv. unfold tokens_of. rewrite !map_app. simpl.
      rewrite Ht, <- !app_assoc. reflexivity. }
    split; [intros _; exact E | apply Hfin; exact E].
Qed.

Lemma generation_loop_script cb fuel : forall s l e s' l' script,
  generation_loop fuel cb s l = Ok (e, s', l') ->
  script = tokens_of (response l ++ completion_result_list l) ++ ctx s ->
  exists withheld, script = tokens_of (response l') ++ withheld ++ ctx s'.
Proof.
  induction fuel as [|fuel IH]; intros s l e s' l' script H Hinv; simpl in H.
  - assert (E : s' = s /\ l' = l)
      by (destruct (n_remain s =? 0); ok_inv H; auto).
    destruct E as (-> & ->).
    exists (tokens_of (completion_result_list l)).
    rewrite Hinv. unfold tokens_of. rewrite map_app, <- app_assoc. reflexivity.
  - ok_inv H.
    { ok_inv H. exists (tokens_of (completion_result_list l')).
      unfold tokens_of. rewrite map_app, <- app_assoc. reflexivity. }
    ok_inv H. destruct a as [[c s1] l1].
    apply (loop_body_script _ _ _ _ _ _ script) in Ha; [|exact Hinv].
    destruct Ha as (Hc & Hf).
    destruct c as [|why].
    + apply (IH _ _ _ _ _ _ H). apply Hc. reflexivity.
    + ok_inv H. exact Hf.
Qed.

(** X17. Against a scripted sampler, the tokens a call returns are the
    first tokens the sampler produced, in order: what the sampler held
    before the call is the response, then the tokens that were drawn but
    withheld, then what the sampler is left with. *)
Theorem response_is_a_prefix_of_the_samples fuel s prompt add cb r s' :
  generate_response fuel s prompt add cb = Ok (r, s') ->
  exists withheld, ctx s = tokens_of r ++ withheld ++ ctx s'.
Proof.
  intros H. unfold generate_response in H. ok_inv H.
  { ok_inv H. exists []. reflexivity. }
  ok_inv H. destruct a as [[e s1] l1]. destruct e as [why|]; ok_inv H.
  apply generate_response_run_inv in Ha. destruct Ha as (s0 & Pr & L).
  apply prime_ctx in Pr. cbn [ctx set_canceled] in Pr.
  apply (generation_loop_script _ _ _ _ _ _ _ (ctx s)) in L;
    [|rewrite Pr; reflexivity].
  assert (R : ctx (release_grammar s1) = ctx s1)
    by (unfold release_grammar; destruct (grammar s1); reflexivity).
  rewrite R. exact L.
Qed.

End ScriptedStream.

(** ** Loading the grammar *)

Section Grammar.
Context {B : Backend}.
Implicit Types s : @Llama B.

Lemma insert_prompt_params s prompt add :
  params (insert_prompt s prompt add) = params s.
Proof.
  destruct (insert_prompt_frame s prompt add) as ((P & _) & _). exact P.
Qed.

(** X18. A configured grammar that parses to a rule set without a rule
    named root makes every call with a non-empty input throw
    [std::out_of_range] (line 433) while the grammar is loaded, before the
    generation loop is entered. *)
Theorem grammar_without_root_throws fuel s prompt add cb :
  0 < str_size prompt ->
  0 < str_size (params_grammar (params s)) ->
  rules_empty B (grammar_parse B (params_grammar (params s))) = false ->
  has_root B (grammar_parse B (params_grammar (params s))) = false ->
  prime (set_canceled false s) prompt add = Fault OutOfRange /\
  generate_response fuel s prompt add cb = Fault OutOfRange.
Proof.
  intros Hp Hg Hr Hroot.
  assert (P : prime (set_canceled false s) prompt add = Fault OutOfRange).
  { unfold prime, load_grammar. rewrite insert_prompt_params.
    change (params (set_canceled false s)) with (params s).
    destruct (str_size (params_grammar (params s)) =? 0) eqn:E;
      [apply Z.eqb_eq in E; lia|].
    cbn [negb]. rewrite Hr, Hroot. reflexivity. }
  split; [exact P|].
  unfold generate_response, generate_response_run.
  destruct (str_size prompt <=? 0) eqn:E; [apply Z.leb_le in E; lia|].
  rewrite P. reflexivity.
Qed.

End Grammar.


(** ** An input that uses up the budget *)

Section ExactBudget.
Context {B : Backend}.
Implicit Types s : @Llama B.

(** Framing the input and loading the grammar evaluate and consume
    nothing. *)
Lemma prime_evaluates_nothing s prompt add s' :
  prime s prompt add = Ok s' ->
  ghost_evals s' = ghost_evals s /\ n_consumed s' = n_consumed s /\
  n_past s' = n_past s /\ batch_tokens s' = batch_tokens s /\
  last_n_tokens s' = last_n_tokens s.
Proof.
  unfold prime, load_grammar, insert_prompt; intros H.
  ok_inv H. destruct a as [s1 g]. ok_inv H.
  assert (Hc : ghost_evals s1 = ghost_evals s /\ n_consumed s1 = n_consumed s /\
               n_past s1 = n_past s /\ batch_tokens s1 = batch_tokens s /\
               last_n_tokens s1 = last_n_tokens s); [|exact Hc].
  repeat match type of Ha with
         | (if ?c then _ else _) = Ok _ => destruct c
         end; ok_inv Ha; simpl;
  repeat match goal with
         | |- context [if ?c then _ else _] => destruct c
         end; auto.
Qed.

Lemma release_grammar_keeps s :
  ghost_evals (release_grammar s) = ghost_evals s /\
  ctx (release_grammar s) = ctx s /\
  n_consumed (release_grammar s) = n_consumed s /\
  n_remain (release_grammar s) = n_remain s /\
  prompt_tokens (release_grammar s) = prompt_tokens s.
Proof. unfold release_grammar; destruct (grammar s); simpl; auto. Qed.

(** X19. When the input has exactly as many tokens as the budget has left,
    line 198 brings [n_remain] to zero and the loop is not entered: the call
    returns an empty response, the input stays queued in [prompt_tokens]
    without being consumed, nothing is evaluated or sampled, and the budget
    stays at zero. *)
Theorem input_that_uses_up_the_budget fuel s sP prompt add cb :
  0 < str_size prompt ->
  prime (set_canceled false s) prompt add = Ok sP ->
  int_wrap (n_remain s - size (line_inp s prompt add)) = 0 ->
  generate_response fuel s prompt add cb = Ok ([], release_grammar sP) /\
  ghost_evals (release_grammar sP) = ghost_evals s /\
  ctx (release_grammar sP) = ctx s /\
  n_consumed (release_grammar sP) = n_consumed s /\
  n_remain (release_grammar sP) = 0 /\
  prompt_tokens (release_grammar sP)
  = prompt_tokens (insert_prompt s prompt add).
Proof.
  intros Hp Hprime Hz.
  pose proof (prime_evaluates_nothing _ _ _ _ Hprime) as (He & Hc & _).
  pose proof (prime_ctx _ _ _ _ Hprime) as Hx.
  pose proof (prime_inv _ _ _ _ Hprime) as (_ & Ht & Hr & _).
  change (line_inp (set_canceled false s) prompt add)
    with (line_inp s prompt add) in Hr.
  change (n_remain (set_canceled false s)) with (n_remain s) in Hr.
  rewrite Hz in Hr.
  destruct (release_grammar_keeps sP) as (R1 & R2 & R3 & R4 & R5).
  split.
  { unfold generate_response, generate_response_run.
    destruct (str_size prompt <=? 0) eqn:E; [apply Z.leb_le in E; lia|].
    rewrite Hprime. cbn [bind].
    assert (L : generation_loop fuel cb sP new_locals
                = Ok (Some LoopConditionFalse, sP, new_locals)).
    { destruct fuel; cbn [generation_loop]; rewrite Hr; reflexivity. }
    rewrite L. reflexivity. }
  rewrite R1, R2, R3, R4, R5.
  split; [exact He|]. split; [exact Hx|]. split; [exact Hc|].
  split; [exact Hr|].
  rewrite Ht, !insert_prompt_tokens. reflexivity.
Qed.

End ExactBudget.


(** ** The further properties on the byte backend *)

Lemma reset_is_idempotent_witness :
  reset (result_of in_antiprompt_turn (reset in_antiprompt_turn))
  = Ok (result_of in_antiprompt_turn (reset in_antiprompt_turn)).
Proof.
  exact (proj1 (reset_is_idempotent (B:=byte_backend) in_antiprompt_turn
                  (result_of in_antiprompt_turn (reset in_antiprompt_turn))
                  ltac:(closed))).
Defined.

Lemma reset_restores_the_constructed_session_witness :
  parsed_grammar (with_grammar 8 (-1) [1; 5; 9; 3]) = None /\
  parsed_grammar after_grammar_call = Some "root ::= [0-9]+"%string /\
  reset after_grammar_call
  = Ok (set_parsed_grammar (parsed_grammar after_grammar_call)
          (set_ghost_evals (ghost_evals after_grammar_call)
             (set_ctx (ctx after_grammar_call)
                (with_grammar 8 (-1) [1; 5; 9; 3])))) /\
  reset busy_session
  = Ok (set_parsed_grammar (parsed_grammar busy_session)
          (set_ghost_evals (ghost_evals busy_session)
             (set_ctx (ctx busy_session)
                (fresh 8 (-1) [4; 5; 4; 4; 4; 4; 4; 4; 4; 4; 4; 4; 4; 4; 4; 4;
                               4; 4; 2; 6; 6; 6])))).
Proof.
  split; [closed|]. split; [closed|]. split.
  - exact (reset_restores_the_constructed_session (B:=byte_backend)
             (demo_params 8 (-1) "" "" "root ::= [0-9]+" stop_5_9)
             [1; 5; 9; 3]
             (with_grammar 8 (-1) [1; 5; 9; 3])
             [OpGenerate 100 "a" false true; OpCancel]
             after_grammar_call ltac:(closed) ltac:(closed)).
  - exact (reset_restores_the_constructed_session (B:=byte_backend)
             (demo_params 8 (-1) "" "" "" stop_5_9)
             [4; 5; 4; 4; 4; 4; 4; 4; 4; 4; 4; 4; 4; 4; 4; 4; 4; 4; 2; 6; 6; 6]
             (fresh 8 (-1) [4; 5; 4; 4; 4; 4; 4; 4; 4; 4; 4; 4; 4; 4; 4; 4; 4; 4; 2; 6; 6; 6])
             [OpGenerate 100 "ab" false true; OpEval; OpSample; OpCancel;
              OpGenerate 100 "c" false true; OpReset; OpEmbeddings "x";
              OpGenerate 100 "d" false false]
             busy_session ltac:(closed) ltac:(closed)).
Defined.

Lemma embeddings_evaluate_the_prompt_in_chunks_witness :
  exists s' calls,
    generate_embeddings (embedder 2) "abcd"
    = Ok (llama_get_embeddings byte_backend (ctx s'), s') /\
    ghost_evals s' = ghost_evals (embedder 2) ++ calls /\
    List.concat (map fst calls) = @tokenize byte_backend "abcd" true /\
    chunked (n_batch (params (embedder 2))) 0 calls = true /\
    s' = set_ghost_evals (ghost_evals s') (set_ctx (ctx s') (embedder 2)).
Proof.
  exact (embeddings_evaluate_the_prompt_in_chunks (B:=byte_backend)
           (embedder 2) "abcd" ltac:(closed) ltac:(closed)).
Defined.

Example embeddings_restart_at_position_zero :
  ghost_evals (snd (result_of ([], embedder 2)
                      (generate_embeddings (embedder 2) "abcd")))
  = [([1], 0); ([1; 97], 0); ([98; 99], 2); ([100], 4)].
Proof. closed. Qed.

Lemma eval_respects_batch_capacity_witness :
  exists calls start,
    ghost_evals (result_of full_context (eval full_context))
    = ghost_evals full_context ++ calls /\
    chunked (n_batch (params full_context)) start calls = true /\
    (start = n_past full_context \/ start = n_keep (params full_context)) /\
    n_past (result_of full_context (eval full_context))
    = start + size (List.concat (map fst calls)) /\
    batch_tokens (result_of full_context (eval full_context)) = [].
Proof.
  exact (eval_respects_batch_capacity (B:=byte_backend) full_context
           (result_of full_context (eval full_context))
           ltac:(closed) ltac:(closed)).
Defined.

Lemma eval_without_eviction_witness :
  exists s' calls,
    eval short_prompt = Ok s' /\
    ghost_evals s' = ghost_evals short_prompt ++ calls /\
    List.concat (map fst calls)
    = batch_tokens short_prompt ++ pending_prompt short_prompt /\
    chunked (n_batch (params short_prompt)) (n_past short_prompt) calls = true /\
    n_past s' = n_past short_prompt + size (batch_tokens short_prompt)
                + size (pending_prompt short_prompt) /\
    last_n_tokens s' = window_after_eval short_prompt /\
    n_consumed s' = size (prompt_tokens short_prompt) /\
    batch_tokens s' = [].
Proof.
  exact (eval_without_eviction (B:=byte_backend) short_prompt
           ltac:(steady_closed) ltac:(closed)).
Defined.

Lemma budget_is_charged_per_token_witness :
  n_remain (snd (fst stopped_run)) = 5 /\
  n_remain (snd (fst stopped_run))
  = int_wrap (n_remain (fresh 8 10 [1; 5; 9; 3])
              - size (line_inp (fresh 8 10 [1; 5; 9; 3]) "a" false))
    - produced (snd stopped_run).
Proof.
  split; [closed|].
  exact (proj2 (budget_is_charged_per_token (B:=byte_backend) 100
                  (fresh 8 10 [1; 5; 9; 3]) "a" false true
                  (fst (fst stopped_run)) (snd (fst stopped_run))
                  (snd stopped_run) ltac:(closed) ltac:(closed))
           ltac:(closed)).
Defined.

Lemma callback_receives_the_response_witness :
  tokens_of (response (snd budget_run)) = [5; 7; 3; 4] /\
  ghost_callback (snd budget_run) = response (snd budget_run).
Proof.
  split; [closed|].
  exact (callback_receives_the_response (B:=byte_backend) 100
           (fresh 8 6 [5; 7; 3; 4; 4; 4; 4; 4]) "a" false true
           (fst (fst budget_run)) (snd (fst budget_run)) (snd budget_run)
           ltac:(closed)).
Defined.

Lemma end_of_sequence_is_never_delivered_witness :
  ~ In (llama_token_eos byte_backend)
       (tokens_of (fst (result_of ([], fresh 8 (-1) [])
          (generate_response 100 (fresh 8 (-1) [7]) "a" false true)))).
Proof.
  exact (end_of_sequence_is_never_delivered (B:=byte_backend) 100
           (fresh 8 (-1) [7]) "a" false true
           (fst (result_of ([], fresh 8 (-1) [])
              (generate_response 100 (fresh 8 (-1) [7]) "a" false true)))
           (snd (result_of ([], fresh 8 (-1) [])
              (generate_response 100 (fresh 8 (-1) [7]) "a" false true)))
           ltac:(closed)).
Defined.

Lemma response_is_a_prefix_of_the_samples_witness :
  exists withheld,
    ctx (fresh 8 (-1) [1; 5; 9; 3])
    = tokens_of (fst (result_of ([], fresh 8 (-1) [])
        (generate_response 100 (fresh 8 (-1) [1; 5; 9; 3]) "a" false true)))
      ++ withheld
      ++ ctx (snd (result_of ([], fresh 8 (-1) [])
           (generate_response 100 (fresh 8 (-1) [1; 5; 9; 3]) "a" false true))).
Proof.
  exact (response_is_a_prefix_of_the_samples byte_tokenize byte_detokenize 1 2
           100 (fresh 8 (-1) [1; 5; 9; 3]) "a" false true
           (fst (result_of ([], fresh 8 (-1) [])
              (generate_response 100 (fresh 8 (-1) [1; 5; 9; 3]) "a" false true)))
           (snd (result_of ([], fresh 8 (-1) [])
              (generate_response 100 (fresh 8 (-1) [1; 5; 9; 3]) "a" false true)))
           ltac:(closed)).
Defined.

Lemma generation_is_defined_on_steady_sessions_witness :
  exists e s' l',
    generate_response_run 100 (fresh 8 (-1) [5; 7; 3]) "a" false true
    = Ok (e, s', l') /\
    steady s' /\
    n_keep (params s') <= n_past s' <= get_n_ctx s' /\
    size (last_n_tokens s') = get_n_ctx s'.
Proof.
  exact (generation_is_defined_on_steady_sessions (B:=byte_backend)
           (fresh 8 (-1) [5; 7; 3]) short_prompt "a" false
           ltac:(closed) ltac:(steady_closed) ltac:(closed) 100%nat true).
Defined.


Lemma response_probs_within_n_probs_witness :
  Forall (fun o => size (probs o) <= n_probs (params (fresh 8 (-1) [5; 7; 3])))
    (fst (result_of ([], fresh 8 (-1) [])
       (generate_response 100 (fresh 8 (-1) [5; 7; 3]) "a" false true))).
Proof.
  exact (response_probs_within_n_probs (B:=byte_backend) 100
           (fresh 8 (-1) [5; 7; 3]) "a" false true
           (fst (result_of ([], fresh 8 (-1) [])
              (generate_response 100 (fresh 8 (-1) [5; 7; 3]) "a" false true)))
           (snd (result_of ([], fresh 8 (-1) [])
              (generate_response 100 (fresh 8 (-1) [5; 7; 3]) "a" false true)))
           ltac:(closed) ltac:(closed)).
Defined.

Lemma window_slides_over_the_token_stream_witness :
  last_n_tokens (snd (fst short_prompt_loop))
  = [0; 0; 0; 0; 0; 0; 0; 0; 0; 0; 1; 97; 5; 7; 3; 2] /\
  last_n_tokens (snd (fst short_prompt_loop))
  = slide (last_n_tokens short_prompt)
      (pending_prompt short_prompt
       ++ tokens_of (response (snd short_prompt_loop)
                     ++ completion_result_list (snd short_prompt_loop))).
Proof.
  split; [closed|].
  exact (proj2 (window_slides_over_the_token_stream (B:=byte_backend) 100 true
                  short_prompt (fst (fst short_prompt_loop))
                  (snd (fst short_prompt_loop)) (snd short_prompt_loop)
                  ltac:(steady_closed) ltac:(closed) ltac:(closed))
           ltac:(closed) ltac:(closed)).
Defined.


Lemma stop_check_is_a_prefix_match_witness :
  exists m brk,
    stop_check (fresh 8 (-1) []) first_stop_token_buffered = Ok (m, brk) /\
    (m = true <->
     0 < str_size stop_5_9 /\
     exists rest,
       inp_stop (fresh 8 (-1) [])
       = tokens_of (completion_result_list first_stop_token_buffered) ++ rest) /\
    (brk = true <->
     0 < str_size stop_5_9 /\
     tokens_of (completion_result_list first_stop_token_buffered)
     = inp_stop (fresh 8 (-1) [])).
Proof.
  exact (stop_check_is_a_prefix_match (B:=byte_backend) (fresh 8 (-1) [])
           first_stop_token_buffered stop_5_9 [] ltac:(closed)).
Defined.

Lemma antiprompt_found_iff_suffix_witness :
  antiprompt_found "hello world" "world" = true <->
  "world"%string <> EmptyString /\
  exists before, "hello world"%string = (before ++ "world")%string.
Proof.
  exact (antiprompt_found_iff_suffix "hello world" "world"
           ltac:(closed) ltac:(closed)).
Defined.

(** The constructor builds this session. *)
Example constructed_rootless_session :
  @Llama_new (without_root byte_backend)
    (demo_params 8 (-1) "" "" "expr ::= [0-9]+" stop_5_9) [5; 7; 3]
  = Ok rootless_session.
Proof. vm_compute; reflexivity. Qed.

Lemma grammar_without_root_throws_witness :
  generate_response 100 rootless_session "a" false true = Fault OutOfRange.
Proof.
  exact (proj2 (grammar_without_root_throws (B:=without_root byte_backend) 100
                  rootless_session "a" false true
                  ltac:(closed) ltac:(closed) ltac:(closed) ltac:(closed))).
Defined.

Lemma input_that_uses_up_the_budget_witness :
  generate_response 100 (fresh 8 2 [7; 7]) "a" false true
  = Ok ([], release_grammar (entering (fresh 8 2 [7; 7]) "a" false)).
Proof.
  exact (proj1 (input_that_uses_up_the_budget (B:=byte_backend) 100
                  (fresh 8 2 [7; 7]) (entering (fresh 8 2 [7; 7]) "a" false)
                  "a" false true
                  ltac:(closed) ltac:(closed) ltac:(closed))).
Defined.
